(** * TorchSWE: the right-hand-side orchestrator, the ghost-cell updaters
      and the case-data generators

    A shallow embedding of

      - [torchswe/core/fvm.py] and [torchswe/fvm.py] (the two
        [prepare_rhs] orchestrators),
      - [torchswe/bcs/__init__.py] ([init_bc], [setup_bc],
        [get_ghost_cell_updaters]),
      - [cases/delestre_et_al_2013/case_4.2.2b/create_data.py] and
        [cases/xing_shu_2005/case_5.3/create_data.py],

    together with the properties the specification states about them and
    further properties of the same functions: error behaviour, shapes,
    closed forms and the agreement of the two set-up functions.

    Number model.  The programs compute on IEEE-754 binary64 values; they
    are embedded on [spec_float] with precision 53 and maximal exponent
    1024, so that rounding, overflow, infinities, NaN and signed zeros
    behave as in the program.  The functions of the mathematical library
    that the case generators call (cosine, sine, exponential, power) are
    parameters. *)

From Stdlib Require Import ZArith String List Bool Lia FinFun.
From Stdlib Require Import Floats.SpecFloat.
Import ListNotations.

Set Implicit Arguments.

(* ===================================================================== *)
(** * Exceptions *)
(* ===================================================================== *)

(** The Python exceptions the embedded code can raise. *)
Inductive exn : Type :=
| ValueError (msg : string)
| TypeError (msg : string)
| IndexError
| OtherError (msg : string).

Inductive result (A : Type) : Type :=
| Ok (a : A)
| Raise (e : exn).

Arguments Ok {A} a.
Arguments Raise {A} e.

Definition rbind {A B} (r : result A) (k : A -> result B) : result B :=
  match r with
  | Ok a => k a
  | Raise e => Raise e
  end.

Definition is_ok {A} (r : result A) : bool :=
  match r with Ok _ => true | Raise _ => false end.

(* ===================================================================== *)
(** * Binary64 scalars *)
(* ===================================================================== *)

Module F64.

Definition prec : Z := 53.
Definition emax : Z := 1024.

Definition f64 : Type := spec_float.

Definition add : f64 -> f64 -> f64 := SFadd prec emax.
Definition sub : f64 -> f64 -> f64 := SFsub prec emax.
Definition mul : f64 -> f64 -> f64 := SFmul prec emax.
Definition div : f64 -> f64 -> f64 := SFdiv prec emax.
Definition neg : f64 -> f64 := SFopp.
Definition ltb : f64 -> f64 -> bool := SFltb.
Definition leb : f64 -> f64 -> bool := SFleb.
Definition geb (x y : f64) : bool := SFleb y x.
Definition eqb : f64 -> f64 -> bool := SFeqb.

Definition pzero : f64 := S754_zero false.
Definition nzero : f64 := S754_zero true.
Definition pinf : f64 := S754_infinity false.
Definition ninf : f64 := S754_infinity true.
Definition nan : f64 := S754_nan.

(** [2^52 * 2^e]: the canonical binary64 form of a power of two. *)
Definition pow2 (e : Z) : f64 := S754_finite false 4503599627370496 (e - 52).

Definition one : f64 := pow2 0.
Definition two : f64 := pow2 1.
Definition half : f64 := pow2 (-1).
Definition quarter : f64 := pow2 (-2).
Definition three : f64 := S754_finite false 6755399441055744 (-51).

(** The largest finite binary64 number, 1.7976931348623157e308. *)
Definition max_float : f64 := SFmax_float prec emax.

Definition isnan (x : f64) : bool :=
  match x with S754_nan => true | _ => false end.

Definition isinf (x : f64) : bool :=
  match x with S754_infinity _ => true | _ => false end.

Definition is_finite (x : f64) : bool :=
  match x with
  | S754_zero _ | S754_finite _ _ _ => true
  | _ => false
  end.

(** Strictly positive and finite. *)
Definition is_pos_finite (x : f64) : bool :=
  match x with S754_finite false _ _ => true | _ => false end.

Definition is_zero (x : f64) : bool :=
  match x with S754_zero _ => true | _ => false end.

End F64.

Import F64.

(* ===================================================================== *)
(** * The array backend ([nplike]) *)
(* ===================================================================== *)

(** The program reaches its arrays through [torchswe.nplike], which is NumPy,
  CuPy or a NumPy clone.  Arrays are nested lists here: a rank-2 array is a
  list of rows, a rank-3 array a list of rank-2 arrays (component first,
  then the y index, then the x index). *)
Module NP.

Definition arr1 : Type := list f64.
Definition arr2 : Type := list arr1.
Definition arr3 : Type := list arr2.

Definition broadcast_error : exn :=
  ValueError "operands could not be broadcast together".

Fixpoint mapM {A B} (f : A -> result B) (l : list A) : result (list B) :=
  match l with
  | [] => Ok []
  | x :: l' => rbind (f x) (fun y => rbind (mapM f l') (fun ys => Ok (y :: ys)))
  end.

Fixpoint zipM {A B C} (f : A -> B -> result C) (xs : list A) (ys : list B)
  : result (list C) :=
  match xs, ys with
  | [], [] => Ok []
  | x :: xs', y :: ys' =>
      rbind (f x y) (fun c => rbind (zipM f xs' ys') (fun cs => Ok (c :: cs)))
  | _, _ => Raise broadcast_error
  end.

(** One axis of NumPy broadcasting between two arrays of the same rank: an
    axis of length one is stretched to the length of the other operand,
    equal lengths are paired, anything else is an error. *)
Definition broadcast {A B C} (f : A -> B -> result C) (xs : list A) (ys : list B)
  : result (list C) :=
  match xs, ys with
  | [x], [_] => zipM f xs ys
  | [x], _ => mapM (f x) ys
  | _, [y] => mapM (fun x => f x y) xs
  | _, _ => zipM f xs ys
  end.

Definition lift2 (op : f64 -> f64 -> f64) (x y : f64) : result f64 := Ok (op x y).

Definition ew2 (op : f64 -> f64 -> f64) : arr2 -> arr2 -> result arr2 :=
  broadcast (broadcast (lift2 op)).

Definition ew3 (op : f64 -> f64 -> f64) : arr3 -> arr3 -> result arr3 :=
  broadcast (broadcast (broadcast (lift2 op))).

Definition map2 (f : f64 -> f64) (a : arr2) : arr2 := map (map f) a.
Definition map3 (f : f64 -> f64) (a : arr3) : arr3 := map (map (map f)) a.

(** [a[:, :, :-1]], [a[:, :, 1:]], [a[:, :-1, :]] and [a[:, 1:, :]]. *)
Definition drop_last_x (a : arr3) : arr3 := map (map (@removelast f64)) a.
Definition drop_first_x (a : arr3) : arr3 := map (map (@tl f64)) a.
Definition drop_last_y (a : arr3) : arr3 := map (@removelast arr1) a.
Definition drop_first_y (a : arr3) : arr3 := map (@tl arr1) a.

(** [numpy.maximum] at one entry of two arrays: a NaN on either side comes
    out; of two numbers the first is kept only when it is the greater one,
    so that of two zeros of different sign the second comes out:
    [maximum(+0.0, -0.0)] is [-0.0]. *)
Definition maximum (a b : f64) : f64 := if ltb b a || isnan a then a else b.

(** [numpy.minimum] on two scalars: the first operand is kept when it is
    not above the second or when it is NaN, so a NaN on either side comes
    out. *)
Definition minimum (a b : f64) : f64 := if leb a b || isnan a then a else b.

(** Unary minus on an array. *)
Definition negative (a : arr2) : arr2 := map2 neg a.

Definition maximum2 : arr2 -> arr2 -> result arr2 := ew2 maximum.

(** [numpy.max] of a whole array: the reduction of [maximum] over the
    elements in row-major order; an empty array has no maximum. *)
Definition max (a : arr2) : result f64 :=
  match List.concat a with
  | [] => Raise (ValueError "zero-size array to reduction operation maximum which has no identity")
  | x :: l => Ok (fold_left maximum l x)
  end.

(** [numpy.nan_to_num(x, copy, nan, posinf, neginf)] on a scalar: NaN
    becomes [nan], the infinities become [posinf] and [neginf], which
    default to the largest and the smallest finite number. *)
Definition nan_to_num (x : f64) (copy : bool) (nan : f64)
    (posinf neginf : option f64) : f64 :=
  match x with
  | S754_nan => nan
  | S754_infinity false =>
      match posinf with Some v => v | None => max_float end
  | S754_infinity true =>
      match neginf with Some v => v | None => neg max_float end
  | _ => x
  end.

(** The backends the orchestrators run on.  [nan_to_num] of CuPy before
    release 10 takes no replacement values and answers the call of
    [prepare_rhs] with a [TypeError] (issue cupy/cupy#5866, quoted in the
    source). *)
Inductive backend : Type := NumPy | CuPy9.

Definition backend_nan_to_num (b : backend) (x : f64) (copy : bool) (nan : f64)
    (posinf neginf : option f64) : result f64 :=
  match b with
  | NumPy => Ok (nan_to_num x copy nan posinf neginf)
  | CuPy9 => Raise (TypeError "Wrong number of arguments for cupy_nan_to_num")
  end.

End NP.

(* ===================================================================== *)
(** * Calls and their order *)
(* ===================================================================== *)

(** The steps of one right-hand-side evaluation.  A run of [prepare_rhs]
  records each step as it starts it; sources are numbered by their
  position in [runtime.sources] and [runtime.stiff_sources]. *)
Inductive stage : Type :=
| StReconstruct
| StLocalSpeed
| StDiscontinuousFlux
| StCentralScheme
| StDivergence
| StSource (i : nat)
| StStiffSource (i : nat)
| StCflDt.

(** Computations that may raise and that append to the record of steps. *)
Definition M (A : Type) : Type := list stage -> result A * list stage.

Definition ret {A} (a : A) : M A := fun log => (Ok a, log).

Definition bind {A B} (m : M A) (k : A -> M B) : M B :=
  fun log =>
  match m log with
  | (Ok a, log') => k a log'
  | (Raise e, log') => (Raise e, log')
  end.

Definition lift {A} (r : result A) : M A := fun log => (r, log).

Definition tick (s : stage) : M unit := fun log => (Ok tt, log ++ [s]).

Definition run {A} (m : M A) : result A * list stage := m [].

Declare Scope m_scope.
Delimit Scope m_scope with M.
Notation "x <- c1 ;; c2" := (bind c1 (fun x => c2))
  (at level 61, c1 at next level, right associativity) : m_scope.
Notation "c1 ;;; c2" := (bind c1 (fun _ => c2))
  (at level 61, right associativity) : m_scope.

(** A call of a kernel or of a source term: the step is recorded, then the
  callee returns the new state or raises. *)
Definition call {A} (s : stage) (r : result A) : M A :=
  (tick s ;;; lift r)%M.

(** [sub in str] of Python, on strings. *)
Fixpoint contains (sub str : string) : bool :=
  if String.prefix sub str then true
  else match str with
     | EmptyString => false
     | String _ rest => contains sub rest
     end.

(** Python's built-in [min(a, b)]: the first argument stays unless the
  second compares strictly smaller. *)
Definition py_min (a b : f64) : f64 := if ltb b a then b else a.

(** The order section 4.7 of the specification fixes: the four kernels and
  the divergence, then the explicit sources, then the stiff sources. *)
Definition kernel_stages : list stage :=
  [StReconstruct; StLocalSpeed; StDiscontinuousFlux; StCentralScheme; StDivergence].

Definition source_stages (n : nat) : list stage := map StSource (seq 0 n).

Definition stiff_stages (n : nat) : list stage := map StStiffSource (seq 0 n).

(* ===================================================================== *)
(** * [torchswe/core/fvm.py] *)
(* ===================================================================== *)

Module CoreFvm.

(** [states.face.<axis>.plus.a], [.minus.a] and [.H]. *)
Record Face : Type := {
  plus_a : NP.arr2;
  minus_a : NP.arr2;
  H : NP.arr3
}.

Section WithKernels.

(** Everything of a [States] object that only the kernels and the source
    terms read and write (cell averages, reconstructed values, one-sided
    fluxes, topography). *)
Variable Other : Type.

Record States : Type := {
  domain_x_delta : f64;
  domain_y_delta : f64;
  face_x : Face;
  face_y : Face;
  st_S : NP.arr3;
  other : Other
}.

Definition set_S (states : States) (v : NP.arr3) : States :=
  {| domain_x_delta := domain_x_delta states;
     domain_y_delta := domain_y_delta states;
     face_x := face_x states;
     face_y := face_y states;
     st_S := v;
     other := other states |}.

(** [runtime] (a [DummyDict]) and [config] are declared outside the
    embedded files; the attributes [prepare_rhs] reads are taken as
    projections. *)
Variables Runtime Config : Type.

Definition source : Type := States -> Runtime -> Config -> result States.

Variable runtime_sources : Runtime -> list source.
Variable runtime_tol : Runtime -> f64.
Variable runtime_dt : Runtime -> f64.
Variable config_params_gravity : Config -> f64.

(** The kernels of [torchswe.core]. *)
Variable reconstruct : States -> Runtime -> Config -> result States.
Variable get_local_speed : States -> f64 -> result States.
Variable get_discontinuous_flux : States -> f64 -> result States.
Variable central_scheme : States -> f64 -> result States.

Variable nplike : NP.backend.

(** [(Hx[:, :, :-1] - Hx[:, :, 1:]) / dx + (Hy[:, :-1, :] - Hy[:, 1:, :]) / dy] *)
Definition divergence (Hx Hy : NP.arr3) (dx dy : f64) : result NP.arr3 :=
  rbind (NP.ew3 sub (NP.drop_last_x Hx) (NP.drop_first_x Hx)) (fun ddx =>
  rbind (NP.ew3 sub (NP.drop_last_y Hy) (NP.drop_first_y Hy)) (fun ddy =>
  NP.ew3 add (NP.map3 (fun v => div v dx) ddx) (NP.map3 (fun v => div v dy) ddy))).

(** [for func in funcs: states = func(states, runtime, config)], the
    [i]-th call recorded as [tag i]. *)
Fixpoint run_sources (tag : nat -> stage) (funcs : list source) (i : nat)
    (states : States) (runtime : Runtime) (config : Config) : M States :=
  match funcs with
  | [] => ret states
  | func :: rest =>
      (states <- call (tag i) (func states runtime config) ;;
       run_sources tag rest (Datatypes.S i) states runtime config)%M
  end.

(** [_nplike.max(_nplike.maximum(f.plus.a, -f.minus.a))] *)
Definition max_speed (f : Face) : result f64 :=
  rbind (NP.maximum2 (plus_a f) (NP.negative (minus_a f))) NP.max.

(** The replacement of an infinite [max_dt]: [nan_to_num] where the
    backend takes the arguments, the comparison with [inf] where it
    answers with the [TypeError] of the old CuPy. *)
Definition cap_dt (max_dt dt : f64) : result f64 :=
  match NP.backend_nan_to_num nplike max_dt false nan (Some dt) None with
  | Ok v => Ok v
  | Raise (TypeError msg) =>
      if contains "Wrong number of arguments" msg
      then Ok (if eqb max_dt pinf then dt else max_dt)
      else Raise (TypeError msg)
  | Raise e => Raise e
  end.

Definition prepare_rhs (states : States) (runtime : Runtime) (config : Config)
  : M (States * f64) :=
  (states <- call StReconstruct (reconstruct states runtime config) ;;
   states <- call StLocalSpeed
               (get_local_speed states (config_params_gravity config)) ;;
   states <- call StDiscontinuousFlux
               (get_discontinuous_flux states (config_params_gravity config)) ;;
   states <- call StCentralScheme (central_scheme states (runtime_tol runtime)) ;;
   let dx := domain_x_delta states in
   let dy := domain_y_delta states in
   S' <- call StDivergence
           (divergence (H (face_x states)) (H (face_y states)) dx dy) ;;
   let states := set_S states S' in
   states <- run_sources StSource (runtime_sources runtime) 0 states runtime config ;;
   tick StCflDt ;;;
   amax <- lift (max_speed (face_x states)) ;;
   bmax <- lift (max_speed (face_y states)) ;;
   let max_dt := py_min (div (mul quarter dx) amax) (div (mul quarter dy) bmax) in
   max_dt <- lift (cap_dt max_dt (runtime_dt runtime)) ;;
   ret (states, max_dt))%M.

(** The loop over the sources without the record of calls. *)
Fixpoint apply_sources (funcs : list source) (states : States)
    (runtime : Runtime) (config : Config) : result States :=
  match funcs with
  | [] => Ok states
  | func :: rest =>
      rbind (func states runtime config) (fun states =>
      apply_sources rest states runtime config)
  end.

(** The state the four kernels leave, without the record of calls. *)
Definition after_kernels (states : States) (runtime : Runtime) (config : Config)
  : result States :=
  rbind (reconstruct states runtime config) (fun states =>
  rbind (get_local_speed states (config_params_gravity config)) (fun states =>
  rbind (get_discontinuous_flux states (config_params_gravity config)) (fun states =>
  central_scheme states (runtime_tol runtime)))).

End WithKernels.

End CoreFvm.

(* ===================================================================== *)
(** * [torchswe/fvm.py] *)
(* ===================================================================== *)

Module Fvm.

(** [states.face.<axis>.plus.a], [.minus.a] and [.cf]. *)
Record Face : Type := {
  plus_a : NP.arr2;
  minus_a : NP.arr2;
  cf : NP.arr3
}.

Section WithKernels.

Variable Other : Type.

(** [domain.delta] and [domain.delta_array] both unpack as [dy, dx]; the
    second holds the two spacings as backend scalars. *)
Record States : Type := {
  domain_delta : f64 * f64;
  domain_delta_array : f64 * f64;
  face_x : Face;
  face_y : Face;
  st_s : NP.arr3;
  other : Other
}.

Definition set_s (states : States) (v : NP.arr3) : States :=
  {| domain_delta := domain_delta states;
     domain_delta_array := domain_delta_array states;
     face_x := face_x states;
     face_y := face_y states;
     st_s := v;
     other := other states |}.

Variables Runtime Config : Type.

Definition source : Type := States -> Runtime -> Config -> result States.

Variable runtime_sources : Runtime -> list source.
Variable runtime_stiff_sources : Runtime -> list source.
Variable config_params_allow_async : Config -> bool.
Variable config_temporal_dt : Config -> f64.

(** The kernels of [torchswe.kernels]. *)
Variable reconstruct : States -> Runtime -> Config -> result States.
Variable get_local_speed : States -> result States.
Variable get_discontinuous_flux : States -> result States.
Variable central_scheme : States -> result States.

(** [(cfx[:, :, :-1] - cfx[:, :, 1:]) / dx + (cfy[:, :-1, :] - cfy[:, 1:, :]) / dy] *)
Definition divergence (cfx cfy : NP.arr3) (dx dy : f64) : result NP.arr3 :=
  rbind (NP.ew3 sub (NP.drop_last_x cfx) (NP.drop_first_x cfx)) (fun ddx =>
  rbind (NP.ew3 sub (NP.drop_last_y cfy) (NP.drop_first_y cfy)) (fun ddy =>
  NP.ew3 add (NP.map3 (fun v => div v dx) ddx) (NP.map3 (fun v => div v dy) ddy))).

Fixpoint run_sources (tag : nat -> stage) (funcs : list source) (i : nat)
    (states : States) (runtime : Runtime) (config : Config) : M States :=
  match funcs with
  | [] => ret states
  | func :: rest =>
      (states <- call (tag i) (func states runtime config) ;;
       run_sources tag rest (Datatypes.S i) states runtime config)%M
  end.

(** [_nplike.max(_nplike.maximum(f.plus.a, -f.minus.a))] *)
Definition max_speed (f : Face) : result f64 :=
  rbind (NP.maximum2 (plus_a f) (NP.negative (minus_a f))) NP.max.

Definition prepare_rhs (states : States) (runtime : Runtime) (config : Config)
  : M (States * f64) :=
  (states <- call StReconstruct (reconstruct states runtime config) ;;
   states <- call StLocalSpeed (get_local_speed states) ;;
   states <- call StDiscontinuousFlux (get_discontinuous_flux states) ;;
   states <- call StCentralScheme (central_scheme states) ;;
   let '(dy, dx) :=
     if negb (config_params_allow_async config)
     then domain_delta states
     else domain_delta_array states in
   s' <- call StDivergence
           (divergence (cf (face_x states)) (cf (face_y states)) dx dy) ;;
   let states := set_s states s' in
   states <- run_sources StSource (runtime_sources runtime) 0 states runtime config ;;
   states <- run_sources StStiffSource (runtime_stiff_sources runtime) 0
               states runtime config ;;
   if negb (config_params_allow_async config) then
     tick StCflDt ;;;
     amax <- lift (max_speed (face_x states)) ;;
     bmax <- lift (max_speed (face_y states)) ;;
     let max_dt := NP.minimum (div dx amax) (div dy bmax) in
     ret (states, max_dt)
   else
     let max_dt := config_temporal_dt config in
     ret (states, max_dt))%M.

(** The loop over the sources without the record of calls. *)
Fixpoint apply_sources (funcs : list source) (states : States)
    (runtime : Runtime) (config : Config) : result States :=
  match funcs with
  | [] => Ok states
  | func :: rest =>
      rbind (func states runtime config) (fun states =>
      apply_sources rest states runtime config)
  end.

(** The state the four kernels leave, without the record of calls. *)
Definition after_kernels (states : States) (runtime : Runtime) (config : Config)
  : result States :=
  rbind (reconstruct states runtime config) (fun states =>
  rbind (get_local_speed states) (fun states =>
  rbind (get_discontinuous_flux states) (fun states =>
  central_scheme states))).

(** [dy, dx] as [prepare_rhs] unpacks them. *)
Definition spacing (states : States) (config : Config) : f64 * f64 :=
  if negb (config_params_allow_async config)
  then domain_delta states
  else domain_delta_array states.

(** What a returning run leaves behind, apart from the time step: the
    kernels, the divergence and the two lists of sources, in that order. *)
Definition staged (st : States) (rt : Runtime) (cfg : Config)
    (st4 st5 st' : States) (s' : NP.arr3) : Prop :=
  after_kernels st rt cfg = Ok st4 /\
  divergence (cf (face_x st4)) (cf (face_y st4))
    (snd (spacing st4 cfg)) (fst (spacing st4 cfg)) = Ok s' /\
  apply_sources (runtime_sources rt) (set_s st4 s') rt cfg = Ok st5 /\
  apply_sources (runtime_stiff_sources rt) st5 rt cfg = Ok st'.

(** The steps of a run up to the last stiff source. *)
Definition sources_log (rt : Runtime) : list stage :=
  kernel_stages ++ source_stages (length (runtime_sources rt))
  ++ stiff_stages (length (runtime_stiff_sources rt)).

End WithKernels.

End Fvm.

(* ===================================================================== *)
(** * The central-upwind flux (absent kernel) *)
(* ===================================================================== *)

Module Kernels.

(** The three conservative components (w, hu, hv) at one face. *)
Record vec3 : Type := { c_w : f64; c_hu : f64; c_hv : f64 }.

Definition vmap4 (f : f64 -> f64 -> f64 -> f64 -> f64) (a b c d : vec3) : vec3 :=
  {| c_w := f (c_w a) (c_w b) (c_w c) (c_w d);
     c_hu := f (c_hu a) (c_hu b) (c_hu c) (c_hu d);
     c_hv := f (c_hv a) (c_hv b) (c_hv c) (c_hv d) |}.

Definition vmap2 (f : f64 -> f64 -> f64) (a b : vec3) : vec3 :=
  {| c_w := f (c_w a) (c_w b);
     c_hu := f (c_hu a) (c_hu b);
     c_hv := f (c_hv a) (c_hv b) |}.

Definition vfinite (a : vec3) : bool :=
  is_finite (c_w a) && is_finite (c_hu a) && is_finite (c_hv a).

Definition vnan (a : vec3) : bool :=
  isnan (c_w a) || isnan (c_hu a) || isnan (c_hv a).

(** What the central-scheme stage reads at one face: the one-sided speeds,
    the one-sided fluxes and the one-sided conservative states. *)
Record face_data : Type := {
  a_plus : f64;
  a_minus : f64;
  F_minus : vec3;
  F_plus : vec3;
  Q_minus : vec3;
  Q_plus : vec3
}.

(** The arithmetic mean of the two one-sided fluxes. *)
Definition mean_flux (f_minus f_plus : f64) : f64 := div (add f_minus f_plus) two.

(** Modelled from the spec: the kernel [central_scheme] of
    [torchswe.core.flux] / [torchswe.kernels] is not among the embedded
    files.  Section 4.4 gives it as
    [H = (a+ F- - a- F+) / (a+ - a-) + (a+ a-) / (a+ - a-) (q+ - q-)],
    with the arithmetic mean of the one-sided fluxes wherever [a+ - a-] is
    smaller than the configured tolerance. *)
Definition central_flux (tol ap am fm fp qm qp : f64) : f64 :=
  let denominator := sub ap am in
  if ltb denominator tol then mean_flux fm fp
  else add (div (sub (mul ap fm) (mul am fp)) denominator)
           (mul (div (mul ap am) denominator) (sub qp qm)).

Definition central_scheme_face (tol : f64) (fd : face_data) : vec3 :=
  vmap4 (central_flux tol (a_plus fd) (a_minus fd))
        (F_minus fd) (F_plus fd) (Q_minus fd) (Q_plus fd).

(** The stage over all faces of one axis. *)
Definition central_scheme (tol : f64) (faces : list face_data) : list vec3 :=
  map (central_scheme_face tol) faces.

End Kernels.

(* ===================================================================== *)
(** * [torchswe/bcs/__init__.py] *)
(* ===================================================================== *)

Module BCs.

Inductive orientation : Type := west | east | south | north.

Definition orientation_eqb (a b : orientation) : bool :=
  match a, b with
  | west, west | east, east | south, south | north, north => true
  | _, _ => false
  end.

Definition orientations : list orientation := [west; east; south; north].

(** An entry of [bc.values]: a number or [None]. *)
Definition bcv : Type := option f64.

(** The boundary conditions of one edge: a policy string and a value for
    each component. *)
Record SingleBCConfig : Type := {
  types : list string;
  values : list bcv
}.

Record BCConfig : Type := {
  bc_west : SingleBCConfig;
  bc_east : SingleBCConfig;
  bc_south : SingleBCConfig;
  bc_north : SingleBCConfig
}.

(** [bcs[ornt]], as the [_itemgetter] over the four orientations reads it. *)
Definition itemgetter (bcs : BCConfig) (ornt : orientation) : SingleBCConfig :=
  match ornt with
  | west => bc_west bcs
  | east => bc_east bcs
  | south => bc_south bcs
  | north => bc_north bcs
  end.

(** The pairs the loops run over: each orientation zipped with its entry of
    [bcs], in the order west, east, south, north. *)
Definition edges (bcs : BCConfig) : list (orientation * SingleBCConfig) :=
  combine orientations (map (itemgetter bcs) orientations).

(** The closures the factories return, kept as the factory call that made
    them: the edge, the component ([-1] for all components at once) and,
    for [const] and [inflow], the value.  The [States] and [Topography]
    objects a closure captures are those handed to the setup function. *)
Inductive bc_func : Type :=
| outflow_bc_factory (ornt : orientation) (components : Z)
| linear_extrap_bc_factory (ornt : orientation) (components : Z)
| const_val_bc_factory (ornt : orientation) (components : Z) (v : bcv)
| inflow_bc_factory (ornt : orientation) (components : Z) (v : bcv).

Definition func_ornt (f : bc_func) : orientation :=
  match f with
  | outflow_bc_factory o _ | linear_extrap_bc_factory o _
  | const_val_bc_factory o _ _ | inflow_bc_factory o _ _ => o
  end.

Definition func_components (f : bc_func) : Z :=
  match f with
  | outflow_bc_factory _ c | linear_extrap_bc_factory _ c
  | const_val_bc_factory _ c _ | inflow_bc_factory _ c _ => c
  end.

(** The function a setup returns: [updater], with its attribute [funcs]. *)
Record updater : Type := { funcs : list bc_func }.

(** Equality of two entries of [bc.values] as a Python [set] sees it:
    [None] equals [None], numbers compare as floats (so [0.0 == -0.0], and a
    NaN equals nothing). *)
Definition bcv_eqb (a b : bcv) : bool :=
  match a, b with
  | None, None => true
  | Some x, Some y => eqb x y
  | _, _ => false
  end.

(** [len(set(l))]: the number of elements of [l] that are pairwise
    different. *)
Fixpoint set_len {A} (eq : A -> A -> bool) (l : list A) : nat :=
  match l with
  | [] => 0
  | x :: l' => if existsb (eq x) l' then set_len eq l' else S (set_len eq l')
  end.

(** The four policies [get_ghost_cell_updaters] dispatches on. *)
Definition dispatched (t : string) : bool :=
  String.eqb t "outflow" || String.eqb t "extrap"
  || String.eqb t "const" || String.eqb t "inflow".

(** ** The factories the module imports *)

(** [os.environ] *)
Definition environ : Type := string -> option string.

(** [name in os.environ] and [name in os.environ and os.environ[name] == "1"] *)
Definition is_set (env : environ) (name : string) : bool :=
  match env name with Some _ => true | None => false end.

Definition is_one (env : environ) (name : string) : bool :=
  match env name with Some v => String.eqb v "1" | None => false end.

(** The three implementations of the factories. *)
Inductive implementation : Type := cupy | cunumeric | cython.

(** The [if]/[elif]/[else] around the imports. *)
Definition select (env : environ) : implementation :=
  if is_one env "USE_CUPY" then cupy
  else if (is_set env "LEGATE_MAX_DIM" && is_set env "LEGATE_MAX_FIELDS")
          || is_one env "USE_TORCH" then cunumeric
  else cython.

(** The names each branch binds in the module: all four factories, but
    only the linear-extrapolation and the constant-value one in the Legate
    or Torch branch. *)
Definition imported (b : implementation) (name : string) : bool :=
  match b with
  | cunumeric =>
      String.eqb name "linear_extrap_bc_factory" || String.eqb name "const_val_bc_factory"
  | cupy | cython =>
      String.eqb name "outflow_bc_factory" || String.eqb name "linear_extrap_bc_factory"
      || String.eqb name "const_val_bc_factory" || String.eqb name "inflow_bc_factory"
  end.

(** What Python raises at a global name the module never bound. *)
Definition name_error (name : string) : exn :=
  OtherError ("NameError: name '" ++ name ++ "' is not defined").

(** A call of the factory [name], whose closure is [f] when the name is
    bound. *)
Definition factory (b : implementation) (name : string) (f : bc_func) : result bc_func :=
  if imported b name then Ok f else Raise (name_error name).

(** The policies whose factory is bound. *)
Definition accepted (b : implementation) (t : string) : bool :=
  (String.eqb t "outflow" && imported b "outflow_bc_factory")
  || (String.eqb t "extrap" && imported b "linear_extrap_bc_factory")
  || (String.eqb t "const" && imported b "const_val_bc_factory")
  || (String.eqb t "inflow" && imported b "inflow_bc_factory").

Section Setup.

Variables States Topography : Type.

(** [bcs.check()] and [states.check()]: validations of the data classes,
    declared outside the embedded files. *)
Variable bcs_check : BCConfig -> result unit.
Variable states_check : States -> result unit.

(** The branch of the imports the environment selected. *)
Variable b : implementation.

(** ** [get_ghost_cell_updaters] *)

(** The chain of [if]/[elif] on [bctp] for component [i] of edge [ornt];
    each branch calls its factory by name. *)
Definition dispatch (ornt : orientation) (i : nat) (bctp : string) (v : bcv)
  : result bc_func :=
  if String.eqb bctp "outflow"
  then factory b "outflow_bc_factory" (outflow_bc_factory ornt (Z.of_nat i))
  else if String.eqb bctp "extrap"
  then factory b "linear_extrap_bc_factory" (linear_extrap_bc_factory ornt (Z.of_nat i))
  else if String.eqb bctp "const"
  then factory b "const_val_bc_factory" (const_val_bc_factory ornt (Z.of_nat i) v)
  else if String.eqb bctp "inflow"
  then factory b "inflow_bc_factory" (inflow_bc_factory ornt (Z.of_nat i) v)
  else Raise (ValueError (bctp ++ " is not recognized.")).

(** [for i, (bctp, bcv) in enumerate(zip(bc.types, bc.values))], appending
    to [funcs]. *)
Fixpoint component_loop (ornt : orientation) (i : nat) (tv : list (string * bcv))
    (funcs : list bc_func) : result (list bc_func) :=
  match tv with
  | [] => Ok funcs
  | (bctp, v) :: rest =>
      rbind (dispatch ornt i bctp v) (fun f =>
      component_loop ornt (S i) rest (funcs ++ [f]))
  end.

(** The body of the loop over the edges. *)
Definition edge_body (ornt : orientation) (bc : SingleBCConfig)
    (funcs : list bc_func) : result (list bc_func) :=
  match types bc with
  | [] => Raise IndexError
  | t0 :: _ =>
      if String.eqb t0 "periodic" then Ok funcs
      else component_loop ornt 0 (combine (types bc) (values bc)) funcs
  end.

Fixpoint edge_loop (es : list (orientation * SingleBCConfig))
    (funcs : list bc_func) : result (list bc_func) :=
  match es with
  | [] => Ok funcs
  | (ornt, bc) :: rest =>
      rbind (edge_body ornt bc funcs) (edge_loop rest)
  end.

Definition get_ghost_cell_updaters (states : States) (topo : Topography)
    (bcs : BCConfig) : result updater :=
  rbind (bcs_check bcs) (fun _ =>
  rbind (edge_loop (edges bcs) []) (fun funcs =>
  rbind (states_check states) (fun _ =>
  Ok {| funcs := funcs |}))).

(** ** [init_bc] and [setup_bc] *)

(** [config.bc] and [config.params.vectorize_bc]. *)
Record Config : Type := {
  config_bc : BCConfig;
  config_params_vectorize_bc : bool
}.

Definition unsupported_message : string := "ERROR: Unsupported boundary condition.".

(** [bc_helper], on the list [funcs] it appends to and on the lines it
    prints.  The two factories it calls are bound in every branch of the
    imports. *)
Definition bc_helper (ornt : orientation) (bctp : string) (v : bcv) (components : Z)
    (acc : list bc_func * list string) : list bc_func * list string :=
  let (funcs, printed) := acc in
  if String.eqb bctp "extrap"
  then (funcs ++ [linear_extrap_bc_factory ornt components], printed)
  else if String.eqb bctp "const"
  then (funcs ++ [const_val_bc_factory ornt components v], printed)
  else (funcs, printed ++ [unsupported_message]).

(** The closure [bc_helper] appends for a policy, if it appends one. *)
Definition installed (ornt : orientation) (bctp : string) (v : bcv) (components : Z)
  : option bc_func :=
  if String.eqb bctp "extrap" then Some (linear_extrap_bc_factory ornt components)
  else if String.eqb bctp "const" then Some (const_val_bc_factory ornt components v)
  else None.

Fixpoint helper_loop (ornt : orientation) (component : nat) (tv : list (string * bcv))
    (acc : list bc_func * list string) : list bc_func * list string :=
  match tv with
  | [] => acc
  | (bctp, v) :: rest =>
      helper_loop ornt (S component) rest
        (bc_helper ornt bctp v (Z.of_nat component) acc)
  end.

(** The body of the loop over the edges in [init_bc]. *)
Definition init_edge (vectorize_bc : bool) (ornt : orientation) (bc : SingleBCConfig)
    (acc : list bc_func * list string) : result (list bc_func * list string) :=
  if vectorize_bc
     && Nat.eqb (set_len String.eqb (types bc)) 1
     && Nat.eqb (set_len bcv_eqb (values bc)) 1
  then
    match types bc, values bc with
    | t0 :: _, v0 :: _ => Ok (bc_helper ornt t0 v0 (-1) acc)
    | _, _ => Raise IndexError
    end
  else Ok (helper_loop ornt 0 (combine (types bc) (values bc)) acc).

Fixpoint init_loop (vectorize_bc : bool) (es : list (orientation * SingleBCConfig))
    (acc : list bc_func * list string) : result (list bc_func * list string) :=
  match es with
  | [] => Ok acc
  | (ornt, bc) :: rest =>
      rbind (init_edge vectorize_bc ornt bc acc) (init_loop vectorize_bc rest)
  end.

(** [init_bc] returns [funcs]; the second component is what it printed. *)
Definition init_bc (states : States) (topo : Topography) (config : Config)
  : result (list bc_func * list string) :=
  init_loop (config_params_vectorize_bc config) (edges (config_bc config)) ([], []).

Definition setup_bc (states : States) (topo : Topography) (config : Config)
  : result (updater * list string) :=
  rbind (init_bc states topo config) (fun r =>
  Ok ({| funcs := fst r |}, snd r)).

(** ** Calling the updater *)

(** What one closure does to the [States] object it captured. *)
Variable exec : bc_func -> States -> States.

(** [updater(soln)]: every installed function runs once, in order, on the
    captured object, which is the object the caller passes and gets
    back. *)
Definition call_updater (u : updater) (soln : States) : States :=
  fold_left (fun s f => exec f s) (funcs u) soln.

End Setup.

End BCs.

(* ===================================================================== *)
(** * Ghost margins (absent factories) *)
(* ===================================================================== *)

Module GhostModel.

Import BCs.

(** One conservative component on the grid: the cells inside the domain
    and, for each edge, the ghost margin along it. *)
Record component : Type := {
  interior : NP.arr2;
  ghost_west : NP.arr2;
  ghost_east : NP.arr2;
  ghost_south : NP.arr2;
  ghost_north : NP.arr2
}.

(** The conservative variables (w, hu, hv) with their ghost margins. *)
Definition States : Type := list component.

Definition margin (o : orientation) (c : component) : NP.arr2 :=
  match o with
  | west => ghost_west c
  | east => ghost_east c
  | south => ghost_south c
  | north => ghost_north c
  end.

Definition set_margin (o : orientation) (m : NP.arr2) (c : component) : component :=
  match o with
  | west => {| interior := interior c; ghost_west := m; ghost_east := ghost_east c;
               ghost_south := ghost_south c; ghost_north := ghost_north c |}
  | east => {| interior := interior c; ghost_west := ghost_west c; ghost_east := m;
               ghost_south := ghost_south c; ghost_north := ghost_north c |}
  | south => {| interior := interior c; ghost_west := ghost_west c;
                ghost_east := ghost_east c; ghost_south := m;
                ghost_north := ghost_north c |}
  | north => {| interior := interior c; ghost_west := ghost_west c;
                ghost_east := ghost_east c; ghost_south := ghost_south c;
                ghost_north := m |}
  end.

(** The ghost margin of an edge, over all components. *)
Definition ghost (o : orientation) (Q : States) : list NP.arr2 := map (margin o) Q.

Fixpoint imap_from {A} (f : nat -> A -> A) (i : nat) (l : list A) : list A :=
  match l with
  | [] => []
  | x :: l' => f i x :: imap_from f (S i) l'
  end.

Fixpoint update_at {A} (f : A -> A) (k : nat) (l : list A) {struct l} : list A :=
  match l, k with
  | [], _ => []
  | x :: l', O => f x :: l'
  | x :: l', S k' => x :: update_at f k' l'
  end.

Section Rules.

Variable Topography : Type.

(** The ghost values each policy of section 4.6 prescribes for one component
    at one edge, computed from the cells of that component, the topography
    and, for [const] and [inflow], the configured value. *)
Variable outflow_values : Topography -> orientation -> nat -> component -> NP.arr2.
Variable linear_extrap_values : Topography -> orientation -> nat -> component -> NP.arr2.
Variable const_values : Topography -> bcv -> orientation -> nat -> component -> NP.arr2.
Variable inflow_values : Topography -> bcv -> orientation -> nat -> component -> NP.arr2.

Definition values_of (topo : Topography) (f : bc_func) : nat -> component -> NP.arr2 :=
  match f with
  | outflow_bc_factory o _ => outflow_values topo o
  | linear_extrap_bc_factory o _ => linear_extrap_values topo o
  | const_val_bc_factory o _ v => const_values topo v o
  | inflow_bc_factory o _ v => inflow_values topo v o
  end.

(** The write of one closure into component [k]. *)
Definition write (topo : Topography) (f : bc_func) (k : nat) (c : component)
  : component :=
  set_margin (func_ornt f) (values_of topo f k c) c.

(** Modelled from the spec: the factories ([outflow_bc_factory],
    [linear_extrap_bc_factory], [const_val_bc_factory], [inflow_bc_factory])
    are compiled modules outside the embedded files.  By section 4.6 an
    update writes the ghost margin of its edge, for its component; the
    vectorized mode, which passes [-1] for the component, collapses all
    components of the edge into a single update. *)
Definition exec (topo : Topography) (f : bc_func) (Q : States) : States :=
  let c := func_components f in
  if (c =? -1)%Z then imap_from (write topo f) 0 Q
  else if (c <? 0)%Z then Q
  else update_at (write topo f (Z.to_nat c)) (Z.to_nat c) Q.

End Rules.

End GhostModel.

(* ===================================================================== *)
(** * The case-data generators *)
(* ===================================================================== *)

Module Cases.

(** [config.spatial]: the domain (west, east, south, north) and the number
    of cells along x and along y. *)
Record SpatialConfig : Type := {
  domain : f64 * f64 * f64 * f64;
  discretization : Z * Z
}.

Definition domain0 (c : SpatialConfig) : f64 := fst (fst (fst (domain c))).
Definition domain1 (c : SpatialConfig) : f64 := snd (fst (fst (domain c))).
Definition domain2 (c : SpatialConfig) : f64 := snd (fst (domain c)).
Definition domain3 (c : SpatialConfig) : f64 := snd (domain c).

(** A Python integer as a binary64 number, rounded to nearest even. *)
Definition of_int (z : Z) : f64 := binary_normalize prec emax z 0 false.

(** [numpy.sqrt] on binary64, correctly rounded. *)
Definition sqrt : f64 -> f64 := SFsqrt prec emax.

(** [v ** 2] on the entries of an array: the product of [v] with itself. *)
Definition square (v : f64) : f64 := mul v v.

(** [y[-1] = v] *)
Definition set_last (y : list f64) (v : f64) : list f64 :=
  match y with
  | [] => []
  | _ => removelast y ++ [v]
  end.

(** [numpy.arange(0, num)] as binary64 numbers. *)
Definition arange (num : Z) : list f64 :=
  map (fun i => of_int (Z.of_nat i)) (seq 0 (Z.to_nat num)).

(** [numpy.linspace(start, stop, num, dtype=numpy.float64)] with the end
    point included: the samples are [i * step + start] in binary64
    arithmetic, [i / div * delta + start] when the step rounds to zero, and
    the last one is overwritten with [stop]. *)
Definition linspace (start stop : f64) (num : Z) : result (list f64) :=
  if (num <? 0)%Z
  then Raise (ValueError "Number of samples must be non-negative.")
  else
    let div := (num - 1)%Z in
    let delta := sub stop start in
    let y := arange num in
    let y :=
      if (0 <? div)%Z then
        let step := F64.div delta (of_int div) in
        if eqb step (of_int 0)
        then map (fun v => mul (F64.div v (of_int div)) delta) y
        else map (fun v => mul v step) y
      else map (fun v => mul v delta) y in
    let y := map (fun v => add v start) y in
    Ok (if (1 <? num)%Z then set_last y stop else y).

(** The samples [linspace] computes before it overwrites the last one. *)
Definition samples (start stop : f64) (num : Z) : list f64 :=
  let div := (num - 1)%Z in
  let delta := sub stop start in
  map (fun v => add v start)
    (if (0 <? div)%Z then
       if eqb (F64.div delta (of_int div)) (of_int 0)
       then map (fun v => mul (F64.div v (of_int div)) delta) (arange num)
       else map (fun v => mul v (F64.div delta (of_int div))) (arange num)
     else map (fun v => mul v delta) (arange num)).

(** [numpy.meshgrid(x, y)] *)
Definition meshgrid {A} (x y : list A) : list (list A) * list (list A) :=
  (map (fun _ => x) y, map (fun yj => map (fun _ => yj) x) y).

(** [(x[:-1] + x[1:]) / 2.] *)
Definition centers (x : list f64) : list f64 :=
  map (fun p => F64.div (add (fst p) (snd p)) two) (combine (removelast x) (tl x)).

(** An elementwise function of two arrays of one shape. *)
Definition map2d {A B} (f : A -> A -> B) (X Y : list (list A)) : list (list B) :=
  map (fun rows => map (fun p => f (fst p) (snd p)) (combine (fst rows) (snd rows)))
      (combine X Y).

(** [numpy.tile(row, (n, 1))] *)
Definition tile {A} (row : list A) (n : Z) : result (list (list A)) :=
  if (n <? 0)%Z then Raise (ValueError "negative dimensions are not allowed")
  else Ok (repeat row (Z.to_nat n)).

(** The vertices and the cell centres both generators compute. *)
Record grid : Type := {
  g_x : list f64;
  g_y : list f64;
  g_xc : list f64;
  g_yc : list f64
}.

Definition make_grid (c : SpatialConfig) : result grid :=
  rbind (linspace (domain0 c) (domain1 c) (fst (discretization c) + 1)) (fun x =>
  rbind (linspace (domain2 c) (domain3 c) (snd (discretization c) + 1)) (fun y =>
  Ok {| g_x := x; g_y := y; g_xc := centers x; g_yc := centers y |})).


(** [a[j][i]] *)
Definition at2 {A} (a : list (list A)) (j i : nat) : option A :=
  match nth_error a j with
  | Some row => nth_error row i
  | None => None
  end.

(** ** [cases/delestre_et_al_2013/case_4.2.2b/create_data.py] *)

Module Delestre.

(** The default arguments 9.81, 0.1, 4., 1. and 0.5 as binary64 numbers. *)
Definition default_g : f64 := S754_finite false 5522539043063071 (-49).
Definition default_h0 : f64 := S754_finite false 7205759403792794 (-56).
Definition default_L : f64 := pow2 2.
Definition default_a : f64 := one.
Definition default_eta : f64 := half.

Definition topo (x y h0 L a : f64) : f64 :=
  let r := sqrt (add (square (sub x (div L two))) (square (sub y (div L two)))) in
  mul (neg h0) (sub one (square (div r a))).

(** [h[h < 0.] = 0.] at one point: a NaN stays. *)
Definition clip (h : f64) : f64 := if ltb h pzero then pzero else h.

(** [omega = numpy.sqrt(2.*h0*g) / a] *)
Definition omega (g h0 a : f64) : f64 := div (sqrt (mul (mul two h0) g)) a.

Section Library.

(** [numpy.cos] and [numpy.sin], which the platform's mathematical library
    computes. *)
Variables np_cos np_sin : f64 -> f64.



(** [exact_soln] at one point: (w, hu, hv). *)
Definition exact_soln_at (x y t g h0 L a eta : f64) : f64 * f64 * f64 :=
  let omega := omega g h0 a in
  let z := topo x y h0 L a in
  let cot := np_cos (mul omega t) in
  let sot := np_sin (mul omega t) in
  let h := sub (div (mul (mul eta h0)
                         (sub (add (mul (mul two (sub x (div L two))) cot)
                                   (mul (mul two (sub y (div L two))) sot))
                              eta))
                    (mul a a))
               z in
  let h := clip h in
  (add h z, mul (mul (mul (neg h) eta) omega) sot, mul (mul (mul h eta) omega) cot).

(** [exact_soln] on the arrays the generator passes. *)
Definition exact_soln (X Y : list (list f64)) (t g h0 L a eta : f64)
  : list (list (f64 * f64 * f64)) :=
  map2d (fun x y => exact_soln_at x y t g h0 L a eta) X Y.

(** What [main] hands to [write_cf]: the topography file (x, y and the
    elevation at the vertices) and the initial-condition file (xc, yc and
    w, hu, hv at the cell centres). *)
Record output : Type := {
  out_grid : grid;
  out_topo : list (list f64);
  out_ic : list (list (f64 * f64 * f64))
}.

Definition main (c : SpatialConfig) : result output :=
  rbind (make_grid c) (fun g =>
  let '(X, Y) := meshgrid (g_x g) (g_y g) in
  let '(Xc, Yc) := meshgrid (g_xc g) (g_yc g) in
  Ok {| out_grid := g;
        out_topo := map2d (fun x y => topo x y default_h0 default_L default_a) X Y;
        out_ic := exact_soln Xc Yc pzero default_g default_h0 default_L default_a
                    default_eta |}).

End Library.

End Delestre.

(** ** [cases/xing_shu_2005/case_5.3/create_data.py] *)

Module XingShu.

(** The literals 0.8, 0.9, 0.5, 5., 50., 0.05, 0.15 and 0.01 as binary64
    numbers. *)
Definition c0_8 : f64 := S754_finite false 7205759403792794 (-53).
Definition c0_9 : f64 := S754_finite false 8106479329266893 (-53).
Definition c0_5 : f64 := half.
Definition c5 : f64 := S754_finite false 5629499534213120 (-50).
Definition c50 : f64 := S754_finite false 7036874417766400 (-47).
Definition c0_05 : f64 := S754_finite false 7205759403792794 (-57).
Definition c0_15 : f64 := S754_finite false 5404319552844595 (-55).
Definition c0_01 : f64 := S754_finite false 5764607523034235 (-59).

(** [w = ones_like(xc); w[(xc >= 0.05) * (xc <= 0.15)] += 0.01] *)
Definition w_row (xc : list f64) : list f64 :=
  map (fun x => if geb x c0_05 && leb x c0_15 then add one c0_01 else one) xc.

Definition zeros_like (xc : list f64) : list f64 := map (fun _ => pzero) xc.

Section Library.

(** [numpy.exp] and [numpy.power], which the platform's mathematical
    library computes. *)
Variable np_exp : f64 -> f64.
Variable np_power : f64 -> f64 -> f64.

(** [0.8 * exp(-5. * power(X - 0.9, 2) - 50. * power(Y - 0.5, 2))] *)
Definition B (x y : f64) : f64 :=
  mul c0_8
      (np_exp (sub (mul (neg c5) (np_power (sub x c0_9) two))
                   (mul c50 (np_power (sub y c0_5) two)))).

Record output : Type := {
  out_grid : grid;
  out_topo : list (list f64);
  out_w : list (list f64);
  out_hu : list (list f64);
  out_hv : list (list f64)
}.

Definition main (c : SpatialConfig) : result output :=
  rbind (make_grid c) (fun g =>
  let '(X, Y) := meshgrid (g_x g) (g_y g) in
  rbind (tile (w_row (g_xc g)) (snd (discretization c))) (fun w =>
  rbind (tile (zeros_like (g_xc g)) (snd (discretization c))) (fun hu =>
  rbind (tile (zeros_like (g_xc g)) (snd (discretization c))) (fun hv =>
  Ok {| out_grid := g; out_topo := map2d B X Y;
        out_w := w; out_hu := hu; out_hv := hv |})))).

End Library.

End XingShu.

End Cases.

(* ===================================================================== *)
(** * Sample inputs *)
(* ===================================================================== *)

Module Examples.

(** A run-time context and a configuration with the attributes the
    orchestrators read. *)
Record runtime : Type := { tol : f64; dt : f64 }.
Record config : Type := { gravity : f64; allow_async : bool; temporal_dt : f64 }.

(** A grid of one cell with unit fluxes and no flow at all: every one-sided
    speed is zero. *)
Definition still_core_face : CoreFvm.Face :=
  {| CoreFvm.plus_a := [[pzero; pzero]];
     CoreFvm.minus_a := [[pzero; pzero]];
     CoreFvm.H := [[[one; one]]] |}.

Definition still_core_face_y : CoreFvm.Face :=
  {| CoreFvm.plus_a := [[pzero]; [pzero]];
     CoreFvm.minus_a := [[pzero]; [pzero]];
     CoreFvm.H := [[[one]; [one]]] |}.

Definition still_core : CoreFvm.States unit :=
  {| CoreFvm.domain_x_delta := one;
     CoreFvm.domain_y_delta := one;
     CoreFvm.face_x := still_core_face;
     CoreFvm.face_y := still_core_face_y;
     CoreFvm.st_S := [];
     CoreFvm.other := tt |}.

(** The same cell with the speeds of a flow along x: [a+ = 1] and [a- = -1]
    on the x faces, [a+ = 2] and [a- = -1] on the y faces. *)
Definition flow_core : CoreFvm.States unit :=
  {| CoreFvm.domain_x_delta := one;
     CoreFvm.domain_y_delta := one;
     CoreFvm.face_x :=
       {| CoreFvm.plus_a := [[one; one]];
          CoreFvm.minus_a := [[neg one; neg one]];
          CoreFvm.H := [[[two; one]]] |};
     CoreFvm.face_y :=
       {| CoreFvm.plus_a := [[two]; [one]];
          CoreFvm.minus_a := [[neg one]; [neg one]];
          CoreFvm.H := [[[one]; [one]]] |};
     CoreFvm.st_S := [];
     CoreFvm.other := tt |}.

(** The still cell with [a- = -0.0] on every face, so that [-a-] is [+0.0]
    and the maximum of [max(a+, -a-)] is [+0.0]. *)
Definition calm_core : CoreFvm.States unit :=
  {| CoreFvm.domain_x_delta := one;
     CoreFvm.domain_y_delta := one;
     CoreFvm.face_x :=
       {| CoreFvm.plus_a := [[pzero; pzero]];
          CoreFvm.minus_a := [[nzero; nzero]];
          CoreFvm.H := [[[one; one]]] |};
     CoreFvm.face_y :=
       {| CoreFvm.plus_a := [[pzero]; [pzero]];
          CoreFvm.minus_a := [[nzero]; [nzero]];
          CoreFvm.H := [[[one]; [one]]] |};
     CoreFvm.st_S := [];
     CoreFvm.other := tt |}.

Definition a_runtime : runtime := {| tol := pow2 (-20); dt := three |}.
Definition a_config : config :=
  {| gravity := one; allow_async := false; temporal_dt := three |}.
Definition an_async_config : config :=
  {| gravity := one; allow_async := true; temporal_dt := three |}.

(** Kernels that leave the state as it is, and a source term that doubles
    the right-hand side. *)
Definition core_kernel3 (s : CoreFvm.States unit) (_ : runtime) (_ : config)
  : result (CoreFvm.States unit) := Ok s.
Definition core_kernel2 (s : CoreFvm.States unit) (_ : f64)
  : result (CoreFvm.States unit) := Ok s.
Definition core_double_S : CoreFvm.source unit runtime config :=
  fun s _ _ => Ok (CoreFvm.set_S s (NP.map3 (fun v => add v v) (CoreFvm.st_S s))).

Definition core_prepare_rhs (b : NP.backend)
    (srcs : list (CoreFvm.source unit runtime config)) :=
  CoreFvm.prepare_rhs (fun _ => srcs) tol dt gravity
    core_kernel3 core_kernel2 core_kernel2 core_kernel2 b.

Definition still : Fvm.States unit :=
  {| Fvm.domain_delta := (one, one);
     Fvm.domain_delta_array := (one, one);
     Fvm.face_x :=
       {| Fvm.plus_a := [[pzero; pzero]];
          Fvm.minus_a := [[pzero; pzero]];
          Fvm.cf := [[[one; one]]] |};
     Fvm.face_y :=
       {| Fvm.plus_a := [[pzero]; [pzero]];
          Fvm.minus_a := [[pzero]; [pzero]];
          Fvm.cf := [[[one]; [one]]] |};
     Fvm.st_s := [];
     Fvm.other := tt |}.

Definition calm : Fvm.States unit :=
  {| Fvm.domain_delta := (one, one);
     Fvm.domain_delta_array := (one, one);
     Fvm.face_x :=
       {| Fvm.plus_a := [[pzero; pzero]];
          Fvm.minus_a := [[nzero; nzero]];
          Fvm.cf := [[[one; one]]] |};
     Fvm.face_y :=
       {| Fvm.plus_a := [[pzero]; [pzero]];
          Fvm.minus_a := [[nzero]; [nzero]];
          Fvm.cf := [[[one]; [one]]] |};
     Fvm.st_s := [];
     Fvm.other := tt |}.

Definition flow : Fvm.States unit :=
  {| Fvm.domain_delta := (one, one);
     Fvm.domain_delta_array := (one, one);
     Fvm.face_x :=
       {| Fvm.plus_a := [[one; one]];
          Fvm.minus_a := [[neg one; neg one]];
          Fvm.cf := [[[two; one]]] |};
     Fvm.face_y :=
       {| Fvm.plus_a := [[two]; [one]];
          Fvm.minus_a := [[neg one]; [neg one]];
          Fvm.cf := [[[one]; [one]]] |};
     Fvm.st_s := [];
     Fvm.other := tt |}.

Definition kernel3 (s : Fvm.States unit) (_ : runtime) (_ : config)
  : result (Fvm.States unit) := Ok s.
Definition kernel1 (s : Fvm.States unit) : result (Fvm.States unit) := Ok s.
Definition double_s : Fvm.source unit runtime config :=
  fun s _ _ => Ok (Fvm.set_s s (NP.map3 (fun v => add v v) (Fvm.st_s s))).

Definition fvm_prepare_rhs (srcs stiff : list (Fvm.source unit runtime config)) :=
  Fvm.prepare_rhs (fun _ => srcs) (fun _ => stiff) allow_async temporal_dt
    kernel3 kernel1 kernel1 kernel1.

(** What the sample runs return. *)
Definition flow_core_out : CoreFvm.States unit := CoreFvm.set_S flow_core [[[two]]].
Definition still_core_out : CoreFvm.States unit := CoreFvm.set_S still_core [[[pzero]]].
Definition flow_out : Fvm.States unit := Fvm.set_s flow [[[pow2 2]]].
Definition still_out : Fvm.States unit := Fvm.set_s still [[[pzero]]].
Definition calm_core_out : CoreFvm.States unit := CoreFvm.set_S calm_core [[[pzero]]].
Definition calm_out : Fvm.States unit := Fvm.set_s calm [[[pzero]]].

(** A face in still water (both one-sided speeds zero) and a face with
    [a+ = 1], [a- = -1]. *)
Definition still_face : Kernels.face_data :=
  {| Kernels.a_plus := pzero;
     Kernels.a_minus := pzero;
     Kernels.F_minus := {| Kernels.c_w := pzero; Kernels.c_hu := one; Kernels.c_hv := pzero |};
     Kernels.F_plus := {| Kernels.c_w := pzero; Kernels.c_hu := three; Kernels.c_hv := pzero |};
     Kernels.Q_minus := {| Kernels.c_w := one; Kernels.c_hu := pzero; Kernels.c_hv := pzero |};
     Kernels.Q_plus := {| Kernels.c_w := two; Kernels.c_hu := pzero; Kernels.c_hv := pzero |} |}.

Definition wet_face : Kernels.face_data :=
  {| Kernels.a_plus := one;
     Kernels.a_minus := neg one;
     Kernels.F_minus := {| Kernels.c_w := one; Kernels.c_hu := one; Kernels.c_hv := pzero |};
     Kernels.F_plus := {| Kernels.c_w := three; Kernels.c_hu := three; Kernels.c_hv := pzero |};
     Kernels.Q_minus := {| Kernels.c_w := one; Kernels.c_hu := pzero; Kernels.c_hv := pzero |};
     Kernels.Q_plus := {| Kernels.c_w := two; Kernels.c_hu := pzero; Kernels.c_hv := pzero |} |}.

(** Boundary conditions.  [sample_bcs] is periodic along x, outflow at the
    south edge and Dirichlet at the north edge; [mixed_bcs] declares
    [periodic] for the first component of the west edge only;
    [unknown_bcs] has a policy string outside the five known ones. *)
Definition edge3 (t : string) (v : BCs.bcv) : BCs.SingleBCConfig :=
  {| BCs.types := [t; t; t]; BCs.values := [v; v; v] |}.

Definition sample_bcs : BCs.BCConfig :=
  {| BCs.bc_west := edge3 "periodic"%string None;
     BCs.bc_east := edge3 "periodic"%string None;
     BCs.bc_south := edge3 "outflow"%string None;
     BCs.bc_north := edge3 "const"%string (Some one) |}.

Definition mixed_edge : BCs.SingleBCConfig :=
  {| BCs.types := ["periodic"; "bogus"; "const"]%string;
     BCs.values := [None; None; Some one] |}.

Definition mixed_bcs : BCs.BCConfig :=
  {| BCs.bc_west := mixed_edge;
     BCs.bc_east := edge3 "extrap"%string None;
     BCs.bc_south := edge3 "outflow"%string None;
     BCs.bc_north := edge3 "const"%string (Some one) |}.

Definition unknown_edge : BCs.SingleBCConfig :=
  {| BCs.types := ["bogus"; "extrap"; "const"]%string;
     BCs.values := [None; None; Some one] |}.

Definition unknown_bcs : BCs.BCConfig :=
  {| BCs.bc_west := unknown_edge;
     BCs.bc_east := edge3 "extrap"%string None;
     BCs.bc_south := edge3 "extrap"%string None;
     BCs.bc_north := edge3 "const"%string (Some one) |}.

Definition no_check {A} (_ : A) : result unit := Ok tt.

(** Ghost values in the spirit of the table of section 4.6, over a flat bed
    of elevation [topo]: the nearest interior cell for [outflow], the line
    through the two nearest interior cells for [extrap], the configured
    value for [const] (the surface elevation not below the bed) and for
    [inflow] (the first component given as a depth above the bed). *)
Definition of_nat (n : nat) : f64 := binary_normalize prec emax (Z.of_nat n) 0 false.

Definition imap2 (f : nat -> nat -> f64) (m : NP.arr2) : NP.arr2 :=
  GhostModel.imap_from
    (fun j row => GhostModel.imap_from (fun i _ => f j i) 0 row) 0 m.

(** The interior cell at distance [d] from the edge, facing the margin cell
    in row [a] and column [b], and the distance of that margin cell. *)
Definition facing (o : BCs.orientation) (c : GhostModel.component) (d a b : nat) : f64 :=
  let q := GhostModel.interior c in
  match o with
  | BCs.west => nth d (nth a q []) pzero
  | BCs.east => nth d (rev (nth a q [])) pzero
  | BCs.south => nth b (nth d q []) pzero
  | BCs.north => nth b (nth d (rev q) []) pzero
  end.

Definition distance (o : BCs.orientation) (a b : nat) : nat :=
  match o with
  | BCs.west | BCs.east => S b
  | BCs.south | BCs.north => S a
  end.

Definition sample_outflow (topo : f64) (o : BCs.orientation) (k : nat)
    (c : GhostModel.component) : NP.arr2 :=
  imap2 (fun a b => facing o c 0 a b) (GhostModel.margin o c).

Definition sample_extrap (topo : f64) (o : BCs.orientation) (k : nat)
    (c : GhostModel.component) : NP.arr2 :=
  imap2 (fun a b =>
           add (facing o c 0 a b)
               (mul (of_nat (distance o a b))
                    (sub (facing o c 0 a b) (facing o c 1 a b))))
        (GhostModel.margin o c).

Definition sample_const (topo : f64) (v : BCs.bcv) (o : BCs.orientation) (k : nat)
    (c : GhostModel.component) : NP.arr2 :=
  match v with
  | Some x =>
      imap2 (fun _ _ => if Nat.eqb k 0 then NP.maximum x topo else x)
            (GhostModel.margin o c)
  | None => GhostModel.margin o c
  end.

Definition sample_inflow (topo : f64) (v : BCs.bcv) (o : BCs.orientation) (k : nat)
    (c : GhostModel.component) : NP.arr2 :=
  match v with
  | Some x =>
      imap2 (fun _ _ => if Nat.eqb k 0 then add x topo else x)
            (GhostModel.margin o c)
  | None => GhostModel.margin o c
  end.

Definition sample_exec (topo : f64) : BCs.bc_func -> GhostModel.States -> GhostModel.States :=
  GhostModel.exec sample_outflow sample_extrap sample_const sample_inflow topo.

(** Three components on a grid of two by two cells with one layer of ghost
    cells. *)
Definition sample_component (a b c d : f64) : GhostModel.component :=
  {| GhostModel.interior := [[a; b]; [c; d]];
     GhostModel.ghost_west := [[pzero]; [pzero]];
     GhostModel.ghost_east := [[pzero]; [pzero]];
     GhostModel.ghost_south := [[pzero; pzero]];
     GhostModel.ghost_north := [[pzero; pzero]] |}.

Definition sample_Q : GhostModel.States :=
  [ sample_component one two three two;
    sample_component one one one one;
    sample_component pzero half half pzero ].

(** A domain of two by one cells for the generators, and one whose west
    bound is 1e16, where neighbouring binary64 numbers are 2 apart, with
    two cells between 1e16 and 1e16 + 2. *)
Definition unit_square : Cases.SpatialConfig :=
  {| Cases.domain := (pzero, one, pzero, two); Cases.discretization := (2, 1)%Z |}.




(** Functions to stand for [numpy.cos], [numpy.sin], [numpy.exp] and
    [numpy.power] in the samples: they hold the values of these functions
    at a zero argument ([cos 0 = 1], [sin 0 = 0], [exp 0 = 1]) and the
    square for the exponent 2, and NaN elsewhere. *)
Definition cos_at_zero (v : f64) : f64 := if is_zero v then one else nan.
Definition sin_at_zero (v : f64) : f64 := if is_zero v then v else nan.
Definition exp_at_zero (v : f64) : f64 := if is_zero v then one else nan.
Definition square_power (v e : f64) : f64 := if eqb e two then mul v v else nan.

End Examples.

(* ===================================================================== *)
(** * Shapes and entries of arrays *)
(* ===================================================================== *)

Module Arrays.

(** No NaN among the entries of a rank-2 array. *)
Definition no_nan (a : NP.arr2) : Prop :=
  Forall (Forall (fun v => isnan v = false)) a.

(** [a.shape == (k, m, n)] *)
Definition shape3 (a : NP.arr3) (k m n : nat) : Prop :=
  length a = k /\
  Forall (fun p => length p = m /\ Forall (fun r : NP.arr1 => length r = n) p) a.

(** [a.shape == (m, n)] for an array of any entries. *)
Definition shape2 {A} (a : list (list A)) (m n : nat) : Prop :=
  length a = m /\ Forall (fun r => length r = n) a.

(** [a[c, j, i]] *)
Definition at3 (a : NP.arr3) (c j i : nat) : f64 :=
  nth i (nth j (nth c a []) []) pzero.

(** The entries of two lists combined pairwise. *)
Definition zip_with {A B C} (g : A -> B -> C) (xs : list A) (ys : list B) : list C :=
  map (fun p => g (fst p) (snd p)) (combine xs ys).

End Arrays.

(* ===================================================================== *)
(** * What the two set-up functions read of one edge *)
(* ===================================================================== *)

Module Edges.

Import BCs.

(** [zip(bc.types, bc.values)] and its [enumerate]. *)
Definition pairs (bc : SingleBCConfig) : list (string * bcv) :=
  combine (types bc) (values bc).

Definition enumerate {A} (l : list A) : list (nat * A) :=
  combine (seq 0 (length l)) l.

(** [bc.types[0] == "periodic"], where there is a first policy. *)
Definition skipped (bc : SingleBCConfig) : bool :=
  match types bc with
  | t0 :: _ => String.eqb t0 "periodic"
  | [] => false
  end.

(** The edges [get_ghost_cell_updaters] gets through when [known] tells the
    policies its dispatch answers with a function: a first policy exists,
    and it is [periodic] or every zipped policy is a known one. *)
Definition edge_accepts (known : string -> bool) (bc : SingleBCConfig) : bool :=
  match types bc with
  | [] => false
  | t0 :: _ =>
      String.eqb t0 "periodic" || forallb (fun p => known (fst p)) (pairs bc)
  end.

(** The functions [get_ghost_cell_updaters] installs for one edge: none for
    a skipped edge, otherwise the result of the dispatch for every zipped
    pair, in order, with its index as the component. *)
Definition edge_installs (b : implementation) (o : orientation) (bc : SingleBCConfig)
    (fs : list bc_func) : Prop :=
  if skipped bc then fs = []
  else Forall2 (fun f p => dispatch b o (fst p) (fst (snd p)) (snd (snd p)) = Ok f)
         fs (enumerate (pairs bc)).

(** The number of calls of [bc_helper] for one edge. *)
Definition helper_calls (vectorize_bc : bool) (bc : SingleBCConfig) : nat :=
  if vectorize_bc
     && Nat.eqb (set_len String.eqb (types bc)) 1
     && Nat.eqb (set_len bcv_eqb (values bc)) 1
  then 1
  else length (pairs bc).

(** The closures of the two factories [init_bc] calls. *)
Definition extrap_or_const (f : bc_func) : bool :=
  match f with
  | linear_extrap_bc_factory _ _ | const_val_bc_factory _ _ _ => true
  | outflow_bc_factory _ _ | inflow_bc_factory _ _ _ => false
  end.

End Edges.

(* ===================================================================== *)
(** * Further sample inputs *)
(* ===================================================================== *)

Module MoreExamples.

Import Examples.

(** A run-time context whose fallback time step is infinite. *)
Definition unbounded_runtime : runtime := {| tol := pow2 (-20); dt := pinf |}.

(** A source term that raises. *)
Definition failing_source : Fvm.source unit runtime config :=
  fun _ _ _ => Raise (OtherError "source term failed").

(** An environment without any of the variables the imports look at and an
    environment as Legate sets it, and configurations of boundary
    conditions: one with the policies extrap and const only, and
    [sample_bcs] with the vectorised set-up switched on. *)
Definition plain_environ : BCs.environ := fun _ => None.

Definition legate_environ : BCs.environ :=
  fun name =>
    if String.eqb name "LEGATE_MAX_DIM" then Some "4"%string
    else if String.eqb name "LEGATE_MAX_FIELDS" then Some "256"%string
    else None.

Definition extrap_const_bcs : BCs.BCConfig :=
  {| BCs.bc_west := edge3 "extrap"%string None;
     BCs.bc_east := edge3 "extrap"%string None;
     BCs.bc_south := edge3 "const"%string (Some one);
     BCs.bc_north := edge3 "const"%string (Some two) |}.

Definition extrap_const_config : BCs.Config :=
  {| BCs.config_bc := extrap_const_bcs; BCs.config_params_vectorize_bc := false |}.

Definition sample_config : BCs.Config :=
  {| BCs.config_bc := sample_bcs; BCs.config_params_vectorize_bc := true |}.

End MoreExamples.

(* ===================================================================== *)
(** * Properties of the scalar and array operations *)
(* ===================================================================== *)

Module F64Facts.

Lemma div_pos_finite_pzero x : is_pos_finite x = true -> div x pzero = pinf.
Proof. destruct x as [ | | | [] m e]; simpl; try discriminate; reflexivity. Qed.

Lemma py_min_pinf : py_min pinf pinf = pinf.
Proof. reflexivity. Qed.

Lemma nan_to_num_not_inf x c n p q :
  isinf x = false -> NP.nan_to_num x c n p q = (if isnan x then n else x).
Proof. destruct x as [ | [] | | ]; simpl; try discriminate; reflexivity. Qed.

(** Rounding never produces a NaN from a non-negative mantissa. *)
Lemma iter_pos_inv {A} (P : A -> Prop) (f : A -> A) :
  (forall x, P x -> P (f x)) -> forall n x, P x -> P (SpecFloat.iter_pos f n x).
Proof.
  intros Hf. induction n as [n IH | n IH | ]; intros x Hx; simpl.
  - apply IH, IH, Hf, Hx.
  - apply IH, IH, Hx.
  - apply Hf, Hx.
Qed.

Lemma shr_1_nonneg mrs : (0 <= shr_m mrs)%Z -> (0 <= shr_m (shr_1 mrs))%Z.
Proof.
  destruct mrs as [m r s]. simpl.
  destruct m as [ | [p | p | ] | [p | p | ] ]; simpl; lia.
Qed.

Lemma shr_nonneg mrs e n :
  (0 <= shr_m mrs)%Z -> (0 <= shr_m (fst (shr mrs e n)))%Z.
Proof.
  intros Hm. destruct n as [ | p | p ]; simpl; try assumption.
  apply (iter_pos_inv (fun x => (0 <= shr_m x)%Z)); [ apply shr_1_nonneg | assumption ].
Qed.

Lemma shr_fexp_nonneg m e l :
  (0 <= m)%Z -> (0 <= shr_m (fst (shr_fexp prec emax m e l)))%Z.
Proof.
  intros Hm. unfold shr_fexp. apply shr_nonneg.
  destruct l as [ | [ | | ] ]; simpl; assumption.
Qed.

Lemma round_nearest_even_nonneg m l : (0 <= m)%Z -> (0 <= round_nearest_even m l)%Z.
Proof.
  intros Hm. destruct l as [ | [ | | ] ]; simpl; try assumption.
  - destruct (Z.even m); lia.
  - lia.
Qed.

Lemma binary_round_aux_not_nan sx m e l :
  (0 <= m)%Z -> isnan (binary_round_aux prec emax sx m e l) = false.
Proof.
  intros Hm. unfold binary_round_aux.
  pose proof (@shr_fexp_nonneg m e l Hm) as H1.
  destruct (shr_fexp prec emax m e l) as [mrs1 e1].
  simpl in H1.
  pose proof (@shr_fexp_nonneg _ e1 loc_Exact
                (@round_nearest_even_nonneg _ (loc_of_shr_record mrs1) H1)) as H2.
  destruct (shr_fexp prec emax _ e1 loc_Exact) as [mrs2 e2].
  simpl in H2.
  destruct (shr_m mrs2) as [ | p | p ].
  - reflexivity.
  - destruct (Z.leb e2 (emax - prec)); reflexivity.
  - lia.
Qed.

Lemma binary_normalize_not_nan m e s :
  isnan (binary_normalize prec emax m e s) = false.
Proof.
  destruct m as [ | p | p ]; simpl; [ reflexivity | | ];
    unfold binary_round;
    destruct (shl_align _ _ _) as [mz ez];
    apply binary_round_aux_not_nan; lia.
Qed.

(** The sum of two finite numbers may overflow, but it is a number. *)
Lemma add_finite_not_nan x y :
  is_finite x = true -> is_finite y = true -> isnan (add x y) = false.
Proof.
  destruct x as [ [] | | | sx mx ex ]; destruct y as [ [] | | | sy my ey ];
    simpl; try discriminate; try reflexivity.
  intros _ _. apply binary_normalize_not_nan.
Qed.

(** A number divided by a positive finite number is a number. *)
Lemma div_pos_finite_not_nan x y :
  isnan x = false -> is_pos_finite y = true -> isnan (div x y) = false.
Proof.
  destruct x as [ sx | sx | | sx mx ex ]; destruct y as [ | | | [] my ey ];
    simpl; try discriminate; try reflexivity.
  intros _ _. unfold SFdiv_core_binary.
  set (m' := match _ with Z0 => Zpos mx | Zpos _ => _ | Zneg _ => Z0 end).
  assert (Hm' : (0 <= m')%Z).
  { unfold m'. destruct (_ - _ - _)%Z; try lia.
    apply Z.shiftl_nonneg. lia. }
  pose proof (Z.div_pos m' (Zpos my) Hm' ltac:(lia)) as Hq.
  unfold Z.div in Hq.
  destruct (Z.div_eucl m' (Zpos my)) as [q r].
  apply binary_round_aux_not_nan. exact Hq.
Qed.

(** The difference of a finite number with itself is [+0]. *)
Lemma sub_diag x : is_finite x = true -> sub x x = pzero.
Proof.
  destruct x as [ [] | | | sx mx ex ]; simpl; try discriminate; try reflexivity.
  intros _. now rewrite Z.sub_diag.
Qed.

End F64Facts.

(* ===================================================================== *)
(** * Properties of the orchestrators *)
(* ===================================================================== *)

Lemma bind_run {A B} (m : M A) (k : A -> M B) log :
  bind m k log =
  match m log with
  | (Ok a, log') => k a log'
  | (Raise e, log') => (Raise e, log')
  end.
Proof. reflexivity. Qed.

Lemma call_run {A} s (r : result A) log : call s r log = (r, log ++ [s]).
Proof. unfold call, bind, tick, lift. reflexivity. Qed.

Ltac log_eq :=
  unfold kernel_stages, source_stages, stiff_stages; simpl;
  rewrite <- ?app_assoc; simpl; reflexivity.

Module CoreFvmFacts.

Import CoreFvm.

Section WithKernels.

Variable Other : Type.
Variables Runtime Config : Type.
Variable runtime_sources : Runtime -> list (source Other Runtime Config).
Variable runtime_tol : Runtime -> f64.
Variable runtime_dt : Runtime -> f64.
Variable config_params_gravity : Config -> f64.
Variable reconstruct : States Other -> Runtime -> Config -> result (States Other).
Variable get_local_speed : States Other -> f64 -> result (States Other).
Variable get_discontinuous_flux : States Other -> f64 -> result (States Other).
Variable central_scheme : States Other -> f64 -> result (States Other).
Variable nplike : NP.backend.

Let prepare := prepare_rhs runtime_sources runtime_tol runtime_dt
  config_params_gravity reconstruct get_local_speed get_discontinuous_flux
  central_scheme nplike.

Let kernels := after_kernels runtime_tol config_params_gravity reconstruct
  get_local_speed get_discontinuous_flux central_scheme.

Lemma core_run_sources_fst tag (funcs : list (source Other Runtime Config)) :
  forall i st rt cfg log,
    fst (run_sources tag funcs i st rt cfg log) = apply_sources funcs st rt cfg.
Proof.
  induction funcs as [ | f rest IH]; intros i st rt cfg log; simpl.
  - reflexivity.
  - rewrite bind_run, call_run.
    destruct (f st rt cfg) as [st1 | e]; simpl; [ apply IH | reflexivity ].
Qed.

Lemma core_run_sources_snd tag (funcs : list (source Other Runtime Config)) :
  forall i st rt cfg log st',
    apply_sources funcs st rt cfg = Ok st' ->
    snd (run_sources tag funcs i st rt cfg log)
    = log ++ map tag (seq i (length funcs)).
Proof.
  induction funcs as [ | f rest IH]; intros i st rt cfg log st' Hok; simpl in *.
  - now rewrite app_nil_r.
  - rewrite bind_run, call_run.
    destruct (f st rt cfg) as [st1 | e]; simpl in *; [ | discriminate ].
    rewrite (IH _ _ _ _ _ _ Hok), <- app_assoc. reflexivity.
Qed.

Lemma core_run_sources_ok tag (funcs : list (source Other Runtime Config)) i st rt cfg log st' log' :
  run_sources tag funcs i st rt cfg log = (Ok st', log') <->
  apply_sources funcs st rt cfg = Ok st' /\
  log' = log ++ map tag (seq i (length funcs)).
Proof.
  split.
  - intros Hrun.
    assert (Hf : apply_sources funcs st rt cfg = Ok st')
      by (rewrite <- (core_run_sources_fst tag funcs i st rt cfg log), Hrun; reflexivity).
    split; [ exact Hf | ].
    rewrite <- (core_run_sources_snd tag funcs i st rt cfg log Hf), Hrun. reflexivity.
  - intros [Hf ->].
    rewrite (surjective_pairing (run_sources tag funcs i st rt cfg log)).
    now rewrite core_run_sources_fst, (core_run_sources_snd tag funcs i st rt cfg log Hf), Hf.
Qed.

Lemma core_run_sources_raise tag (funcs : list (source Other Runtime Config)) i st rt cfg log e log' :
  run_sources tag funcs i st rt cfg log = (Raise e, log') ->
  apply_sources funcs st rt cfg = Raise e.
Proof.
  intros Hrun. rewrite <- (core_run_sources_fst tag funcs i st rt cfg log), Hrun.
  reflexivity.
Qed.

(** A run of [prepare_rhs] that returns, step by step. *)
Lemma core_prepare_rhs_run st rt cfg st' max_dt log :
  run (prepare st rt cfg) = (Ok (st', max_dt), log) <->
  exists st4 S' amax bmax,
    kernels st rt cfg = Ok st4 /\
    divergence (H (face_x st4)) (H (face_y st4))
      (domain_x_delta st4) (domain_y_delta st4) = Ok S' /\
    apply_sources (runtime_sources rt) (set_S st4 S') rt cfg = Ok st' /\
    max_speed (face_x st') = Ok amax /\
    max_speed (face_y st') = Ok bmax /\
    cap_dt nplike
      (py_min (div (mul quarter (domain_x_delta st4)) amax)
              (div (mul quarter (domain_y_delta st4)) bmax))
      (runtime_dt rt) = Ok max_dt /\
    log = kernel_stages ++ source_stages (length (runtime_sources rt)) ++ [StCflDt].
Proof.
  unfold run, prepare, prepare_rhs, kernels, after_kernels.
  rewrite bind_run, call_run.
  destruct (reconstruct st rt cfg) as [s1 | e]; simpl rbind;
    [ | split; [ discriminate | intros (? & ? & ? & ? & Hk & _); discriminate Hk ] ].
  rewrite bind_run, call_run.
  destruct (get_local_speed s1 _) as [s2 | e]; simpl rbind;
    [ | split; [ discriminate | intros (? & ? & ? & ? & Hk & _); discriminate Hk ] ].
  rewrite bind_run, call_run.
  destruct (get_discontinuous_flux s2 _) as [s3 | e]; simpl rbind;
    [ | split; [ discriminate | intros (? & ? & ? & ? & Hk & _); discriminate Hk ] ].
  rewrite bind_run, call_run.
  destruct (central_scheme s3 _) as [s4 | e]; simpl rbind;
    [ | split; [ discriminate | intros (? & ? & ? & ? & Hk & _); discriminate Hk ] ].
  cbv zeta. rewrite bind_run, call_run.
  destruct (divergence _ _ _ _) as [S1 | e] eqn:Hdiv;
    [ | split; [ discriminate
               | intros (? & ? & ? & ? & Hk & Hd & _); injection Hk as <-;
                 rewrite Hdiv in Hd; discriminate Hd ] ].
  rewrite bind_run.
  destruct (run_sources _ _ _ _ _ _ _) as [[s5 | e] log5] eqn:Hrs.
  - apply core_run_sources_ok in Hrs. destruct Hrs as [Hsrc ->].
    rewrite bind_run. unfold tick at 1. rewrite bind_run. unfold lift at 1.
    destruct (max_speed (face_x s5)) as [amax | e] eqn:Ha.
    + rewrite bind_run. unfold lift at 1.
      destruct (max_speed (face_y s5)) as [bmax | e] eqn:Hb.
      * cbv zeta. rewrite bind_run. unfold lift at 1.
        destruct (cap_dt _ _ _) as [d | e] eqn:Hc.
        -- unfold ret. split.
           ++ intros Heq. injection Heq as <- <- <-.
              exists s4, S1, amax, bmax.
              repeat split; assumption.
           ++ intros (st4 & S2 & am & bm & Hk & Hd & Hs & Ham & Hbm & Hcap & ->).
              injection Hk as <-. rewrite Hdiv in Hd. injection Hd as <-.
              rewrite Hsrc in Hs. injection Hs as <-.
              rewrite Ha in Ham. injection Ham as <-.
              rewrite Hb in Hbm. injection Hbm as <-.
              rewrite Hc in Hcap. injection Hcap as <-.
              reflexivity.
        -- split; [ discriminate | ].
           intros (st4 & S2 & am & bm & Hk & Hd & Hs & Ham & Hbm & Hcap & _).
           injection Hk as <-. rewrite Hdiv in Hd. injection Hd as <-.
           rewrite Hsrc in Hs. injection Hs as <-.
           rewrite Ha in Ham. injection Ham as <-.
           rewrite Hb in Hbm. injection Hbm as <-.
           rewrite Hc in Hcap. discriminate Hcap.
      * split; [ discriminate | ].
        intros (st4 & S2 & am & bm & Hk & Hd & Hs & Ham & Hbm & _).
        injection Hk as <-. rewrite Hdiv in Hd. injection Hd as <-.
        rewrite Hsrc in Hs. injection Hs as <-.
        rewrite Hb in Hbm. discriminate Hbm.
    + split; [ discriminate | ].
      intros (st4 & S2 & am & bm & Hk & Hd & Hs & Ham & _).
      injection Hk as <-. rewrite Hdiv in Hd. injection Hd as <-.
      rewrite Hsrc in Hs. injection Hs as <-.
      rewrite Ha in Ham. discriminate Ham.
  - apply core_run_sources_raise in Hrs.
    split; [ discriminate | ].
    intros (st4 & S2 & am & bm & Hk & Hd & Hs & _).
    injection Hk as <-. rewrite Hdiv in Hd. injection Hd as <-.
    rewrite Hrs in Hs. discriminate Hs.
Qed.

End WithKernels.

End CoreFvmFacts.

Module FvmFacts.

Import Fvm.

Section WithKernels.

Variable Other : Type.
Variables Runtime Config : Type.
Variable runtime_sources : Runtime -> list (source Other Runtime Config).
Variable runtime_stiff_sources : Runtime -> list (source Other Runtime Config).
Variable config_params_allow_async : Config -> bool.
Variable config_temporal_dt : Config -> f64.
Variable reconstruct : States Other -> Runtime -> Config -> result (States Other).
Variable get_local_speed : States Other -> result (States Other).
Variable get_discontinuous_flux : States Other -> result (States Other).
Variable central_scheme : States Other -> result (States Other).

Let prepare := prepare_rhs runtime_sources runtime_stiff_sources
  config_params_allow_async config_temporal_dt reconstruct get_local_speed
  get_discontinuous_flux central_scheme.

Let kernels := after_kernels reconstruct get_local_speed get_discontinuous_flux
  central_scheme.

Let dx_dy : States Other -> Config -> f64 * f64 := spacing config_params_allow_async.

Lemma run_sources_fst tag (funcs : list (source Other Runtime Config)) :
  forall i st rt cfg log,
    fst (run_sources tag funcs i st rt cfg log) = apply_sources funcs st rt cfg.
Proof.
  induction funcs as [ | f rest IH]; intros i st rt cfg log; simpl.
  - reflexivity.
  - rewrite bind_run, call_run.
    destruct (f st rt cfg) as [st1 | e]; simpl; [ apply IH | reflexivity ].
Qed.

Lemma run_sources_snd tag (funcs : list (source Other Runtime Config)) :
  forall i st rt cfg log st',
    apply_sources funcs st rt cfg = Ok st' ->
    snd (run_sources tag funcs i st rt cfg log)
    = log ++ map tag (seq i (length funcs)).
Proof.
  induction funcs as [ | f rest IH]; intros i st rt cfg log st' Hok; simpl in *.
  - now rewrite app_nil_r.
  - rewrite bind_run, call_run.
    destruct (f st rt cfg) as [st1 | e]; simpl in *; [ | discriminate ].
    rewrite (IH _ _ _ _ _ _ Hok), <- app_assoc. reflexivity.
Qed.

Lemma run_sources_ok tag (funcs : list (source Other Runtime Config)) i st rt cfg log st' log' :
  run_sources tag funcs i st rt cfg log = (Ok st', log') <->
  apply_sources funcs st rt cfg = Ok st' /\
  log' = log ++ map tag (seq i (length funcs)).
Proof.
  split.
  - intros Hrun.
    assert (Hf : apply_sources funcs st rt cfg = Ok st')
      by (rewrite <- (run_sources_fst tag funcs i st rt cfg log), Hrun; reflexivity).
    split; [ exact Hf | ].
    rewrite <- (run_sources_snd tag funcs i st rt cfg log Hf), Hrun. reflexivity.
  - intros [Hf ->].
    rewrite (surjective_pairing (run_sources tag funcs i st rt cfg log)).
    now rewrite run_sources_fst, (run_sources_snd tag funcs i st rt cfg log Hf), Hf.
Qed.

Lemma run_sources_raise tag (funcs : list (source Other Runtime Config)) i st rt cfg log e log' :
  run_sources tag funcs i st rt cfg log = (Raise e, log') ->
  apply_sources funcs st rt cfg = Raise e.
Proof.
  intros Hrun. rewrite <- (run_sources_fst tag funcs i st rt cfg log), Hrun.
  reflexivity.
Qed.

(** A run of [prepare_rhs] that returns, step by step. *)
Lemma prepare_rhs_run st rt cfg st' max_dt log :
  run (prepare st rt cfg) = (Ok (st', max_dt), log) <->
  exists st4 st5 s',
    staged runtime_sources runtime_stiff_sources config_params_allow_async
      reconstruct get_local_speed get_discontinuous_flux central_scheme
      st rt cfg st4 st5 st' s' /\
    if config_params_allow_async cfg
    then max_dt = config_temporal_dt cfg /\
         log = sources_log runtime_sources runtime_stiff_sources rt
    else exists amax bmax,
        max_speed (face_x st') = Ok amax /\
        max_speed (face_y st') = Ok bmax /\
        max_dt = NP.minimum (div (snd (dx_dy st4 cfg)) amax)
                            (div (fst (dx_dy st4 cfg)) bmax) /\
        log = sources_log runtime_sources runtime_stiff_sources rt ++ [StCflDt].
Proof.
  unfold run, prepare, prepare_rhs, staged, kernels, after_kernels, dx_dy, spacing,
    sources_log.
  rewrite bind_run, call_run.
  destruct (reconstruct st rt cfg) as [s1 | e]; simpl rbind;
    [ | split; [ discriminate | intros (? & ? & ? & (Hk & _) & _); discriminate Hk ] ].
  rewrite bind_run, call_run.
  destruct (get_local_speed s1) as [s2 | e]; simpl rbind;
    [ | split; [ discriminate | intros (? & ? & ? & (Hk & _) & _); discriminate Hk ] ].
  rewrite bind_run, call_run.
  destruct (get_discontinuous_flux s2) as [s3 | e]; simpl rbind;
    [ | split; [ discriminate | intros (? & ? & ? & (Hk & _) & _); discriminate Hk ] ].
  rewrite bind_run, call_run.
  destruct (central_scheme s3) as [s4 | e]; simpl rbind;
    [ | split; [ discriminate | intros (? & ? & ? & (Hk & _) & _); discriminate Hk ] ].
  set (d := if negb (config_params_allow_async cfg)
            then domain_delta s4 else domain_delta_array s4).
  destruct d as [dy dx] eqn:Hd. simpl fst. simpl snd.
  rewrite bind_run, call_run.
  destruct (divergence _ _ _ _) as [S1 | e] eqn:Hdiv;
    [ | split; [ discriminate
               | intros (? & ? & ? & (Hk & Hv & _) & _); injection Hk as <-;
                 fold d in Hv; rewrite Hd in Hv; simpl in Hv;
                 rewrite Hdiv in Hv; discriminate Hv ] ].
  rewrite bind_run.
  destruct (run_sources StSource _ _ _ _ _ _) as [[s5 | e] log5] eqn:Hrs.
  2:{ apply run_sources_raise in Hrs.
      split; [ discriminate | ].
      intros (st4 & st5 & s' & (Hk & Hv & Hs & _) & _).
      injection Hk as <-. fold d in Hv. rewrite Hd in Hv. simpl in Hv.
      rewrite Hdiv in Hv. injection Hv as <-.
      rewrite Hrs in Hs. discriminate Hs. }
  apply run_sources_ok in Hrs. destruct Hrs as [Hsrc ->].
  rewrite bind_run.
  destruct (run_sources StStiffSource _ _ _ _ _ _) as [[s6 | e] log6] eqn:Hrs.
  2:{ apply run_sources_raise in Hrs.
      split; [ discriminate | ].
      intros (st4 & st5 & s' & (Hk & Hv & Hs & Hss) & _).
      injection Hk as <-. fold d in Hv. rewrite Hd in Hv. simpl in Hv.
      rewrite Hdiv in Hv. injection Hv as <-.
      rewrite Hsrc in Hs. injection Hs as <-.
      rewrite Hrs in Hss. discriminate Hss. }
  apply run_sources_ok in Hrs. destruct Hrs as [Hstiff ->].
  assert (Hspec : forall st4 st5 s',
    (Ok s4 = Ok st4 /\
     divergence (cf (face_x st4)) (cf (face_y st4))
       (snd (if negb (config_params_allow_async cfg)
             then domain_delta st4 else domain_delta_array st4))
       (fst (if negb (config_params_allow_async cfg)
             then domain_delta st4 else domain_delta_array st4)) = Ok s' /\
     apply_sources (runtime_sources rt) (set_s st4 s') rt cfg = Ok st5 /\
     apply_sources (runtime_stiff_sources rt) st5 rt cfg = Ok st') ->
    st4 = s4 /\ s' = S1 /\ st5 = s5 /\ st' = s6).
  { intros st4 st5 s' (Hk & Hv & Hs & Hss).
    injection Hk as <-. fold d in Hv. rewrite Hd in Hv. simpl in Hv.
    rewrite Hdiv in Hv. injection Hv as <-.
    rewrite Hsrc in Hs. injection Hs as <-.
    rewrite Hstiff in Hss. injection Hss as <-. repeat split. }
  assert (Hhere :
    Ok s4 = Ok s4 /\
     divergence (cf (face_x s4)) (cf (face_y s4))
       (snd (if negb (config_params_allow_async cfg)
             then domain_delta s4 else domain_delta_array s4))
       (fst (if negb (config_params_allow_async cfg)
             then domain_delta s4 else domain_delta_array s4)) = Ok S1 /\
     apply_sources (runtime_sources rt) (set_s s4 S1) rt cfg = Ok s5 /\
     apply_sources (runtime_stiff_sources rt) s5 rt cfg = Ok s6).
  { fold d. rewrite Hd. simpl. repeat split; assumption. }
  fold d. fold d in Hspec, Hhere.
  destruct (config_params_allow_async cfg); unfold negb; cbv iota.
  - unfold ret. split.
    + intros Heq. injection Heq as <- <- <-.
      exists s4, s5, S1. split; [ exact Hhere | ].
      split; [ reflexivity | ].
      log_eq.
    + intros (st4 & st5 & s' & Hst & -> & ->).
      destruct (Hspec _ _ _ Hst) as (-> & -> & -> & ->).
      log_eq.
  - rewrite bind_run. unfold tick at 1. rewrite bind_run. unfold lift at 1.
    destruct (max_speed (face_x s6)) as [amax | e] eqn:Ha.
    2:{ split; [ discriminate | ].
        intros (st4 & st5 & s' & Hst & am & bm & Ham & _).
        destruct (Hspec _ _ _ Hst) as (-> & -> & -> & ->).
        rewrite Ha in Ham. discriminate Ham. }
    rewrite bind_run. unfold lift at 1.
    destruct (max_speed (face_y s6)) as [bmax | e] eqn:Hb.
    2:{ split; [ discriminate | ].
        intros (st4 & st5 & s' & Hst & am & bm & _ & Hbm & _).
        destruct (Hspec _ _ _ Hst) as (-> & -> & -> & ->).
        rewrite Hb in Hbm. discriminate Hbm. }
    unfold ret. cbv zeta. split.
    + intros Heq. injection Heq as <- <- <-.
      exists s4, s5, S1. split; [ exact Hhere | ].
      exists amax, bmax.
      assert (Hd' : domain_delta s4 = (dy, dx)) by exact Hd.
      rewrite Hd'. simpl.
      repeat split; assumption.
    + intros (st4 & st5 & s' & Hst & am & bm & Ham & Hbm & -> & ->).
      destruct (Hspec _ _ _ Hst) as (-> & -> & -> & ->).
      rewrite Ha in Ham. injection Ham as <-.
      rewrite Hb in Hbm. injection Hbm as <-.
      assert (Hd' : domain_delta s4 = (dy, dx)) by exact Hd.
      rewrite Hd'. simpl.
      log_eq.
Qed.

End WithKernels.

End FvmFacts.

Module Rhs.

Section BothOrchestrators.

(** The parameters of [torchswe/core/fvm.py] ... *)
Variable OtherC : Type.
Variables RuntimeC ConfigC : Type.
Variable c_sources : RuntimeC -> list (CoreFvm.source OtherC RuntimeC ConfigC).
Variable c_tol : RuntimeC -> f64.
Variable c_dt : RuntimeC -> f64.
Variable c_gravity : ConfigC -> f64.
Variable c_reconstruct :
  CoreFvm.States OtherC -> RuntimeC -> ConfigC -> result (CoreFvm.States OtherC).
Variable c_get_local_speed :
  CoreFvm.States OtherC -> f64 -> result (CoreFvm.States OtherC).
Variable c_get_discontinuous_flux :
  CoreFvm.States OtherC -> f64 -> result (CoreFvm.States OtherC).
Variable c_central_scheme :
  CoreFvm.States OtherC -> f64 -> result (CoreFvm.States OtherC).
Variable nplike : NP.backend.

(** ... and those of [torchswe/fvm.py]. *)
Variable Other : Type.
Variables Runtime Config : Type.
Variable sources : Runtime -> list (Fvm.source Other Runtime Config).
Variable stiff_sources : Runtime -> list (Fvm.source Other Runtime Config).
Variable allow_async : Config -> bool.
Variable temporal_dt : Config -> f64.
Variable reconstruct : Fvm.States Other -> Runtime -> Config -> result (Fvm.States Other).
Variable get_local_speed : Fvm.States Other -> result (Fvm.States Other).
Variable get_discontinuous_flux : Fvm.States Other -> result (Fvm.States Other).
Variable central_scheme : Fvm.States Other -> result (Fvm.States Other).

Let core_prepare_rhs := CoreFvm.prepare_rhs c_sources c_tol c_dt c_gravity
  c_reconstruct c_get_local_speed c_get_discontinuous_flux c_central_scheme nplike.

Let core_kernels := CoreFvm.after_kernels c_tol c_gravity c_reconstruct
  c_get_local_speed c_get_discontinuous_flux c_central_scheme.

Let fvm_prepare_rhs := Fvm.prepare_rhs sources stiff_sources allow_async
  temporal_dt reconstruct get_local_speed get_discontinuous_flux central_scheme.

Let fvm_kernels := Fvm.after_kernels reconstruct get_local_speed
  get_discontinuous_flux central_scheme.

Let fvm_staged := Fvm.staged sources stiff_sources allow_async reconstruct
  get_local_speed get_discontinuous_flux central_scheme.

Lemma cap_dt_not_inf m d :
  isinf m = false -> CoreFvm.cap_dt nplike m d = Ok m.
Proof.
  intros Hm. unfold CoreFvm.cap_dt. destruct nplike; simpl.
  - rewrite F64Facts.nan_to_num_not_inf by assumption.
    destruct m; try reflexivity.
  - destruct m as [ | [] | | ]; try discriminate; reflexivity.
Qed.

Lemma cap_dt_pinf d : CoreFvm.cap_dt nplike pinf d = Ok d.
Proof. unfold CoreFvm.cap_dt. destruct nplike; reflexivity. Qed.

(** C1 (as amended).  When [prepare_rhs] returns, with [amax] and [bmax] the
    maxima over the x faces and the y faces of [max(a_plus, -a_minus)] in
    the state it returns, and [dx], [dy] the spacings read after the central
    scheme: the orchestrator of [torchswe/core/fvm.py] returns
    [min(0.25*dx/amax, 0.25*dy/bmax)] whenever that number is not infinite,
    and [runtime.dt] when it is [+inf]; the orchestrator of
    [torchswe/fvm.py] returns [minimum(dx/amax, dy/bmax)], without the
    factor 0.25, when [allow_async] is off, and [config.temporal.dt] when it
    is on. *)
Theorem prepare_rhs_max_dt :
  forall (cst : CoreFvm.States OtherC) crt ccfg cst' cdt clog
         (st : Fvm.States Other) rt cfg st' max_dt log,
    (run (core_prepare_rhs cst crt ccfg) = (Ok (cst', cdt), clog) ->
     exists st4 amax bmax,
       core_kernels cst crt ccfg = Ok st4 /\
       CoreFvm.max_speed (CoreFvm.face_x cst') = Ok amax /\
       CoreFvm.max_speed (CoreFvm.face_y cst') = Ok bmax /\
       let m := py_min (div (mul quarter (CoreFvm.domain_x_delta st4)) amax)
                       (div (mul quarter (CoreFvm.domain_y_delta st4)) bmax) in
       (isinf m = false -> cdt = m) /\ (m = pinf -> cdt = c_dt crt))
    /\
    (run (fvm_prepare_rhs st rt cfg) = (Ok (st', max_dt), log) ->
     if allow_async cfg then max_dt = temporal_dt cfg
     else exists st4 amax bmax,
         fvm_kernels st rt cfg = Ok st4 /\
         Fvm.max_speed (Fvm.face_x st') = Ok amax /\
         Fvm.max_speed (Fvm.face_y st') = Ok bmax /\
         max_dt = NP.minimum (div (snd (Fvm.domain_delta st4)) amax)
                             (div (fst (Fvm.domain_delta st4)) bmax)).
Proof.
  intros cst crt ccfg cst' cdt clog st rt cfg st' max_dt log. split.
  - intros Hrun. apply CoreFvmFacts.core_prepare_rhs_run in Hrun.
    destruct Hrun as (st4 & S' & amax & bmax & Hk & _ & _ & Ha & Hb & Hcap & _).
    exists st4, amax, bmax. repeat split; try assumption.
    + intros Hm. rewrite cap_dt_not_inf in Hcap by exact Hm. now injection Hcap.
    + intros Hm. rewrite Hm, cap_dt_pinf in Hcap. now injection Hcap.
  - intros Hrun. apply FvmFacts.prepare_rhs_run in Hrun.
    destruct Hrun as (st4 & st5 & s' & (Hk & _) & Hdt).
    unfold Fvm.spacing in Hdt.
    destruct (allow_async cfg).
    + apply Hdt.
    + destruct Hdt as (amax & bmax & Ha & Hb & Hdt & _).
      exists st4, amax, bmax. repeat split; assumption.
Qed.

(** C2 (as amended).  When the maximum one-sided speed that [prepare_rhs]
    computes is [+0.0] on both axes and the spacings are positive, the
    orchestrator of [torchswe/core/fvm.py] returns [runtime.dt], which is
    neither infinite nor NaN when [runtime.dt] is finite.  The orchestrator
    of [torchswe/fvm.py] returns [config.temporal.dt] when [allow_async] is
    on; when it is off and both maxima are zeros, of either sign, it returns
    an infinity (its comment reads: may be a `inf` (but never `NaN`)),
    which is [+inf] when both maxima are [+0.0]. *)
Theorem prepare_rhs_zero_speed_dt :
  forall (cst : CoreFvm.States OtherC) crt ccfg cst' cdt clog
         (st : Fvm.States Other) rt cfg st' max_dt log,
    (run (core_prepare_rhs cst crt ccfg) = (Ok (cst', cdt), clog) ->
     forall st4,
       core_kernels cst crt ccfg = Ok st4 ->
       CoreFvm.max_speed (CoreFvm.face_x cst') = Ok pzero ->
       CoreFvm.max_speed (CoreFvm.face_y cst') = Ok pzero ->
       is_pos_finite (mul quarter (CoreFvm.domain_x_delta st4)) = true ->
       is_pos_finite (mul quarter (CoreFvm.domain_y_delta st4)) = true ->
       cdt = c_dt crt /\
       (is_finite (c_dt crt) = true -> isinf cdt = false /\ isnan cdt = false))
    /\
    (run (fvm_prepare_rhs st rt cfg) = (Ok (st', max_dt), log) ->
     if allow_async cfg then max_dt = temporal_dt cfg
     else forall st4 amax bmax,
         fvm_kernels st rt cfg = Ok st4 ->
         Fvm.max_speed (Fvm.face_x st') = Ok amax ->
         Fvm.max_speed (Fvm.face_y st') = Ok bmax ->
         is_zero amax = true ->
         is_zero bmax = true ->
         is_pos_finite (snd (Fvm.domain_delta st4)) = true ->
         is_pos_finite (fst (Fvm.domain_delta st4)) = true ->
         isinf max_dt = true /\
         (amax = pzero -> bmax = pzero -> max_dt = pinf)).
Proof.
  intros cst crt ccfg cst' cdt clog st rt cfg st' max_dt log. split.
  - intros Hrun st4 Hk Ha Hb Hdx Hdy.
    apply CoreFvmFacts.core_prepare_rhs_run in Hrun.
    destruct Hrun as (st4' & S' & amax & bmax & Hk' & _ & _ & Ha' & Hb' & Hcap & _).
    fold core_kernels in Hk'. rewrite Hk in Hk'. injection Hk' as <-.
    rewrite Ha in Ha'. injection Ha' as <-.
    rewrite Hb in Hb'. injection Hb' as <-.
    rewrite (F64Facts.div_pos_finite_pzero _ Hdx) in Hcap.
    rewrite (F64Facts.div_pos_finite_pzero _ Hdy) in Hcap.
    rewrite F64Facts.py_min_pinf, cap_dt_pinf in Hcap. injection Hcap as <-.
    split; [ reflexivity | ].
    intros Hfin. destruct (c_dt crt); try discriminate; split; reflexivity.
  - intros Hrun. apply FvmFacts.prepare_rhs_run in Hrun.
    destruct Hrun as (st4' & st5 & s' & (Hk' & _) & Hdt).
    unfold Fvm.spacing in Hdt.
    destruct (allow_async cfg).
    + apply Hdt.
    + intros st4 amax bmax Hk Ha Hb Hza Hzb Hdx Hdy.
      fold fvm_kernels in Hk'. rewrite Hk in Hk'. injection Hk' as <-.
      destruct Hdt as (amax' & bmax' & Ha' & Hb' & -> & _).
      rewrite Ha in Ha'. injection Ha' as <-.
      rewrite Hb in Hb'. injection Hb' as <-.
      simpl negb. cbv iota.
      destruct (snd (Fvm.domain_delta st4)) as [ | | | [] mx ex ]; try discriminate Hdx.
      destruct (fst (Fvm.domain_delta st4)) as [ | | | [] my ey ]; try discriminate Hdy.
      destruct amax as [ [] | | | ]; try discriminate Hza;
        destruct bmax as [ [] | | | ]; try discriminate Hzb;
        (split; [ reflexivity | ]); intros H1 H2;
        first [ reflexivity | discriminate H1 | discriminate H2 ].
Qed.

Lemma stage_order_NoDup n m :
  NoDup (kernel_stages ++ source_stages n ++ stiff_stages m ++ [StCflDt]).
Proof.
  assert (Hs : forall k, NoDup (source_stages k)).
  { intros k. apply Injective_map_NoDup; [ | apply seq_NoDup ].
    intros a b Hab. now injection Hab. }
  assert (Ht : forall k, NoDup (stiff_stages k)).
  { intros k. apply Injective_map_NoDup; [ | apply seq_NoDup ].
    intros a b Hab. now injection Hab. }
  assert (Hin_s : forall k x, In x (source_stages k) -> exists i, x = StSource i).
  { intros k x Hx. apply in_map_iff in Hx. destruct Hx as (i & <- & _). now exists i. }
  assert (Hin_t : forall k x, In x (stiff_stages k) -> exists i, x = StStiffSource i).
  { intros k x Hx. apply in_map_iff in Hx. destruct Hx as (i & <- & _). now exists i. }
  apply NoDup_app.
  - unfold kernel_stages.
    repeat (constructor; [ simpl; intuition discriminate | ]). constructor.
  - apply NoDup_app; [ apply Hs | | ].
    + apply NoDup_app; [ apply Ht | repeat constructor; simpl; tauto | ].
      intros x Hx [<- | []]. apply Hin_t in Hx. destruct Hx as [i Hi]. discriminate.
    + intros x Hx Hx'. apply Hin_s in Hx. destruct Hx as [i ->].
      apply in_app_or in Hx'. destruct Hx' as [Hx' | [Hx' | []]].
      * apply Hin_t in Hx'. destruct Hx' as [j Hj]. discriminate.
      * discriminate.
  - intros x Hx Hx'.
    apply in_app_or in Hx'. destruct Hx' as [Hx' | Hx'].
    + apply Hin_s in Hx'. destruct Hx' as [i ->].
      simpl in Hx. intuition discriminate.
    + apply in_app_or in Hx'. destruct Hx' as [Hx' | [<- | []]].
      * apply Hin_t in Hx'. destruct Hx' as [i ->].
        simpl in Hx. intuition discriminate.
      * simpl in Hx. intuition discriminate.
Qed.

(** C4 (as amended).  In every call of [prepare_rhs] that returns, the steps
    run once each and in the order: reconstruct, local speeds,
    discontinuous flux, central flux, divergence written into S, every
    explicit source (the first on the state that holds the divergence in S,
    each next one on the state the one before returned) and, in
    [torchswe/fvm.py], every stiff source.  The CFL time step is computed
    after them in [torchswe/core/fvm.py], which has no stiff sources, and in
    [torchswe/fvm.py] when [allow_async] is off; with [allow_async] on no
    CFL computation runs and the time step returned is
    [config.temporal.dt]. *)
Theorem prepare_rhs_stage_order :
  forall (cst : CoreFvm.States OtherC) crt ccfg cst' cdt clog
         (st : Fvm.States Other) rt cfg st' max_dt log,
    (run (core_prepare_rhs cst crt ccfg) = (Ok (cst', cdt), clog) ->
     clog = kernel_stages ++ source_stages (length (c_sources crt)) ++ [StCflDt] /\
     NoDup clog /\
     exists st4 S',
       core_kernels cst crt ccfg = Ok st4 /\
       CoreFvm.divergence (CoreFvm.H (CoreFvm.face_x st4)) (CoreFvm.H (CoreFvm.face_y st4))
         (CoreFvm.domain_x_delta st4) (CoreFvm.domain_y_delta st4) = Ok S' /\
       CoreFvm.apply_sources (c_sources crt) (CoreFvm.set_S st4 S') crt ccfg = Ok cst')
    /\
    (run (fvm_prepare_rhs st rt cfg) = (Ok (st', max_dt), log) ->
     log = Fvm.sources_log sources stiff_sources rt
           ++ (if allow_async cfg then [] else [StCflDt]) /\
     NoDup log /\
     (exists st4 st5 s', fvm_staged st rt cfg st4 st5 st' s') /\
     (allow_async cfg = true -> max_dt = temporal_dt cfg)).
Proof.
  intros cst crt ccfg cst' cdt clog st rt cfg st' max_dt log. split.
  - intros Hrun. apply CoreFvmFacts.core_prepare_rhs_run in Hrun.
    destruct Hrun as (st4 & S' & amax & bmax & Hk & Hd & Hs & _ & _ & _ & ->).
    split; [ reflexivity | ]. split.
    + apply (stage_order_NoDup (length (c_sources crt)) 0).
    + exists st4, S'. repeat split; assumption.
  - intros Hrun. apply FvmFacts.prepare_rhs_run in Hrun.
    destruct Hrun as (st4 & st5 & s' & Hst & Hdt).
    assert (Hlog : log = Fvm.sources_log sources stiff_sources rt
                         ++ (if allow_async cfg then [] else [StCflDt])).
    { destruct (allow_async cfg).
      - destruct Hdt as [_ ->]. now rewrite app_nil_r.
      - destruct Hdt as (? & ? & _ & _ & _ & ->). reflexivity. }
    split; [ exact Hlog | ]. split.
    + rewrite Hlog. unfold Fvm.sources_log.
      pose proof (stage_order_NoDup (length (sources rt)) (length (stiff_sources rt)))
        as Hnd.
      destruct (allow_async cfg).
      * rewrite app_nil_r.
        replace (kernel_stages ++ source_stages (length (sources rt))
                 ++ stiff_stages (length (stiff_sources rt)) ++ [StCflDt])
          with ((kernel_stages ++ source_stages (length (sources rt))
                 ++ stiff_stages (length (stiff_sources rt))) ++ [StCflDt]) in Hnd
          by (now rewrite <- !app_assoc).
        now apply NoDup_app_remove_r in Hnd.
      * now rewrite <- !app_assoc.
    + split; [ exists st4, st5, s'; exact Hst | ].
      intros Hon. rewrite Hon in Hdt. apply Hdt.
Qed.

End BothOrchestrators.

Import Examples.

Lemma prepare_rhs_max_dt_witness :
  run (core_prepare_rhs NP.NumPy [core_double_S] flow_core a_runtime a_config)
  = (Ok (flow_core_out, pow2 (-3)), kernel_stages ++ [StSource 0; StCflDt]) /\
  run (fvm_prepare_rhs [double_s] [double_s] flow a_runtime a_config)
  = (Ok (flow_out, half), kernel_stages ++ [StSource 0; StStiffSource 0; StCflDt]) /\
  (exists st4 amax bmax,
     CoreFvm.after_kernels tol gravity core_kernel3 core_kernel2 core_kernel2
       core_kernel2 flow_core a_runtime a_config = Ok st4 /\
     CoreFvm.max_speed (CoreFvm.face_x flow_core_out) = Ok amax /\
     CoreFvm.max_speed (CoreFvm.face_y flow_core_out) = Ok bmax /\
     let m := py_min (div (mul quarter (CoreFvm.domain_x_delta st4)) amax)
                     (div (mul quarter (CoreFvm.domain_y_delta st4)) bmax) in
     (isinf m = false -> pow2 (-3) = m) /\ (m = pinf -> pow2 (-3) = dt a_runtime)) /\
  (exists st4 amax bmax,
     Fvm.after_kernels kernel3 kernel1 kernel1 kernel1 flow a_runtime a_config = Ok st4 /\
     Fvm.max_speed (Fvm.face_x flow_out) = Ok amax /\
     Fvm.max_speed (Fvm.face_y flow_out) = Ok bmax /\
     half = NP.minimum (div (snd (Fvm.domain_delta st4)) amax)
                       (div (fst (Fvm.domain_delta st4)) bmax)).
Proof.
  assert (Hc : run (core_prepare_rhs NP.NumPy [core_double_S] flow_core a_runtime a_config)
               = (Ok (flow_core_out, pow2 (-3)), kernel_stages ++ [StSource 0; StCflDt]))
    by (vm_compute; reflexivity).
  assert (Hn : run (fvm_prepare_rhs [double_s] [double_s] flow a_runtime a_config)
               = (Ok (flow_out, half),
                  kernel_stages ++ [StSource 0; StStiffSource 0; StCflDt]))
    by (vm_compute; reflexivity).
  destruct (prepare_rhs_max_dt
              (fun _ => [core_double_S]) tol dt gravity core_kernel3 core_kernel2
              core_kernel2 core_kernel2 NP.NumPy
              (fun _ => [double_s]) (fun _ => [double_s]) allow_async temporal_dt
              kernel3 kernel1 kernel1 kernel1
              flow_core a_runtime a_config flow_core_out (pow2 (-3))
              (kernel_stages ++ [StSource 0; StCflDt])
              flow a_runtime a_config flow_out half
              (kernel_stages ++ [StSource 0; StStiffSource 0; StCflDt]))
    as [H1 H2].
  split; [ exact Hc | ]. split; [ exact Hn | ].
  split; [ exact (H1 Hc) | exact (H2 Hn) ].
Defined.

(** C1 as stated fails: on the flow sample, whose speeds give
    [min(0.25*dx/amax, 0.25*dy/bmax) = 0.125], [torchswe/fvm.py] returns
    [0.5]; on the calm sample, where both maxima are [+0.0] and that
    minimum is [+inf], [torchswe/core/fvm.py] returns [runtime.dt = 3]. *)
Lemma prepare_rhs_max_dt_counterexample :
  (exists st' max_dt log amax bmax,
     run (fvm_prepare_rhs [] [] flow a_runtime a_config) = (Ok (st', max_dt), log) /\
     Fvm.max_speed (Fvm.face_x st') = Ok amax /\
     Fvm.max_speed (Fvm.face_y st') = Ok bmax /\
     max_dt <> py_min (div (mul quarter (snd (Fvm.domain_delta st'))) amax)
                      (div (mul quarter (fst (Fvm.domain_delta st'))) bmax)) /\
  (exists st' max_dt log amax bmax,
     run (core_prepare_rhs NP.NumPy [] calm_core a_runtime a_config)
     = (Ok (st', max_dt), log) /\
     CoreFvm.max_speed (CoreFvm.face_x st') = Ok amax /\
     CoreFvm.max_speed (CoreFvm.face_y st') = Ok bmax /\
     py_min (div (mul quarter (CoreFvm.domain_x_delta st')) amax)
            (div (mul quarter (CoreFvm.domain_y_delta st')) bmax) = pinf /\
     max_dt = three).
Proof.
  split.
  - exists (Fvm.set_s flow [[[one]]]), half,
      (kernel_stages ++ [StCflDt]), one, two.
    repeat split; try (vm_compute; reflexivity).
    vm_compute. discriminate.
  - exists calm_core_out, three, (kernel_stages ++ [StCflDt]), pzero, pzero.
    repeat split; vm_compute; reflexivity.
Qed.

Lemma prepare_rhs_zero_speed_dt_witness :
  run (core_prepare_rhs NP.NumPy [core_double_S] calm_core a_runtime a_config)
  = (Ok (calm_core_out, three), kernel_stages ++ [StSource 0; StCflDt]) /\
  run (fvm_prepare_rhs [double_s] [double_s] calm a_runtime a_config)
  = (Ok (calm_out, pinf), kernel_stages ++ [StSource 0; StStiffSource 0; StCflDt]) /\
  (three = dt a_runtime /\
   (is_finite (dt a_runtime) = true -> isinf three = false /\ isnan three = false)) /\
  (isinf pinf = true /\ (pzero = pzero -> pzero = pzero -> pinf = pinf)).
Proof.
  assert (Hc : run (core_prepare_rhs NP.NumPy [core_double_S] calm_core a_runtime a_config)
               = (Ok (calm_core_out, three), kernel_stages ++ [StSource 0; StCflDt]))
    by (vm_compute; reflexivity).
  assert (Hn : run (fvm_prepare_rhs [double_s] [double_s] calm a_runtime a_config)
               = (Ok (calm_out, pinf),
                  kernel_stages ++ [StSource 0; StStiffSource 0; StCflDt]))
    by (vm_compute; reflexivity).
  destruct (prepare_rhs_zero_speed_dt
              (fun _ => [core_double_S]) tol dt gravity core_kernel3 core_kernel2
              core_kernel2 core_kernel2 NP.NumPy
              (fun _ => [double_s]) (fun _ => [double_s]) allow_async temporal_dt
              kernel3 kernel1 kernel1 kernel1
              calm_core a_runtime a_config calm_core_out three
              (kernel_stages ++ [StSource 0; StCflDt])
              calm a_runtime a_config calm_out pinf
              (kernel_stages ++ [StSource 0; StStiffSource 0; StCflDt]))
    as [H1 H2].
  split; [ exact Hc | ]. split; [ exact Hn | ]. split.
  - apply (H1 Hc calm_core); reflexivity.
  - apply (H2 Hn calm pzero pzero); reflexivity.
Defined.

(** C2 as stated fails: with [allow_async] off, [torchswe/fvm.py] returns
    [+inf], not the configured [config.temporal.dt = 3], on the calm sample,
    where both maxima are [+0.0]; on the still sample, where every one-sided
    speed is [+0.0] and both maxima are [-0.0], it returns [-inf]. *)
Lemma prepare_rhs_zero_speed_dt_counterexample :
  (exists st' max_dt log,
     run (fvm_prepare_rhs [] [] calm a_runtime a_config) = (Ok (st', max_dt), log) /\
     Fvm.max_speed (Fvm.face_x st') = Ok pzero /\
     Fvm.max_speed (Fvm.face_y st') = Ok pzero /\
     max_dt = pinf /\
     max_dt <> temporal_dt a_config /\ max_dt <> dt a_runtime) /\
  (exists st' max_dt log,
     run (fvm_prepare_rhs [] [] still a_runtime a_config) = (Ok (st', max_dt), log) /\
     Fvm.max_speed (Fvm.face_x st') = Ok nzero /\
     Fvm.max_speed (Fvm.face_y st') = Ok nzero /\
     max_dt = ninf /\
     max_dt <> temporal_dt a_config /\ max_dt <> dt a_runtime).
Proof.
  split.
  - exists calm_out, pinf, (kernel_stages ++ [StCflDt]).
    repeat split; try (vm_compute; reflexivity); vm_compute; discriminate.
  - exists still_out, ninf, (kernel_stages ++ [StCflDt]).
    repeat split; try (vm_compute; reflexivity); vm_compute; discriminate.
Qed.

Lemma prepare_rhs_stage_order_witness :
  run (core_prepare_rhs NP.NumPy [core_double_S] flow_core a_runtime a_config)
  = (Ok (flow_core_out, pow2 (-3)), kernel_stages ++ [StSource 0; StCflDt]) /\
  run (fvm_prepare_rhs [double_s] [double_s; double_s] flow a_runtime a_config)
  = (Ok (Fvm.set_s flow [[[pow2 3]]], half),
     kernel_stages ++ [StSource 0; StStiffSource 0; StStiffSource 1; StCflDt]) /\
  run (fvm_prepare_rhs [double_s] [double_s; double_s] flow a_runtime an_async_config)
  = (Ok (Fvm.set_s flow [[[pow2 3]]], three),
     kernel_stages ++ [StSource 0; StStiffSource 0; StStiffSource 1]) /\
  (kernel_stages ++ [StSource 0; StCflDt]
   = kernel_stages ++ source_stages 1 ++ [StCflDt] /\
   NoDup (kernel_stages ++ [StSource 0; StCflDt]) /\
   exists st4 S',
     CoreFvm.after_kernels tol gravity core_kernel3 core_kernel2 core_kernel2
       core_kernel2 flow_core a_runtime a_config = Ok st4 /\
     CoreFvm.divergence (CoreFvm.H (CoreFvm.face_x st4)) (CoreFvm.H (CoreFvm.face_y st4))
       (CoreFvm.domain_x_delta st4) (CoreFvm.domain_y_delta st4) = Ok S' /\
     CoreFvm.apply_sources [core_double_S] (CoreFvm.set_S st4 S') a_runtime a_config
     = Ok flow_core_out) /\
  (kernel_stages ++ [StSource 0; StStiffSource 0; StStiffSource 1; StCflDt]
   = Fvm.sources_log (fun _ : runtime => [double_s]) (fun _ => [double_s; double_s])
       a_runtime ++ [StCflDt] /\
   NoDup (kernel_stages ++ [StSource 0; StStiffSource 0; StStiffSource 1; StCflDt]) /\
   (exists st4 st5 s',
      Fvm.staged (fun _ => [double_s]) (fun _ => [double_s; double_s]) allow_async
        kernel3 kernel1 kernel1 kernel1 flow a_runtime a_config st4 st5
        (Fvm.set_s flow [[[pow2 3]]]) s') /\
   (allow_async a_config = true -> half = temporal_dt a_config)) /\
  (kernel_stages ++ [StSource 0; StStiffSource 0; StStiffSource 1]
   = Fvm.sources_log (fun _ : runtime => [double_s]) (fun _ => [double_s; double_s])
       a_runtime ++ [] /\
   NoDup (kernel_stages ++ [StSource 0; StStiffSource 0; StStiffSource 1]) /\
   (exists st4 st5 s',
      Fvm.staged (fun _ => [double_s]) (fun _ => [double_s; double_s]) allow_async
        kernel3 kernel1 kernel1 kernel1 flow a_runtime an_async_config st4 st5
        (Fvm.set_s flow [[[pow2 3]]]) s') /\
   (allow_async an_async_config = true -> three = temporal_dt an_async_config)).
Proof.
  assert (Hc : run (core_prepare_rhs NP.NumPy [core_double_S] flow_core a_runtime a_config)
               = (Ok (flow_core_out, pow2 (-3)), kernel_stages ++ [StSource 0; StCflDt]))
    by (vm_compute; reflexivity).
  assert (Hn : run (fvm_prepare_rhs [double_s] [double_s; double_s] flow a_runtime a_config)
               = (Ok (Fvm.set_s flow [[[pow2 3]]], half),
                  kernel_stages
                  ++ [StSource 0; StStiffSource 0; StStiffSource 1; StCflDt]))
    by (vm_compute; reflexivity).
  assert (Ha : run (fvm_prepare_rhs [double_s] [double_s; double_s] flow a_runtime
                      an_async_config)
               = (Ok (Fvm.set_s flow [[[pow2 3]]], three),
                  kernel_stages ++ [StSource 0; StStiffSource 0; StStiffSource 1]))
    by (vm_compute; reflexivity).
  destruct (prepare_rhs_stage_order
              (fun _ => [core_double_S]) tol dt gravity core_kernel3 core_kernel2
              core_kernel2 core_kernel2 NP.NumPy
              (fun _ => [double_s]) (fun _ => [double_s; double_s]) allow_async
              temporal_dt kernel3 kernel1 kernel1 kernel1
              flow_core a_runtime a_config flow_core_out (pow2 (-3))
              (kernel_stages ++ [StSource 0; StCflDt])
              flow a_runtime a_config (Fvm.set_s flow [[[pow2 3]]]) half
              (kernel_stages
               ++ [StSource 0; StStiffSource 0; StStiffSource 1; StCflDt]))
    as [H1 H2].
  destruct (prepare_rhs_stage_order
              (fun _ => [core_double_S]) tol dt gravity core_kernel3 core_kernel2
              core_kernel2 core_kernel2 NP.NumPy
              (fun _ => [double_s]) (fun _ => [double_s; double_s]) allow_async
              temporal_dt kernel3 kernel1 kernel1 kernel1
              flow_core a_runtime a_config flow_core_out (pow2 (-3))
              (kernel_stages ++ [StSource 0; StCflDt])
              flow a_runtime an_async_config (Fvm.set_s flow [[[pow2 3]]]) three
              (kernel_stages ++ [StSource 0; StStiffSource 0; StStiffSource 1]))
    as [_ H3].
  split; [ exact Hc | ]. split; [ exact Hn | ]. split; [ exact Ha | ].
  split; [ exact (H1 Hc) | ]. split; [ exact (H2 Hn) | exact (H3 Ha) ].
Defined.

(** C4 as stated fails: with [allow_async] on, a call of [prepare_rhs] of
    [torchswe/fvm.py] returns without the CFL computation, and its time step
    is [config.temporal.dt = 3] although the speeds of the sample give
    [0.5]. *)
Lemma prepare_rhs_stage_order_counterexample :
  exists st' max_dt log,
    run (fvm_prepare_rhs [double_s] [double_s] flow a_runtime an_async_config)
    = (Ok (st', max_dt), log) /\
    ~ In StCflDt log /\
    max_dt = three /\
    NP.minimum (div one one) (div one two) = half.
Proof.
  exists flow_out, three, (kernel_stages ++ [StSource 0; StStiffSource 0]).
  split; [ vm_compute; reflexivity | ].
  split; [ | split; reflexivity ].
  simpl. intuition discriminate.
Qed.

End Rhs.

(* ===================================================================== *)
(** * Properties of the central-upwind flux *)
(* ===================================================================== *)

Module KernelFacts.

Import Kernels.

Lemma equal_speeds_below_tol tol a :
  is_finite a = true -> ltb pzero tol = true -> ltb (sub a a) tol = true.
Proof. intros Ha Htol. now rewrite F64Facts.sub_diag. Qed.

Lemma central_flux_fallback tol ap am fm fp qm qp :
  ltb (sub ap am) tol = true -> central_flux tol ap am fm fp qm qp = mean_flux fm fp.
Proof. intros Hlt. unfold central_flux. cbv zeta. now rewrite Hlt. Qed.

Lemma mean_flux_not_nan fm fp :
  is_finite fm = true -> is_finite fp = true -> isnan (mean_flux fm fp) = false.
Proof.
  intros Hm Hp. unfold mean_flux.
  apply F64Facts.div_pos_finite_not_nan; [ | reflexivity ].
  now apply F64Facts.add_finite_not_nan.
Qed.

(** Without the fallback the formula of section 4.4 divides zero by zero:
    with a tolerance of zero the flux of the still-water face is NaN. *)
Example central_flux_no_tolerance :
  central_flux pzero pzero pzero one three one two = nan.
Proof. reflexivity. Qed.

(** C5.  At every face where [a_plus] equals [a_minus] (a finite speed, zero
    in particular, under a positive tolerance) or where their difference is
    below the tolerance, the flux of the central scheme is the arithmetic
    mean of the two one-sided fluxes, component by component; for finite
    one-sided fluxes no component of it is NaN. *)
Theorem central_scheme_degenerate_mean :
  forall (tol : f64) (faces : list face_data) (i : nat) (fd : face_data),
    nth_error faces i = Some fd ->
    (a_plus fd = a_minus fd /\ is_finite (a_plus fd) = true /\ ltb pzero tol = true)
    \/ ltb (sub (a_plus fd) (a_minus fd)) tol = true ->
    nth_error (central_scheme tol faces) i
    = Some (vmap2 mean_flux (F_minus fd) (F_plus fd)) /\
    (vfinite (F_minus fd) = true -> vfinite (F_plus fd) = true ->
     vnan (vmap2 mean_flux (F_minus fd) (F_plus fd)) = false).
Proof.
  intros tol faces i fd Hfd Hdeg.
  assert (Hlt : ltb (sub (a_plus fd) (a_minus fd)) tol = true).
  { destruct Hdeg as [(Heq & Hfin & Htol) | Hlt]; [ | exact Hlt ].
    rewrite <- Heq. now apply equal_speeds_below_tol. }
  split.
  - unfold central_scheme. rewrite nth_error_map, Hfd. simpl.
    unfold central_scheme_face, vmap4, vmap2.
    now rewrite !central_flux_fallback by exact Hlt.
  - unfold vfinite, vnan, vmap2. simpl.
    intros Hm Hp.
    apply andb_prop in Hm. destruct Hm as [Hm Hm3].
    apply andb_prop in Hm. destruct Hm as [Hm1 Hm2].
    apply andb_prop in Hp. destruct Hp as [Hp Hp3].
    apply andb_prop in Hp. destruct Hp as [Hp1 Hp2].
    now rewrite !mean_flux_not_nan.
Qed.

Import Examples.

Lemma central_scheme_degenerate_mean_witness :
  nth_error [wet_face; still_face] 1 = Some still_face /\
  ((a_plus still_face = a_minus still_face /\
    is_finite (a_plus still_face) = true /\ ltb pzero (pow2 (-20)) = true)
   \/ ltb (sub (a_plus still_face) (a_minus still_face)) (pow2 (-20)) = true) /\
  nth_error (central_scheme (pow2 (-20)) [wet_face; still_face]) 1
  = Some {| c_w := pzero; c_hu := two; c_hv := pzero |} /\
  vnan {| c_w := pzero; c_hu := two; c_hv := pzero |} = false.
Proof.
  assert (H1 : nth_error [wet_face; still_face] 1 = Some still_face) by reflexivity.
  assert (H2 : (a_plus still_face = a_minus still_face /\
                is_finite (a_plus still_face) = true /\ ltb pzero (pow2 (-20)) = true)
               \/ ltb (sub (a_plus still_face) (a_minus still_face)) (pow2 (-20)) = true)
    by (left; repeat split).
  destruct (@central_scheme_degenerate_mean (pow2 (-20)) [wet_face; still_face] 1
              still_face H1 H2)
    as [H3 H4].
  split; [ exact H1 | ]. split; [ exact H2 | ]. split.
  - exact H3.
  - exact (H4 eq_refl eq_refl).
Defined.

End KernelFacts.

(* ===================================================================== *)
(** * Properties of the ghost-cell updaters *)
(* ===================================================================== *)

Module GhostFacts.

Import BCs GhostModel.

Lemma margin_set_margin_ne o o' m c :
  o' <> o -> margin o (set_margin o' m c) = margin o c.
Proof. destruct o, o'; intros Hne; try reflexivity; now elim Hne. Qed.

Lemma ghost_imap_from o (w : nat -> component -> component) :
  (forall k c, margin o (w k c) = margin o c) ->
  forall Q i, ghost o (imap_from w i Q) = ghost o Q.
Proof.
  intros Hw. unfold ghost. induction Q as [ | c Q IH]; intros i; simpl.
  - reflexivity.
  - now rewrite Hw, IH.
Qed.

Lemma ghost_update_at o (w : component -> component) :
  (forall c, margin o (w c) = margin o c) ->
  forall Q k, ghost o (update_at w k Q) = ghost o Q.
Proof.
  intros Hw. unfold ghost. induction Q as [ | c Q IH]; intros k; simpl.
  - reflexivity.
  - destruct k as [ | k]; simpl.
    + now rewrite Hw.
    + now rewrite IH.
Qed.

Lemma update_at_app {A} (w : A -> A) (pre : list A) x post :
  update_at w (length pre) (pre ++ x :: post) = pre ++ w x :: post.
Proof. induction pre as [ | y pre IH]; simpl; [ reflexivity | now rewrite IH ]. Qed.

(** Updating the components one after the other, each by its own rule, is
    the indexed map over all of them. *)
Lemma fold_update_at {A} (w : nat -> A -> A) :
  forall post pre,
    fold_left (fun Q j => update_at (w j) j Q) (seq (length pre) (length post))
      (pre ++ post)
    = pre ++ imap_from w (length pre) post.
Proof.
  induction post as [ | x post IH]; intros pre; simpl.
  - reflexivity.
  - rewrite update_at_app.
    replace (pre ++ w (length pre) x :: post)
      with ((pre ++ [w (length pre) x]) ++ post) by now rewrite <- app_assoc.
    replace (S (length pre)) with (length (pre ++ [w (length pre) x]))
      by (rewrite length_app; simpl; lia).
    rewrite IH, <- app_assoc. reflexivity.
Qed.

Section Rules.

Variable Topography : Type.
Variable outflow_values : Topography -> orientation -> nat -> component -> NP.arr2.
Variable linear_extrap_values : Topography -> orientation -> nat -> component -> NP.arr2.
Variable const_values : Topography -> bcv -> orientation -> nat -> component -> NP.arr2.
Variable inflow_values : Topography -> bcv -> orientation -> nat -> component -> NP.arr2.

Let run := exec outflow_values linear_extrap_values const_values inflow_values.
Let wr := write outflow_values linear_extrap_values const_values inflow_values.

(** An update writes the ghost margin of its own edge only. *)
Lemma exec_frame topo f o Q :
  func_ornt f <> o -> ghost o (run topo f Q) = ghost o Q.
Proof.
  intros Hne. unfold run, exec.
  destruct (func_components f =? -1)%Z.
  - apply ghost_imap_from. intros k c. now apply margin_set_margin_ne.
  - destruct (func_components f <? 0)%Z; [ reflexivity | ].
    apply ghost_update_at. intros c. now apply margin_set_margin_ne.
Qed.

(** The update of one component: [components] is its index. *)
Lemma exec_component topo f (j : nat) Q :
  func_components f = Z.of_nat j ->
  run topo f Q = update_at (wr topo f j) j Q.
Proof.
  intros Hc. unfold run, exec. rewrite Hc.
  replace (Z.of_nat j =? -1)%Z with false by (symmetry; apply Z.eqb_neq; lia).
  replace (Z.of_nat j <? 0)%Z with false by (symmetry; apply Z.ltb_ge; lia).
  now rewrite Nat2Z.id.
Qed.

(** The collapsed update: [components] is [-1]. *)
Lemma exec_all topo f Q :
  func_components f = (-1)%Z -> run topo f Q = imap_from (wr topo f) 0 Q.
Proof. intros Hc. unfold run, exec. now rewrite Hc. Qed.

End Rules.

End GhostFacts.

Module BCFacts.

Import BCs.

Lemma edges_itemgetter bcs o bc : In (o, bc) (edges bcs) -> bc = itemgetter bcs o.
Proof.
  unfold edges. simpl.
  intros [H | [H | [H | [H | []]]]]; injection H as <- <-; reflexivity.
Qed.

Lemma In_edges bcs o : In (o, itemgetter bcs o) (edges bcs).
Proof. unfold edges. destruct o; simpl; tauto. Qed.

Lemma set_len_nonempty {A} (eq : A -> A -> bool) l : set_len eq l = 1 -> l <> [].
Proof. intros H ->. discriminate H. Qed.

Section Setup.

Variables States Topography : Type.
Variable bcs_check : BCConfig -> result unit.
Variable states_check : States -> result unit.
Variable b : implementation.

Lemma dispatch_ornt o i t v f : dispatch b o i t v = Ok f -> func_ornt f = o.
Proof.
  unfold dispatch, factory.
  repeat (destruct (String.eqb t _);
          [ destruct (imported b _);
            [ intros H; injection H as <-; reflexivity | discriminate ] | ]).
  discriminate.
Qed.

Lemma dispatch_unknown o i t v :
  dispatched t = false -> dispatch b o i t v = Raise (ValueError (t ++ " is not recognized.")).
Proof.
  unfold dispatched, dispatch. intros H.
  apply orb_false_elim in H. destruct H as [H H4].
  apply orb_false_elim in H. destruct H as [H H3].
  apply orb_false_elim in H. destruct H as [H1 H2].
  now rewrite H1, H2, H3, H4.
Qed.

Lemma component_loop_spec o :
  forall tv i funcs fs,
    component_loop b o i tv funcs = Ok fs ->
    exists new, fs = funcs ++ new /\ Forall (fun f => func_ornt f = o) new.
Proof.
  induction tv as [ | [t v] tv IH]; intros i funcs fs; simpl.
  - intros H. injection H as <-. exists []. now rewrite app_nil_r.
  - destruct (dispatch b o i t v) as [f | e] eqn:Hd; simpl; [ | discriminate ].
    intros H. apply IH in H. destruct H as (new & -> & Hall).
    exists (f :: new). rewrite <- app_assoc. split; [ reflexivity | ].
    constructor; [ now apply dispatch_ornt in Hd | exact Hall ].
Qed.

(** The loop over the components raises at a policy it does not know. *)
Lemma component_loop_unknown o :
  forall tv i funcs,
    existsb (fun p => negb (dispatched (fst p))) tv = true ->
    is_ok (component_loop b o i tv funcs) = false.
Proof.
  induction tv as [ | [t v] tv IH]; intros i funcs; simpl.
  - discriminate.
  - destruct (dispatched t) eqn:Ht; simpl.
    + intros H. destruct (dispatch b o i t v); simpl; [ now apply IH | reflexivity ].
    + intros _. now rewrite dispatch_unknown.
Qed.

Lemma edge_body_periodic o bc rest funcs :
  types bc = "periodic"%string :: rest -> edge_body b o bc funcs = Ok funcs.
Proof. intros H. unfold edge_body. now rewrite H. Qed.

Lemma edge_body_spec o bc funcs fs :
  edge_body b o bc funcs = Ok fs ->
  exists new,
    fs = funcs ++ new /\
    Forall (fun f => func_ornt f = o) new /\
    (hd_error (types bc) = Some "periodic"%string -> new = []).
Proof.
  unfold edge_body. destruct (types bc) as [ | t0 ts]; [ discriminate | ].
  destruct (String.eqb t0 "periodic") eqn:Hp.
  - intros H. injection H as <-. exists []. rewrite app_nil_r. repeat split; constructor.
  - intros H. apply component_loop_spec in H. destruct H as (new & -> & Hall).
    exists new. repeat split; try assumption.
    simpl. intros Hhd. injection Hhd as ->. discriminate Hp.
Qed.

Lemma edge_loop_spec :
  forall es funcs fs,
    edge_loop b es funcs = Ok fs ->
    exists new,
      fs = funcs ++ new /\
      Forall (fun f => exists bc, In (func_ornt f, bc) es /\
                        hd_error (types bc) <> Some "periodic"%string) new.
Proof.
  induction es as [ | [o bc] es IH]; intros funcs fs; simpl.
  - intros H. injection H as <-. exists []. rewrite app_nil_r. split; constructor.
  - destruct (edge_body b o bc funcs) as [fs1 | e] eqn:Hb; simpl; [ | discriminate ].
    intros H. apply IH in H. destruct H as (new2 & -> & Hall2).
    apply edge_body_spec in Hb. destruct Hb as (new1 & -> & Hall1 & Hper).
    exists (new1 ++ new2). rewrite <- app_assoc. split; [ reflexivity | ].
    apply Forall_app. split.
    + destruct (String.eqb (hd EmptyString (types bc)) "periodic") eqn:Hp.
      * destruct (types bc) as [ | t0 ts]; [ discriminate Hp | ].
        simpl in Hp. apply String.eqb_eq in Hp. subst t0.
        rewrite (Hper eq_refl). constructor.
      * apply Forall_forall. intros f Hf.
        rewrite Forall_forall in Hall1. rewrite (Hall1 f Hf).
        exists bc. split; [ now left | ].
        intros Hhd. destruct (types bc) as [ | t0 ts]; [ discriminate Hhd | ].
        injection Hhd as ->. discriminate Hp.
    + apply Forall_forall. intros f Hf.
      rewrite Forall_forall in Hall2. destruct (Hall2 f Hf) as (bc' & Hin & Hne).
      exists bc'. split; [ now right | exact Hne ].
Qed.

(** The loop over the edges raises when the loop over the components of one
    of its edges does. *)
Lemma edge_loop_raise :
  forall es funcs o bc,
    In (o, bc) es ->
    (forall funcs', is_ok (edge_body b o bc funcs') = false) ->
    is_ok (edge_loop b es funcs) = false.
Proof.
  induction es as [ | [o' bc'] es IH]; intros funcs o bc; simpl.
  - intros [].
  - intros [Heq | Hin] Hbad.
    + injection Heq as -> ->.
      specialize (Hbad funcs). destruct (edge_body b o bc funcs); [ discriminate | reflexivity ].
    + destruct (edge_body b o' bc' funcs); simpl; [ | reflexivity ].
      now apply (IH _ o bc).
Qed.

(** No function is installed for an edge whose first policy is
    [periodic]. *)
Lemma get_ghost_cell_updaters_no_periodic (st : States) (topo : Topography) bcs u :
  get_ghost_cell_updaters bcs_check states_check b st topo bcs = Ok u ->
  Forall (fun f => hd_error (types (itemgetter bcs (func_ornt f)))
                   <> Some "periodic"%string) (funcs u).
Proof.
  unfold get_ghost_cell_updaters.
  destruct (bcs_check bcs); cbn [rbind]; [ | discriminate ].
  destruct (edge_loop b (edges bcs) []) as [fs | e] eqn:Hl; cbn [rbind]; [ | discriminate ].
  destruct (states_check st); cbn [rbind]; [ | discriminate ].
  intros H. injection H as <-. simpl.
  apply edge_loop_spec in Hl. destruct Hl as (new & -> & Hall). simpl.
  apply Forall_forall. intros f Hf.
  rewrite Forall_forall in Hall. destruct (Hall f Hf) as (bc & Hin & Hne).
  now rewrite <- (edges_itemgetter Hin).
Qed.

(** [get_ghost_cell_updaters] raises when an edge that is not skipped as
    periodic declares a policy outside outflow, extrap, const and inflow:
    [bcs.check()] raises, or the [else] branch does. *)
Lemma get_ghost_cell_updaters_unknown (st : States) (topo : Topography) bcs o t0 ts :
  types (itemgetter bcs o) = t0 :: ts ->
  String.eqb t0 "periodic" = false ->
  existsb (fun p => negb (dispatched (fst p)))
    (combine (types (itemgetter bcs o)) (values (itemgetter bcs o))) = true ->
  is_ok (get_ghost_cell_updaters bcs_check states_check b st topo bcs) = false.
Proof.
  intros Ht Hp Hbad. unfold get_ghost_cell_updaters.
  destruct (bcs_check bcs); cbn [rbind]; [ | reflexivity ].
  assert (Hl : is_ok (edge_loop b (edges bcs) []) = false).
  { apply (edge_loop_raise _ _ o (itemgetter bcs o) (In_edges bcs o)).
    intros funcs'. unfold edge_body. rewrite Ht, Hp, <- Ht.
    now apply component_loop_unknown. }
  destruct (edge_loop b (edges bcs) []); [ discriminate Hl | reflexivity ].
Qed.

(** [init_bc] never raises, whatever the policy strings. *)
Lemma init_edge_total vec o bc acc : exists r, init_edge vec o bc acc = Ok r.
Proof.
  unfold init_edge.
  destruct (vec && (set_len String.eqb (types bc) =? 1)%nat
            && (set_len bcv_eqb (values bc) =? 1)%nat) eqn:Hc.
  - apply andb_prop in Hc. destruct Hc as [Hc Hv].
    apply andb_prop in Hc. destruct Hc as [_ Ht].
    apply Nat.eqb_eq, set_len_nonempty in Ht.
    apply Nat.eqb_eq, set_len_nonempty in Hv.
    destruct (types bc); [ now elim Ht | ].
    destruct (values bc); [ now elim Hv | ].
    eexists. reflexivity.
  - eexists. reflexivity.
Qed.

Lemma init_loop_total vec :
  forall es acc, exists r, init_loop vec es acc = Ok r.
Proof.
  induction es as [ | [o bc] es IH]; intros acc; simpl.
  - eexists. reflexivity.
  - destruct (init_edge_total vec o bc acc) as [r ->]. simpl. apply IH.
Qed.

Lemma init_bc_total (st : States) (topo : Topography) config :
  exists r, init_bc st topo config = Ok r.
Proof. unfold init_bc. apply init_loop_total. Qed.

End Setup.

End BCFacts.

Module InitBcFacts.

Import BCs GhostModel.

Lemma set_len_repeat {A} (eq : A -> A -> bool) x n :
  eq x x = true -> set_len eq (repeat x (S n)) = 1.
Proof.
  intros Hx. induction n as [ | n IH].
  - reflexivity.
  - change (repeat x (S (S n))) with (x :: repeat x (S n)).
    cbn [set_len]. simpl existsb. rewrite Hx. simpl. exact IH.
Qed.

Lemma combine_repeat {A B} (x : A) (y : B) n :
  combine (repeat x n) (repeat y n) = repeat (x, y) n.
Proof. induction n as [ | n IH]; simpl; [ reflexivity | now rewrite IH ]. Qed.

Lemma bc_helper_installed o t v c fs pr :
  bc_helper o t v c (fs, pr)
  = match installed o t v c with
    | Some f => (fs ++ [f], pr)
    | None => (fs, pr ++ [unsupported_message])
    end.
Proof.
  unfold bc_helper, installed.
  destruct (String.eqb t "extrap"); [ reflexivity | ].
  destruct (String.eqb t "const"); reflexivity.
Qed.

(** The per-component loop over an edge with one policy and one value. *)
Lemma helper_loop_repeat_some o t v (F : Z -> bc_func) :
  (forall c, installed o t v c = Some (F c)) ->
  forall k i fs pr,
    helper_loop o i (repeat (t, v) k) (fs, pr)
    = (fs ++ map (fun j => F (Z.of_nat j)) (seq i k), pr).
Proof.
  intros HF. induction k as [ | k IH]; intros i fs pr; cbn [helper_loop repeat seq map].
  - now rewrite app_nil_r.
  - rewrite bc_helper_installed, HF, IH, <- app_assoc. reflexivity.
Qed.

Lemma helper_loop_repeat_none o t v :
  (forall c, installed o t v c = None) ->
  forall k i fs pr,
    helper_loop o i (repeat (t, v) k) (fs, pr)
    = (fs, pr ++ repeat unsupported_message k).
Proof.
  intros HF. induction k as [ | k IH]; intros i fs pr; cbn [helper_loop repeat seq map].
  - now rewrite app_nil_r.
  - rewrite bc_helper_installed, HF, IH, <- app_assoc. reflexivity.
Qed.

End InitBcFacts.

Module GhostCellUpdaters.

Import BCs GhostModel.

Section Installed.

Variables States Topography : Type.
Variable bcs_check : BCConfig -> result unit.
Variable states_check : States -> result unit.
Variable b : implementation.

(** C9.  [get_ghost_cell_updaters] decides the periodic case on the first
    component alone: when the first policy of an edge is [periodic], the
    body of the loop leaves [funcs] as it is whatever the remaining policy
    strings and values are, and the updater that is returned holds no
    function for that edge. *)
Theorem periodic_decided_by_first_component :
  forall (st : States) (topo : Topography) (bcs : BCConfig) (o : orientation)
         (rest : list string) (u : updater),
    types (itemgetter bcs o) = "periodic"%string :: rest ->
    get_ghost_cell_updaters bcs_check states_check b st topo bcs = Ok u ->
    (forall funcs0, edge_body b o (itemgetter bcs o) funcs0 = Ok funcs0) /\
    Forall (fun f => func_ornt f <> o) (funcs u).
Proof.
  intros st topo bcs o rest u Hper Hget. split.
  - intros funcs0. now apply (BCFacts.edge_body_periodic b o _ funcs0 Hper).
  - apply BCFacts.get_ghost_cell_updaters_no_periodic in Hget.
    apply Forall_forall. intros f Hf Heq.
    rewrite Forall_forall in Hget. apply (Hget f Hf).
    now rewrite Heq, Hper.
Qed.

(** What one installed function does to the captured [States], and the
    ghost margin of an edge as an observation of the [States]. *)
Variable exec : bc_func -> States -> States.
Variable Margin : Type.
Variable ghost_margin : orientation -> States -> Margin.

(** Section 4.6: an update writes into the ghost margin of its own edge. *)
Hypothesis exec_own_edge :
  forall f o s, func_ornt f <> o -> ghost_margin o (exec f s) = ghost_margin o s.

Lemma call_updater_frame o :
  forall fs s,
    Forall (fun f => func_ornt f <> o) fs ->
    ghost_margin o (call_updater exec {| funcs := fs |} s) = ghost_margin o s.
Proof.
  unfold call_updater. simpl.
  induction fs as [ | f fs IH]; intros s Hall; simpl.
  - reflexivity.
  - inversion Hall as [ | ? ? Hf Hfs]; subst.
    rewrite (IH _ Hfs). now apply exec_own_edge.
Qed.

(** C6.  For an edge whose policy is [periodic], the updater composed by
    [get_ghost_cell_updaters] holds no function for that edge, and calling
    it leaves the ghost margin of that edge as it was. *)
Theorem periodic_edge_untouched :
  forall (st : States) (topo : Topography) (bcs : BCConfig) (o : orientation)
         (u : updater) (soln : States),
    types (itemgetter bcs o) <> [] ->
    Forall (fun t => t = "periodic"%string) (types (itemgetter bcs o)) ->
    get_ghost_cell_updaters bcs_check states_check b st topo bcs = Ok u ->
    Forall (fun f => func_ornt f <> o) (funcs u) /\
    ghost_margin o (call_updater exec u soln) = ghost_margin o soln.
Proof.
  intros st topo bcs o u soln Hne Hall Hget.
  assert (Hno : Forall (fun f => func_ornt f <> o) (funcs u)).
  { apply BCFacts.get_ghost_cell_updaters_no_periodic in Hget.
    apply Forall_forall. intros f Hf Heq.
    rewrite Forall_forall in Hget. apply (Hget f Hf). rewrite Heq.
    destruct (types (itemgetter bcs o)) as [ | t0 ts]; [ now elim Hne | ].
    inversion Hall; subst. reflexivity. }
  split; [ exact Hno | ].
  destruct u as [fs]. now apply call_updater_frame.
Qed.

End Installed.

Lemma update_at_ext {A} (w w' : A -> A) :
  (forall c, w c = w' c) -> forall Q k, update_at w k Q = update_at w' k Q.
Proof.
  intros Hw. induction Q as [ | c Q IH]; intros k; simpl.
  - reflexivity.
  - destruct k as [ | k]; [ now rewrite Hw | now rewrite IH ].
Qed.

Section Vectorized.

Variable Topography : Type.
Variable outflow_values : Topography -> orientation -> nat -> component -> NP.arr2.
Variable linear_extrap_values : Topography -> orientation -> nat -> component -> NP.arr2.
Variable const_values : Topography -> bcv -> orientation -> nat -> component -> NP.arr2.
Variable inflow_values : Topography -> bcv -> orientation -> nat -> component -> NP.arr2.

Let run := exec outflow_values linear_extrap_values const_values inflow_values.
Let wr := write outflow_values linear_extrap_values const_values inflow_values.

(** The functions of the per-component loop, run in order, do what the
    collapsed function does. *)
Lemma loop_equals_collapsed topo (F : Z -> bc_func) :
  (forall c, func_components (F c) = c) ->
  (forall c k x, wr topo (F c) k x = wr topo (F (-1)%Z) k x) ->
  forall Q : States,
    fold_left (fun s f => run topo f s)
      (map (fun j => F (Z.of_nat j)) (seq 0 (length Q))) Q
    = run topo (F (-1)%Z) Q.
Proof.
  intros Hc Hw Q.
  assert (Hfold : forall l (Q' : States),
    fold_left (fun s f => run topo f s) (map (fun j => F (Z.of_nat j)) l) Q'
    = fold_left (fun s j => update_at (wr topo (F (-1)%Z) j) j s) l Q').
  { induction l as [ | j l IH]; intros Q'; simpl; [ reflexivity | ].
    rewrite IH. f_equal.
    unfold run. rewrite (GhostFacts.exec_component _ _ _ _ topo (F (Z.of_nat j)) j Q')
      by apply Hc.
    apply update_at_ext. intros x. apply Hw. }
  rewrite Hfold.
  unfold run. rewrite (GhostFacts.exec_all _ _ _ _ topo (F (-1)%Z) Q) by apply Hc.
  exact (GhostFacts.fold_update_at (wr topo (F (-1)%Z)) Q []).
Qed.

Lemma imap_from_length {A} (w : nat -> A -> A) :
  forall l i, length (imap_from w i l) = length l.
Proof. induction l as [ | x l IH]; intros i; simpl; [ reflexivity | now rewrite IH ]. Qed.

Lemma update_at_length {A} (w : A -> A) :
  forall l k, length (update_at w k l) = length l.
Proof.
  induction l as [ | x l IH]; intros k; simpl; [ reflexivity | ].
  destruct k; simpl; [ reflexivity | now rewrite IH ].
Qed.

Lemma exec_length topo f (Q : States) : length (run topo f Q) = length Q.
Proof.
  unfold run, exec.
  destruct (func_components f =? -1)%Z; [ apply imap_from_length | ].
  destruct (func_components f <? 0)%Z; [ reflexivity | apply update_at_length ].
Qed.

Lemma call_updater_length topo :
  forall fs (Q : States),
    length (call_updater (run topo) {| funcs := fs |} Q) = length Q.
Proof.
  unfold call_updater. simpl.
  induction fs as [ | f fs IH]; intros Q; simpl; [ reflexivity | ].
  now rewrite IH, exec_length.
Qed.

(** C7 (as amended).  For an edge whose components all declare the same
    policy string and the same value, [init_bc] with [vectorize_bc] on
    installs at most one function: the collapsed one (component [-1]) when
    the policy is [extrap] or [const], none for any other policy.  What it
    installs does to the state, and so to the ghost margin, what the
    functions installed with [vectorize_bc] off do; the same holds for the
    whole lists [funcs] after the edge. *)
Theorem init_bc_vectorized_equivalent :
  forall (topo : Topography) (o : orientation) (t : string) (v : bcv) (n : nat)
         (Q : States) af ap fv pv fs ps,
    bcv_eqb v v = true ->
    length Q = S n ->
    init_edge true o {| types := repeat t (S n); values := repeat v (S n) |} (af, ap)
    = Ok (fv, pv) ->
    init_edge false o {| types := repeat t (S n); values := repeat v (S n) |} (af, ap)
    = Ok (fs, ps) ->
    exists newv news,
      fv = af ++ newv /\ fs = af ++ news /\
      newv = match installed o t v (-1) with Some f => [f] | None => [] end /\
      (t = "extrap"%string \/ t = "const"%string ->
       exists f, newv = [f] /\ func_ornt f = o /\ func_components f = (-1)%Z) /\
      call_updater (run topo) {| funcs := newv |} Q
      = call_updater (run topo) {| funcs := news |} Q /\
      call_updater (run topo) {| funcs := fv |} Q
      = call_updater (run topo) {| funcs := fs |} Q.
Proof.
  intros topo o t v n Q af ap fv pv fs ps Hv Hlen Hvec Hloop.
  unfold init_edge in Hvec, Hloop. cbn [types values andb] in Hvec, Hloop.
  rewrite (InitBcFacts.set_len_repeat String.eqb t n (String.eqb_refl t)) in Hvec.
  rewrite (InitBcFacts.set_len_repeat bcv_eqb v n Hv) in Hvec.
  cbn [Nat.eqb andb repeat] in Hvec.
  rewrite InitBcFacts.bc_helper_installed in Hvec.
  rewrite InitBcFacts.combine_repeat in Hloop.
  assert (Hsame : exists newv news,
    fv = af ++ newv /\ fs = af ++ news /\
    newv = match installed o t v (-1) with Some f => [f] | None => [] end /\
    (t = "extrap"%string \/ t = "const"%string ->
     exists f, newv = [f] /\ func_ornt f = o /\ func_components f = (-1)%Z) /\
    forall Q' : States, length Q' = S n ->
      call_updater (run topo) {| funcs := newv |} Q'
      = call_updater (run topo) {| funcs := news |} Q').
  { unfold call_updater. cbn [funcs].
    unfold installed in *.
    destruct (String.eqb t "extrap") eqn:He.
    - injection Hvec as <- <-.
      rewrite (InitBcFacts.helper_loop_repeat_some o t v (linear_extrap_bc_factory o))
        in Hloop by (intros c; unfold installed; now rewrite He).
      injection Hloop as <- <-.
      do 2 eexists. split; [ reflexivity | ]. split; [ reflexivity | ].
      split; [ reflexivity | ]. split; [ intros _; eexists; repeat split | ].
      intros Q' HQ'.
      change (run topo (linear_extrap_bc_factory o (-1)) Q'
              = fold_left (fun s f => run topo f s)
                  (map (fun j => linear_extrap_bc_factory o (Z.of_nat j)) (seq 0 (S n)))
                  Q').
      rewrite <- HQ'.
      symmetry. apply (loop_equals_collapsed topo (linear_extrap_bc_factory o));
        reflexivity.
    - destruct (String.eqb t "const") eqn:Hc.
      + injection Hvec as <- <-.
        rewrite (InitBcFacts.helper_loop_repeat_some o t v
                   (fun c => const_val_bc_factory o c v))
          in Hloop by (intros c; unfold installed; now rewrite He, Hc).
        injection Hloop as <- <-.
        do 2 eexists. split; [ reflexivity | ]. split; [ reflexivity | ].
        split; [ reflexivity | ]. split; [ intros _; eexists; repeat split | ].
        intros Q' HQ'.
        change (run topo (const_val_bc_factory o (-1) v) Q'
                = fold_left (fun s f => run topo f s)
                    (map (fun j => const_val_bc_factory o (Z.of_nat j) v) (seq 0 (S n)))
                    Q').
        rewrite <- HQ'.
        symmetry.
        apply (loop_equals_collapsed topo (fun c => const_val_bc_factory o c v));
          reflexivity.
      + injection Hvec as <- <-.
        rewrite (InitBcFacts.helper_loop_repeat_none o t v) in Hloop
          by (intros c; unfold installed; now rewrite He, Hc).
        injection Hloop as <- <-.
        exists [], []. rewrite app_nil_r.
        split; [ reflexivity | ]. split; [ reflexivity | ].
        split; [ reflexivity | ]. split; [ | reflexivity ].
        intros [-> | ->]; discriminate. }
  destruct Hsame as (newv & news & -> & -> & Hnew & Hone & Heff).
  exists newv, news.
  split; [ reflexivity | ]. split; [ reflexivity | ].
  split; [ exact Hnew | ]. split; [ exact Hone | ].
  split; [ now apply Heff | ].
  unfold call_updater. cbn [funcs]. rewrite !fold_left_app.
  apply (Heff (fold_left (fun s f => run topo f s) af Q)).
  rewrite <- Hlen. apply (call_updater_length topo af Q).
Qed.

End Vectorized.

Import Examples.

Lemma periodic_decided_by_first_component_witness :
  types (itemgetter mixed_bcs west) = "periodic"%string :: ["bogus"; "const"]%string /\
  get_ghost_cell_updaters no_check no_check cython tt tt mixed_bcs
  = Ok {| funcs := [linear_extrap_bc_factory east 0; linear_extrap_bc_factory east 1;
                    linear_extrap_bc_factory east 2; outflow_bc_factory south 0;
                    outflow_bc_factory south 1; outflow_bc_factory south 2;
                    const_val_bc_factory north 0 (Some one);
                    const_val_bc_factory north 1 (Some one);
                    const_val_bc_factory north 2 (Some one)] |} /\
  (forall funcs0, edge_body cython west (itemgetter mixed_bcs west) funcs0 = Ok funcs0) /\
  Forall (fun f => func_ornt f <> west)
    [linear_extrap_bc_factory east 0; linear_extrap_bc_factory east 1;
     linear_extrap_bc_factory east 2; outflow_bc_factory south 0;
     outflow_bc_factory south 1; outflow_bc_factory south 2;
     const_val_bc_factory north 0 (Some one);
     const_val_bc_factory north 1 (Some one);
     const_val_bc_factory north 2 (Some one)].
Proof.
  assert (H1 : types (itemgetter mixed_bcs west)
               = "periodic"%string :: ["bogus"; "const"]%string) by reflexivity.
  assert (H2 : get_ghost_cell_updaters no_check no_check cython tt tt mixed_bcs
               = Ok {| funcs := [linear_extrap_bc_factory east 0;
                                 linear_extrap_bc_factory east 1;
                                 linear_extrap_bc_factory east 2;
                                 outflow_bc_factory south 0;
                                 outflow_bc_factory south 1;
                                 outflow_bc_factory south 2;
                                 const_val_bc_factory north 0 (Some one);
                                 const_val_bc_factory north 1 (Some one);
                                 const_val_bc_factory north 2 (Some one)] |})
    by reflexivity.
  split; [ exact H1 | ]. split; [ exact H2 | ].
  exact (@periodic_decided_by_first_component unit unit no_check no_check cython
           tt tt mixed_bcs west _ _ H1 H2).
Defined.

Lemma periodic_edge_untouched_witness :
  types (itemgetter sample_bcs west) <> [] /\
  Forall (fun t => t = "periodic"%string) (types (itemgetter sample_bcs west)) /\
  get_ghost_cell_updaters no_check no_check cython sample_Q pzero sample_bcs
  = Ok {| funcs := [outflow_bc_factory south 0; outflow_bc_factory south 1;
                    outflow_bc_factory south 2;
                    const_val_bc_factory north 0 (Some one);
                    const_val_bc_factory north 1 (Some one);
                    const_val_bc_factory north 2 (Some one)] |} /\
  Forall (fun f => func_ornt f <> west)
    [outflow_bc_factory south 0; outflow_bc_factory south 1;
     outflow_bc_factory south 2;
     const_val_bc_factory north 0 (Some one);
     const_val_bc_factory north 1 (Some one);
     const_val_bc_factory north 2 (Some one)] /\
  ghost west
    (call_updater (sample_exec pzero)
       {| funcs := [outflow_bc_factory south 0; outflow_bc_factory south 1;
                    outflow_bc_factory south 2;
                    const_val_bc_factory north 0 (Some one);
                    const_val_bc_factory north 1 (Some one);
                    const_val_bc_factory north 2 (Some one)] |} sample_Q)
  = ghost west sample_Q.
Proof.
  assert (H1 : types (itemgetter sample_bcs west) <> []) by discriminate.
  assert (H2 : Forall (fun t => t = "periodic"%string)
                 (types (itemgetter sample_bcs west)))
    by (repeat constructor).
  assert (H3 : get_ghost_cell_updaters no_check no_check cython sample_Q pzero sample_bcs
               = Ok {| funcs := [outflow_bc_factory south 0; outflow_bc_factory south 1;
                                 outflow_bc_factory south 2;
                                 const_val_bc_factory north 0 (Some one);
                                 const_val_bc_factory north 1 (Some one);
                                 const_val_bc_factory north 2 (Some one)] |})
    by reflexivity.
  split; [ exact H1 | ]. split; [ exact H2 | ]. split; [ exact H3 | ].
  exact (@periodic_edge_untouched States f64 no_check no_check cython
           (sample_exec pzero) (list NP.arr2) ghost
           (fun f o s => GhostFacts.exec_frame sample_outflow sample_extrap
                           sample_const sample_inflow pzero f s (o := o))
           sample_Q pzero sample_bcs west _ sample_Q H1 H2 H3).
Defined.

Lemma init_bc_vectorized_equivalent_witness :
  bcv_eqb None None = true /\
  length sample_Q = 3 /\
  init_edge true west (edge3 "extrap" None) ([outflow_bc_factory south 0], [])
  = Ok ([outflow_bc_factory south 0; linear_extrap_bc_factory west (-1)], []) /\
  init_edge false west (edge3 "extrap" None) ([outflow_bc_factory south 0], [])
  = Ok ([outflow_bc_factory south 0; linear_extrap_bc_factory west 0;
         linear_extrap_bc_factory west 1; linear_extrap_bc_factory west 2], []) /\
  exists newv news,
    [outflow_bc_factory south 0; linear_extrap_bc_factory west (-1)]
    = [outflow_bc_factory south 0] ++ newv /\
    [outflow_bc_factory south 0; linear_extrap_bc_factory west 0;
     linear_extrap_bc_factory west 1; linear_extrap_bc_factory west 2]
    = [outflow_bc_factory south 0] ++ news /\
    newv = match installed west "extrap" None (-1) with Some f => [f] | None => [] end /\
    ("extrap"%string = "extrap"%string \/ "extrap"%string = "const"%string ->
     exists f, newv = [f] /\ func_ornt f = west /\ func_components f = (-1)%Z) /\
    call_updater (sample_exec pzero) {| funcs := newv |} sample_Q
    = call_updater (sample_exec pzero) {| funcs := news |} sample_Q /\
    call_updater (sample_exec pzero)
      {| funcs := [outflow_bc_factory south 0; linear_extrap_bc_factory west (-1)] |}
      sample_Q
    = call_updater (sample_exec pzero)
        {| funcs := [outflow_bc_factory south 0; linear_extrap_bc_factory west 0;
                     linear_extrap_bc_factory west 1; linear_extrap_bc_factory west 2] |}
        sample_Q.
Proof.
  assert (H1 : bcv_eqb None None = true) by reflexivity.
  assert (H2 : length sample_Q = 3) by reflexivity.
  assert (H3 : init_edge true west (edge3 "extrap" None) ([outflow_bc_factory south 0], [])
               = Ok ([outflow_bc_factory south 0; linear_extrap_bc_factory west (-1)], []))
    by reflexivity.
  assert (H4 : init_edge false west (edge3 "extrap" None)
                 ([outflow_bc_factory south 0], [])
               = Ok ([outflow_bc_factory south 0; linear_extrap_bc_factory west 0;
                      linear_extrap_bc_factory west 1; linear_extrap_bc_factory west 2],
                     [])) by reflexivity.
  split; [ exact H1 | ]. split; [ exact H2 | ].
  split; [ exact H3 | ]. split; [ exact H4 | ].
  exact (@init_bc_vectorized_equivalent f64 sample_outflow sample_extrap sample_const
           sample_inflow pzero west "extrap" None 2 sample_Q _ _ _ _ _ _ H1 H2 H3 H4).
Defined.

(** C7 as stated fails: for an edge whose three components declare
    [outflow], [init_bc] with [vectorize_bc] on installs no function at all;
    it prints one line. *)
Lemma init_bc_vectorized_equivalent_counterexample :
  init_edge true south (edge3 "outflow" None) ([], [])
  = Ok ([], [unsupported_message]) /\
  ~ (exists f pr, init_edge true south (edge3 "outflow" None) ([], []) = Ok ([f], pr)).
Proof.
  split; [ reflexivity | ].
  intros (f & pr & H). discriminate H.
Qed.

(** C3, on the code.  [init_bc], and [setup_bc] which wraps it, return for
    every configuration: a policy string they do not know is answered with a
    printed line, and the pair is skipped.  With the policy string [bogus]
    for the first component of the west edge both modes of [init_bc] return
    the functions of the other pairs and one printed line, while
    [get_ghost_cell_updaters] raises [ValueError] on the same
    configuration, whichever factories are imported. *)
Theorem init_bc_unknown_policy_not_raised :
  (forall (States Topography : Type) (st : States) (topo : Topography)
          (config : Config),
      exists r, init_bc st topo config = Ok r /\
                setup_bc st topo config = Ok ({| funcs := fst r |}, snd r)) /\
  init_bc tt tt {| config_bc := unknown_bcs; config_params_vectorize_bc := false |}
  = Ok ([linear_extrap_bc_factory west 1; const_val_bc_factory west 2 (Some one);
         linear_extrap_bc_factory east 0; linear_extrap_bc_factory east 1;
         linear_extrap_bc_factory east 2; linear_extrap_bc_factory south 0;
         linear_extrap_bc_factory south 1; linear_extrap_bc_factory south 2;
         const_val_bc_factory north 0 (Some one);
         const_val_bc_factory north 1 (Some one);
         const_val_bc_factory north 2 (Some one)],
        [unsupported_message]) /\
  init_bc tt tt {| config_bc := unknown_bcs; config_params_vectorize_bc := true |}
  = Ok ([linear_extrap_bc_factory west 1; const_val_bc_factory west 2 (Some one);
         linear_extrap_bc_factory east (-1); linear_extrap_bc_factory south (-1);
         const_val_bc_factory north (-1) (Some one)],
        [unsupported_message]) /\
  (forall b : implementation,
      get_ghost_cell_updaters no_check no_check b tt tt unknown_bcs
      = Raise (ValueError "bogus is not recognized.")).
Proof.
  split.
  - intros States Topography st topo config.
    destruct (BCFacts.init_bc_total st topo config) as [r Hr].
    exists r. split; [ exact Hr | ].
    unfold setup_bc. now rewrite Hr.
  - repeat split.
Qed.

End GhostCellUpdaters.

(* ===================================================================== *)
(** * Properties of the case-data generators *)
(* ===================================================================== *)

Module CaseFacts.

Import Cases.

Lemma set_last_snoc (l : list f64) a v : set_last (l ++ [a]) v = l ++ [v].
Proof.
  destruct l as [ | b l]; [ reflexivity | ].
  unfold set_last. change ((b :: l) ++ [a]) with (b :: (l ++ [a])).
  change (b :: (l ++ [a])) with ((b :: l) ++ [a]) at 2.
  destruct ((b :: l) ++ [a]) eqn:E; [ discriminate E | ].
  rewrite <- E. now rewrite removelast_last.
Qed.

Lemma set_last_spec (y : list f64) v :
  y <> [] -> length (set_last y v) = length y /\ last (set_last y v) pzero = v.
Proof.
  intros Hy. destruct (exists_last Hy) as (l & a & ->).
  rewrite set_last_snoc, last_last, !length_app. now split.
Qed.

Lemma centers_cons2 a b l :
  centers (a :: b :: l) = div (add a b) two :: centers (b :: l).
Proof. reflexivity. Qed.

Lemma centers_length : forall x, length (centers x) = (length x - 1)%nat.
Proof.
  induction x as [ | a [ | b l] IH]; try reflexivity.
  rewrite centers_cons2. simpl length. rewrite IH. simpl. lia.
Qed.


Lemma arange_length num : length (arange num) = Z.to_nat num.
Proof. unfold arange. now rewrite length_map, length_seq. Qed.

Lemma samples_length start stop num : length (samples start stop num) = Z.to_nat num.
Proof.
  unfold samples. cbv zeta. rewrite length_map.
  destruct (0 <? num - 1)%Z; [ destruct (eqb _ _) | ];
    now rewrite length_map, arange_length.
Qed.

Lemma linspace_samples start stop num :
  (0 <= num)%Z ->
  linspace start stop num
  = Ok (if (1 <? num)%Z then set_last (samples start stop num) stop
        else samples start stop num).
Proof.
  intros Hnum. unfold linspace, samples.
  replace (num <? 0)%Z with false by (symmetry; apply Z.ltb_ge; lia).
  reflexivity.
Qed.

(** The vertices [linspace] returns for [n] cells: one more than cells, the
    last one the upper bound itself. *)
Lemma linspace_spec lo hi (nx : Z) :
  (0 <= nx)%Z ->
  exists x,
    linspace lo hi (nx + 1) = Ok x /\
    length x = S (Z.to_nat nx) /\
    ((0 < nx)%Z -> last x pzero = hi).
Proof.
  intros Hnx. rewrite linspace_samples by lia.
  pose proof (samples_length lo hi (nx + 1)) as Hlen.
  replace (Z.to_nat (nx + 1)) with (S (Z.to_nat nx)) in Hlen by lia.
  eexists. split; [ reflexivity | ].
  destruct (1 <? nx + 1)%Z eqn:Hpos.
  - assert (Hne : samples lo hi (nx + 1) <> [])
      by (intros H; rewrite H in Hlen; discriminate Hlen).
    destruct (set_last_spec hi Hne) as [Hl Hlast].
    split; [ now rewrite Hl | intros _; exact Hlast ].
  - apply Z.ltb_ge in Hpos. split; [ exact Hlen | lia ].
Qed.


Lemma tile_nonneg {A} (row : list A) n :
  (0 <= n)%Z -> tile row n = Ok (repeat row (Z.to_nat n)).
Proof.
  intros Hn. unfold tile.
  replace (n <? 0)%Z with false by (symmetry; apply Z.ltb_ge; exact Hn). reflexivity.
Qed.









Import Examples.





End CaseFacts.


(* ===================================================================== *)
(** * Further properties of the orchestrators *)
(* ===================================================================== *)

Module RhsMore.

Import Arrays.

Lemma eqb_pinf_iff x : eqb x pinf = true <-> x = pinf.
Proof.
  split; [ | intros ->; reflexivity ].
  destruct x as [ [] | [] | | [] m e ]; simpl; try discriminate; reflexivity.
Qed.

(** A positive finite number divided by a number is a number. *)
Lemma div_pos_finite_num_not_nan x y :
  is_pos_finite x = true -> isnan y = false -> isnan (div x y) = false.
Proof.
  destruct x as [ | | | [] mx ex ]; try discriminate.
  destruct y as [ sy | sy | | sy my ey ]; simpl; try discriminate; try reflexivity.
  intros _ _. unfold SFdiv_core_binary.
  set (m' := match _ with Z0 => Zpos mx | Zpos _ => _ | Zneg _ => Z0 end).
  assert (Hm' : (0 <= m')%Z).
  { unfold m'. destruct (_ - _ - _)%Z; try lia.
    apply Z.shiftl_nonneg. lia. }
  pose proof (Z.div_pos m' (Zpos my) Hm' ltac:(lia)) as Hq.
  unfold Z.div in Hq.
  destruct (Z.div_eucl m' (Zpos my)) as [q r].
  apply F64Facts.binary_round_aux_not_nan. exact Hq.
Qed.

Lemma maximum_not_nan a b :
  isnan a = false -> isnan b = false -> isnan (NP.maximum a b) = false.
Proof. intros Ha Hb. unfold NP.maximum. now destruct (ltb b a || isnan a). Qed.

Lemma minimum_not_nan a b :
  isnan a = false -> isnan b = false -> isnan (NP.minimum a b) = false.
Proof. intros Ha Hb. unfold NP.minimum. now destruct (leb a b || isnan a). Qed.

Lemma neg_not_nan a : isnan a = false -> isnan (neg a) = false.
Proof. now destruct a. Qed.

Section Preserve.

Variables (A B C : Type) (P : A -> Prop) (Q : B -> Prop) (R : C -> Prop).
Variable f : A -> B -> result C.
Hypothesis f_keeps : forall x y c, P x -> Q y -> f x y = Ok c -> R c.

Lemma mapM_keeps_r x :
  P x -> forall ys cs, Forall Q ys -> NP.mapM (f x) ys = Ok cs -> Forall R cs.
Proof.
  intros Hx. induction ys as [ | y ys IH]; intros cs Hys; simpl.
  - intros H. injection H as <-. constructor.
  - inversion Hys as [ | ? ? Hy Hys']; subst.
    destruct (f x y) as [c | e] eqn:Hf; simpl; [ | discriminate ].
    destruct (NP.mapM (f x) ys) as [cs' | e]; simpl; [ | discriminate ].
    intros H. injection H as <-. constructor; eauto.
Qed.

Lemma mapM_keeps_l y :
  Q y -> forall xs cs, Forall P xs -> NP.mapM (fun x => f x y) xs = Ok cs -> Forall R cs.
Proof.
  intros Hy. induction xs as [ | x xs IH]; intros cs Hxs; simpl.
  - intros H. injection H as <-. constructor.
  - inversion Hxs as [ | ? ? Hx Hxs']; subst.
    destruct (f x y) as [c | e] eqn:Hf; simpl; [ | discriminate ].
    destruct (NP.mapM (fun x0 => f x0 y) xs) as [cs' | e]; simpl; [ | discriminate ].
    intros H. injection H as <-. constructor; eauto.
Qed.

Lemma zipM_keeps :
  forall xs ys cs, Forall P xs -> Forall Q ys -> NP.zipM f xs ys = Ok cs -> Forall R cs.
Proof.
  induction xs as [ | x xs IH]; intros [ | y ys] cs Hxs Hys; simpl; try discriminate.
  - intros H. injection H as <-. constructor.
  - inversion Hxs; inversion Hys; subst.
    destruct (f x y) as [c | e] eqn:Hf; simpl; [ | discriminate ].
    destruct (NP.zipM f xs ys) as [cs' | e] eqn:Hz; simpl; [ | discriminate ].
    intros H. injection H as <-. constructor; eauto.
Qed.

Lemma broadcast_keeps :
  forall xs ys cs,
    Forall P xs -> Forall Q ys -> NP.broadcast f xs ys = Ok cs -> Forall R cs.
Proof.
  intros xs ys cs Hxs Hys. unfold NP.broadcast.
  destruct xs as [ | x [ | x' xs]]; destruct ys as [ | y [ | y' ys]];
    first [ apply zipM_keeps; assumption
          | inversion Hxs; subst; eapply mapM_keeps_r; eassumption
          | inversion Hys; subst; eapply mapM_keeps_l; eassumption ].
Qed.

End Preserve.

Lemma fold_maximum_not_nan l :
  forall x, isnan x = false -> Forall (fun v => isnan v = false) l ->
            isnan (fold_left NP.maximum l x) = false.
Proof.
  induction l as [ | y l IH]; intros x Hx Hl; simpl; [ exact Hx | ].
  inversion Hl; subst. apply IH; [ now apply maximum_not_nan | assumption ].
Qed.

Lemma Forall_concat {A} (P : A -> Prop) (l : list (list A)) :
  Forall (Forall P) l -> Forall P (List.concat l).
Proof.
  induction 1 as [ | x l Hx Hl IH]; simpl; [ constructor | ].
  apply Forall_app. now split.
Qed.

Lemma max_not_nan a r : no_nan a -> NP.max a = Ok r -> isnan r = false.
Proof.
  intros Ha. unfold NP.max.
  pose proof (Forall_concat Ha) as Hc.
  destruct (List.concat a) as [ | x l]; [ discriminate | ].
  intros H. injection H as <-. inversion Hc; subst.
  now apply fold_maximum_not_nan.
Qed.

Lemma maximum2_not_nan a b c :
  no_nan a -> no_nan b -> NP.maximum2 a b = Ok c -> no_nan c.
Proof.
  unfold NP.maximum2, NP.ew2, no_nan. intros Ha Hb.
  apply (broadcast_keeps (P := Forall (fun v => isnan v = false))
           (Q := Forall (fun v => isnan v = false))); try assumption.
  intros x y r Hx Hy.
  apply (broadcast_keeps (P := fun v => isnan v = false)
           (Q := fun v => isnan v = false)); try assumption.
  intros u v w Hu Hv Huv. unfold NP.lift2 in Huv. injection Huv as <-.
  now apply maximum_not_nan.
Qed.

Lemma negative_not_nan a : no_nan a -> no_nan (NP.negative a).
Proof.
  unfold no_nan, NP.negative, NP.map2. intros Ha.
  apply Forall_map. eapply Forall_impl; [ | exact Ha ].
  intros row Hrow. apply Forall_map. eapply Forall_impl; [ | exact Hrow ].
  intros v. apply neg_not_nan.
Qed.

Section FvmProps.

Variable Other : Type.
Variables Runtime Config : Type.
Variable sources : Runtime -> list (Fvm.source Other Runtime Config).
Variable stiff_sources : Runtime -> list (Fvm.source Other Runtime Config).
Variable allow_async : Config -> bool.
Variable temporal_dt : Config -> f64.
Variable reconstruct : Fvm.States Other -> Runtime -> Config -> result (Fvm.States Other).
Variable get_local_speed : Fvm.States Other -> result (Fvm.States Other).
Variable get_discontinuous_flux : Fvm.States Other -> result (Fvm.States Other).
Variable central_scheme : Fvm.States Other -> result (Fvm.States Other).

Let prepare := Fvm.prepare_rhs sources stiff_sources allow_async temporal_dt
  reconstruct get_local_speed get_discontinuous_flux central_scheme.

Let kernels := Fvm.after_kernels reconstruct get_local_speed get_discontinuous_flux
  central_scheme.

Lemma fvm_max_speed_not_nan (f : Fvm.Face) a :
  no_nan (Fvm.plus_a f) -> no_nan (Fvm.minus_a f) ->
  Fvm.max_speed f = Ok a -> isnan a = false.
Proof.
  intros Hp Hm. unfold Fvm.max_speed.
  destruct (NP.maximum2 _ _) as [c | e] eqn:Hc; simpl; [ | discriminate ].
  apply max_not_nan.
  eapply maximum2_not_nan; [ exact Hp | apply negative_not_nan; exact Hm | exact Hc ].
Qed.

(** X1.  The comment of [torchswe/fvm.py] on [max_dt], "may be a `inf` (but never
    `NaN`)", holds when the spacings are positive and finite and no
    one-sided speed is NaN. *)
Theorem fvm_max_dt_not_nan :
  forall (st : Fvm.States Other) rt cfg st' max_dt log st4,
    run (prepare st rt cfg) = (Ok (st', max_dt), log) ->
    allow_async cfg = false ->
    kernels st rt cfg = Ok st4 ->
    is_pos_finite (snd (Fvm.domain_delta st4)) = true ->
    is_pos_finite (fst (Fvm.domain_delta st4)) = true ->
    no_nan (Fvm.plus_a (Fvm.face_x st')) -> no_nan (Fvm.minus_a (Fvm.face_x st')) ->
    no_nan (Fvm.plus_a (Fvm.face_y st')) -> no_nan (Fvm.minus_a (Fvm.face_y st')) ->
    isnan max_dt = false.
Proof.
  intros st rt cfg st' max_dt log st4 Hrun Hasync Hk Hdx Hdy Hxp Hxm Hyp Hym.
  apply FvmFacts.prepare_rhs_run in Hrun.
  destruct Hrun as (st4' & st5 & s' & (Hk' & _) & Hdt).
  fold kernels in Hk'. rewrite Hk in Hk'. injection Hk' as <-.
  unfold Fvm.spacing in Hdt. rewrite Hasync in Hdt. simpl negb in Hdt. cbv iota in Hdt.
  destruct Hdt as (amax & bmax & Ha & Hb & -> & _).
  apply minimum_not_nan; apply div_pos_finite_num_not_nan; try assumption.
  - exact (fvm_max_speed_not_nan _ Hxp Hxm Ha).
  - exact (fvm_max_speed_not_nan _ Hyp Hym Hb).
Qed.

Lemma run_sources_fail tag :
  forall (funcs : list (Fvm.source Other Runtime Config)) i j st rt cfg log st_i f e,
    Fvm.apply_sources (firstn i funcs) st rt cfg = Ok st_i ->
    nth_error funcs i = Some f ->
    f st_i rt cfg = Raise e ->
    Fvm.run_sources tag funcs j st rt cfg log
    = (Raise e, log ++ map tag (seq j (S i))).
Proof.
  induction funcs as [ | g rest IH]; intros i j st rt cfg log st_i f e Hpre Hnth Hf.
  - destruct i; discriminate Hnth.
  - destruct i as [ | i]; simpl in Hpre, Hnth.
    + injection Hpre as <-. injection Hnth as <-.
      cbn [Fvm.run_sources]. rewrite bind_run, call_run, Hf. reflexivity.
    + destruct (g st rt cfg) as [s1 | e1] eqn:Hg; simpl in Hpre; [ | discriminate ].
      cbn [Fvm.run_sources]. rewrite bind_run, call_run, Hg.
      rewrite (IH i (S j) s1 rt cfg (log ++ [tag j]) st_i f e Hpre Hnth Hf).
      rewrite <- app_assoc. reflexivity.
Qed.

(** X2.  An exception of an explicit source ends the call of [prepare_rhs] of
    [torchswe/fvm.py] with that exception: no later source, no stiff source
    and no time-step computation runs. *)
Theorem fvm_source_failure_aborts :
  forall (st : Fvm.States Other) rt cfg st4 s' i st_i f e,
    kernels st rt cfg = Ok st4 ->
    Fvm.divergence (Fvm.cf (Fvm.face_x st4)) (Fvm.cf (Fvm.face_y st4))
      (snd (Fvm.spacing allow_async st4 cfg)) (fst (Fvm.spacing allow_async st4 cfg))
    = Ok s' ->
    Fvm.apply_sources (firstn i (sources rt)) (Fvm.set_s st4 s') rt cfg = Ok st_i ->
    nth_error (sources rt) i = Some f ->
    f st_i rt cfg = Raise e ->
    run (prepare st rt cfg) = (Raise e, kernel_stages ++ source_stages (S i)).
Proof.
  intros st rt cfg st4 s' i st_i f e Hk Hd Hpre Hnth Hf.
  unfold kernels, Fvm.after_kernels in Hk.
  unfold run, prepare, Fvm.prepare_rhs.
  rewrite bind_run, call_run.
  destruct (reconstruct st rt cfg) as [s1 | e1]; simpl in Hk; [ | discriminate ].
  rewrite bind_run, call_run.
  destruct (get_local_speed s1) as [s2 | e2]; simpl in Hk; [ | discriminate ].
  rewrite bind_run, call_run.
  destruct (get_discontinuous_flux s2) as [s3 | e3]; simpl in Hk; [ | discriminate ].
  rewrite bind_run, call_run. rewrite Hk.
  unfold Fvm.spacing in Hd.
  destruct (if negb (allow_async cfg) then Fvm.domain_delta st4
            else Fvm.domain_delta_array st4) as [dy dx].
  simpl in Hd.
  rewrite bind_run, call_run, Hd.
  rewrite bind_run.
  rewrite (run_sources_fail StSource (sources rt) i 0 _ rt cfg _ Hpre Hnth Hf).
  unfold kernel_stages, source_stages. simpl. now rewrite <- ?app_assoc.
Qed.

End FvmProps.

Section CoreProps.

Variable Other : Type.
Variables Runtime Config : Type.
Variable c_sources : Runtime -> list (CoreFvm.source Other Runtime Config).
Variable c_tol : Runtime -> f64.
Variable c_dt : Runtime -> f64.
Variable c_gravity : Config -> f64.
Variable reconstruct :
  CoreFvm.States Other -> Runtime -> Config -> result (CoreFvm.States Other).
Variable get_local_speed : CoreFvm.States Other -> f64 -> result (CoreFvm.States Other).
Variable get_discontinuous_flux :
  CoreFvm.States Other -> f64 -> result (CoreFvm.States Other).
Variable central_scheme : CoreFvm.States Other -> f64 -> result (CoreFvm.States Other).
Variable nplike : NP.backend.

Let prepare := CoreFvm.prepare_rhs c_sources c_tol c_dt c_gravity reconstruct
  get_local_speed get_discontinuous_flux central_scheme nplike.

Lemma cap_dt_inf m d r :
  CoreFvm.cap_dt nplike m d = Ok r ->
  (r = pinf -> d = pinf) /\ (nplike = NP.NumPy -> isinf r = true -> r = d).
Proof.
  unfold CoreFvm.cap_dt. destruct nplike; simpl.
  - intros H. injection H as <-.
    destruct m as [ s | [] | | s mm e ]; simpl; split; try discriminate; auto;
      try (intros _; discriminate).
  - intros H. injection H as <-. split; [ | discriminate ].
    destruct (eqb m pinf) eqn:Hm; [ auto | ].
    intros ->. discriminate Hm.
Qed.

(** X4.  [prepare_rhs] of [torchswe/core/fvm.py] returns [+inf] only when
    [runtime.dt] is [+inf]; through [nan_to_num] it returns an infinity of
    either sign only when that infinity is [runtime.dt]. *)
Theorem core_max_dt_infinite_only_from_runtime :
  forall (st : CoreFvm.States Other) rt cfg st' max_dt log,
    run (prepare st rt cfg) = (Ok (st', max_dt), log) ->
    (max_dt = pinf -> c_dt rt = pinf) /\
    (nplike = NP.NumPy -> isinf max_dt = true -> max_dt = c_dt rt).
Proof.
  intros st rt cfg st' max_dt log Hrun.
  apply CoreFvmFacts.core_prepare_rhs_run in Hrun.
  destruct Hrun as (st4 & S' & amax & bmax & _ & _ & _ & _ & _ & Hcap & _).
  exact (cap_dt_inf _ _ Hcap).
Qed.

Lemma core_run_sources_prefix tag :
  forall (funcs : list (CoreFvm.source Other Runtime Config)) i st rt cfg log,
    exists k, (k <= length funcs)%nat /\
      snd (CoreFvm.run_sources tag funcs i st rt cfg log) = log ++ map tag (seq i k) /\
      (is_ok (fst (CoreFvm.run_sources tag funcs i st rt cfg log)) = true ->
       k = length funcs).
Proof.
  induction funcs as [ | f rest IH]; intros i st rt cfg log; simpl.
  - exists 0%nat. simpl. rewrite app_nil_r. repeat split. lia.
  - rewrite bind_run, call_run.
    destruct (f st rt cfg) as [s1 | e]; simpl.
    + destruct (IH (S i) s1 rt cfg (log ++ [tag i])) as (k & Hk & Hlog & Hok).
      exists (S k). split; [ lia | ]. split.
      * rewrite Hlog, <- app_assoc. reflexivity.
      * intros H. now rewrite (Hok H).
    + exists 1%nat. split; [ lia | ]. split; [ reflexivity | discriminate ].
Qed.

Lemma seq_prefix i k n : (k <= n)%nat -> seq i n = seq i k ++ seq (i + k) (n - k).
Proof.
  intros Hk. replace n with (k + (n - k))%nat at 1 by lia. apply seq_app.
Qed.

(** X3.  Whatever happens in a call of [prepare_rhs] of [torchswe/core/fvm.py],
    the steps it has run are an initial part of the fixed order; when it
    returns, they are the whole of it. *)
Theorem core_steps_are_a_prefix :
  forall (st : CoreFvm.States Other) rt cfg,
    exists rest,
      kernel_stages ++ source_stages (length (c_sources rt)) ++ [StCflDt]
      = snd (run (prepare st rt cfg)) ++ rest /\
      snd (run (prepare st rt cfg)) <> [] /\
      (is_ok (fst (run (prepare st rt cfg))) = true -> rest = []).
Proof.
  intros st rt cfg.
  destruct (run (prepare st rt cfg)) as [r log] eqn:Hr. cbn [fst snd].
  revert Hr. unfold run, prepare, CoreFvm.prepare_rhs, kernel_stages.
  rewrite bind_run, call_run.
  destruct (reconstruct st rt cfg) as [s1 | e];
    [ | intros Hr; injection Hr as <- <-; simpl; eexists;
        split; [ reflexivity | split; discriminate ] ].
  rewrite bind_run, call_run.
  destruct (get_local_speed s1 _) as [s2 | e];
    [ | intros Hr; injection Hr as <- <-; simpl; eexists;
        split; [ reflexivity | split; discriminate ] ].
  rewrite bind_run, call_run.
  destruct (get_discontinuous_flux s2 _) as [s3 | e];
    [ | intros Hr; injection Hr as <- <-; simpl; eexists;
        split; [ reflexivity | split; discriminate ] ].
  rewrite bind_run, call_run.
  destruct (central_scheme s3 _) as [s4 | e];
    [ | intros Hr; injection Hr as <- <-; simpl; eexists;
        split; [ reflexivity | split; discriminate ] ].
  cbv zeta. rewrite bind_run, call_run.
  destruct (CoreFvm.divergence _ _ _ _) as [S1 | e];
    [ | intros Hr; injection Hr as <- <-; simpl; eexists;
        split; [ reflexivity | split; discriminate ] ].
  rewrite bind_run.
  destruct (core_run_sources_prefix StSource (c_sources rt) 0 (CoreFvm.set_S s4 S1)
              rt cfg
              (((((([] ++ [StReconstruct]) ++ [StLocalSpeed]) ++ [StDiscontinuousFlux])
                  ++ [StCentralScheme]) ++ [StDivergence])))
    as (k & Hk & Hlog & Hok).
  destruct (CoreFvm.run_sources _ _ _ _ _ _ _) as [[s5 | e] log5].
  - simpl in Hlog, Hok. rewrite (Hok eq_refl) in Hlog. subst log5.
    rewrite bind_run. unfold tick at 1.
    assert (Hend : forall (x : result (CoreFvm.States Other * f64)),
      (x,
       (StReconstruct :: StLocalSpeed :: StDiscontinuousFlux :: StCentralScheme
        :: StDivergence :: map StSource (seq 0 (length (c_sources rt)))) ++ [StCflDt])
      = (r, log) ->
      exists rest : list stage,
        [StReconstruct; StLocalSpeed; StDiscontinuousFlux; StCentralScheme; StDivergence]
        ++ source_stages (length (c_sources rt)) ++ [StCflDt] = log ++ rest /\
        log <> [] /\ (is_ok r = true -> rest = [])).
    { intros x Hx. injection Hx as <- <-. exists []. rewrite app_nil_r.
      split; [ reflexivity | split; [ discriminate | reflexivity ] ]. }
    rewrite bind_run. unfold lift at 1.
    destruct (CoreFvm.max_speed (CoreFvm.face_x s5)); [ | apply Hend ].
    rewrite bind_run. unfold lift at 1.
    destruct (CoreFvm.max_speed (CoreFvm.face_y s5)); [ | apply Hend ].
    cbv zeta. rewrite bind_run. unfold lift at 1.
    destruct (CoreFvm.cap_dt _ _ _); apply Hend.
  - simpl in Hlog. subst log5. intros Hr. injection Hr as <- <-.
    exists (map StSource (seq (0 + k) (length (c_sources rt) - k)) ++ [StCflDt]).
    split; [ | split; [ | discriminate ] ].
    + unfold source_stages. rewrite (seq_prefix 0 Hk), map_app.
      simpl. now rewrite <- !app_assoc.
    + simpl. discriminate.
Qed.

End CoreProps.

Import Examples MoreExamples.

Lemma fvm_max_dt_not_nan_witness :
  run (fvm_prepare_rhs [double_s] [] flow a_runtime a_config)
  = (Ok (Fvm.set_s flow [[[two]]], half), kernel_stages ++ source_stages 1 ++ [StCflDt]) /\
  isnan half = false.
Proof.
  assert (Hrun : run (fvm_prepare_rhs [double_s] [] flow a_runtime a_config)
                 = (Ok (Fvm.set_s flow [[[two]]], half),
                    kernel_stages ++ source_stages 1 ++ [StCflDt]))
    by (vm_compute; reflexivity).
  split; [ exact Hrun | ].
  apply (@fvm_max_dt_not_nan unit runtime config (fun _ => [double_s]) (fun _ => [])
           allow_async temporal_dt kernel3 kernel1 kernel1 kernel1
           flow a_runtime a_config _ _ _ flow Hrun);
    try reflexivity; repeat constructor.
Defined.

Lemma fvm_source_failure_aborts_witness :
  run (fvm_prepare_rhs [double_s; failing_source; double_s] [] flow a_runtime a_config)
  = (Raise (OtherError "source term failed"), kernel_stages ++ source_stages 2).
Proof.
  apply (@fvm_source_failure_aborts unit runtime config
           (fun _ => [double_s; failing_source; double_s]) (fun _ => [])
           allow_async temporal_dt kernel3 kernel1 kernel1 kernel1
           flow a_runtime a_config flow [[[one]]] 1 (Fvm.set_s flow [[[two]]])
           failing_source);
    vm_compute; reflexivity.
Defined.

Lemma core_max_dt_infinite_only_from_runtime_witness :
  run (core_prepare_rhs NP.NumPy [] calm_core unbounded_runtime a_config)
  = (Ok (calm_core_out, pinf), kernel_stages ++ source_stages 0 ++ [StCflDt]) /\
  dt unbounded_runtime = pinf.
Proof.
  assert (Hrun : run (core_prepare_rhs NP.NumPy [] calm_core unbounded_runtime a_config)
                 = (Ok (calm_core_out, pinf),
                    kernel_stages ++ source_stages 0 ++ [StCflDt]))
    by (vm_compute; reflexivity).
  split; [ exact Hrun | ].
  exact (proj1 (@core_max_dt_infinite_only_from_runtime unit runtime config
                  (fun _ => []) tol dt gravity core_kernel3 core_kernel2 core_kernel2
                  core_kernel2 NP.NumPy calm_core unbounded_runtime a_config _ _ _ Hrun)
               eq_refl).
Defined.

End RhsMore.

(* ===================================================================== *)
(** * The right-hand side, cell by cell *)
(* ===================================================================== *)

Module DivergenceFacts.

Import Arrays.

Ltac same_length :=
  unfold NP.arr3, NP.arr2, NP.arr1 in *;
  first [ assumption | lia | congruence
        | etransitivity; [ eassumption | symmetry; eassumption ] ].

Lemma broadcast_same_length {A B C} (f : A -> B -> result C) xs ys :
  length xs = length ys -> NP.broadcast f xs ys = NP.zipM f xs ys.
Proof.
  intros Hlen. unfold NP.broadcast.
  destruct xs as [ | x [ | x' xs ] ]; destruct ys as [ | y [ | y' ys ] ];
    try reflexivity; discriminate Hlen.
Qed.

Lemma zipM_zip_with {A B C} (f : A -> B -> result C) (g : A -> B -> C) xs ys :
  Forall2 (fun x y => f x y = Ok (g x y)) xs ys ->
  NP.zipM f xs ys = Ok (zip_with g xs ys).
Proof.
  induction 1 as [ | x y xs ys Hxy _ IH ]; [ reflexivity | ].
  simpl. rewrite Hxy. simpl. rewrite IH. reflexivity.
Qed.

Lemma broadcast_zip_with {A B C} (f : A -> B -> result C) (g : A -> B -> C) xs ys :
  Forall2 (fun x y => f x y = Ok (g x y)) xs ys ->
  NP.broadcast f xs ys = Ok (zip_with g xs ys).
Proof.
  intros H. rewrite broadcast_same_length by exact (Forall2_length H).
  now apply zipM_zip_with.
Qed.

Lemma Forall2_of_Forall {A B} (P : A -> Prop) (Q : B -> Prop) (R : A -> B -> Prop)
    (la : list A) (lb : list B) :
  (forall a b, P a -> Q b -> R a b) ->
  length la = length lb -> Forall P la -> Forall Q lb -> Forall2 R la lb.
Proof.
  intros HR. revert lb. induction la as [ | a la IH ]; intros [ | b lb ] Hlen Ha Hb;
    try discriminate Hlen; constructor.
  - inversion Ha; inversion Hb; subst. now apply HR.
  - apply IH; [ now injection Hlen | now inversion Ha | now inversion Hb ].
Qed.

(** Element-wise operations on two arrays of one shape. *)
Lemma ew1_same op (a b : NP.arr1) :
  length a = length b ->
  NP.broadcast (NP.lift2 op) a b = Ok (zip_with op a b).
Proof.
  intros Hlen. apply broadcast_zip_with.
  revert b Hlen. induction a as [ | x a IH ]; intros [ | y b ] Hlen;
    try discriminate Hlen; constructor; [ reflexivity | apply IH; now injection Hlen ].
Qed.

Lemma ew3_same op (a b : NP.arr3) k m n :
  shape3 a k m n -> shape3 b k m n ->
  NP.ew3 op a b = Ok (zip_with (zip_with (zip_with op)) a b).
Proof.
  intros [Hka Ha] [Hkb Hb]. unfold NP.ew3.
  apply broadcast_zip_with.
  eapply Forall2_of_Forall; [ | same_length | exact Ha | exact Hb ].
  intros p q [Hmp Hp] [Hmq Hq]. cbv beta.
  apply broadcast_zip_with.
  eapply Forall2_of_Forall; [ | same_length | exact Hp | exact Hq ].
  intros r s Hr Hs. cbv beta. apply ew1_same. same_length.
Qed.

Lemma zip_with_length {A B C} (g : A -> B -> C) xs ys :
  length xs = length ys -> length (zip_with g xs ys) = length xs.
Proof.
  intros H. unfold zip_with. rewrite length_map, length_combine, <- H.
  apply Nat.min_id.
Qed.

Lemma zip_with_nth {A B C} (g : A -> B -> C) xs ys i da db dc :
  (i < length xs)%nat -> length xs = length ys ->
  nth i (zip_with g xs ys) dc = g (nth i xs da) (nth i ys db).
Proof.
  revert ys i. induction xs as [ | x xs IH ]; intros [ | y ys ] i Hi Hlen;
    simpl in Hi, Hlen; try lia; try discriminate Hlen.
  destruct i as [ | i ]; simpl; [ reflexivity | ].
  apply IH; [ lia | now injection Hlen ].
Qed.

Lemma zip_with_Forall {A B C} (P : A -> Prop) (Q : B -> Prop) (R : C -> Prop)
    (g : A -> B -> C) xs ys :
  (forall x y, P x -> Q y -> R (g x y)) ->
  Forall P xs -> Forall Q ys -> Forall R (zip_with g xs ys).
Proof.
  intros Hg Hx. revert ys. induction Hx as [ | x xs Hpx _ IH ]; intros ys Hy.
  - constructor.
  - destruct ys as [ | y ys ]; [ constructor | ].
    inversion Hy; subst. unfold zip_with. simpl. constructor; [ now apply Hg | ].
    now apply IH.
Qed.

(** Shapes. *)
Lemma shape3_nth a k m n c :
  shape3 a k m n -> (c < k)%nat ->
  length (nth c a []) = m /\
  Forall (fun r : NP.arr1 => length r = n) (nth c a []).
Proof.
  intros [Hk Ha] Hc. rewrite Forall_forall in Ha. apply Ha, nth_In. lia.
Qed.

Lemma shape3_nth_nth a k m n c j :
  shape3 a k m n -> (c < k)%nat -> (j < m)%nat ->
  length (nth j (nth c a []) []) = n.
Proof.
  intros Ha Hc Hj. destruct (shape3_nth Ha Hc) as [Hm Hp].
  rewrite Forall_forall in Hp. apply Hp, nth_In. lia.
Qed.

Lemma shape3_zip_with op a b k m n :
  shape3 a k m n -> shape3 b k m n ->
  shape3 (zip_with (zip_with (zip_with op)) a b) k m n.
Proof.
  intros [Hka Ha] [Hkb Hb]. split.
  - rewrite zip_with_length; same_length.
  - eapply zip_with_Forall; [ | exact Ha | exact Hb ].
    intros p q [Hmp Hp] [Hmq Hq]. cbv beta. split.
    + rewrite zip_with_length; same_length.
    + eapply zip_with_Forall; [ | exact Hp | exact Hq ].
      intros r s Hr Hs. cbv beta. rewrite zip_with_length; same_length.
Qed.

Lemma at3_zip_with op a b k m n c j i :
  shape3 a k m n -> shape3 b k m n ->
  (c < k)%nat -> (j < m)%nat -> (i < n)%nat ->
  at3 (zip_with (zip_with (zip_with op)) a b) c j i = op (at3 a c j i) (at3 b c j i).
Proof.
  intros Ha Hb Hc Hj Hi. unfold at3.
  destruct (shape3_nth Ha Hc) as [Hma _]. destruct (shape3_nth Hb Hc) as [Hmb _].
  pose proof (shape3_nth_nth Ha Hc Hj) as Hna.
  pose proof (shape3_nth_nth Hb Hc Hj) as Hnb.
  destruct Ha as [Hka _]. destruct Hb as [Hkb _].
  rewrite zip_with_nth with (da := []) (db := []) by same_length.
  rewrite zip_with_nth with (da := []) (db := []) by same_length.
  apply zip_with_nth; same_length.
Qed.

Lemma shape3_map3 f a k m n : shape3 a k m n -> shape3 (NP.map3 f a) k m n.
Proof.
  intros [Hk Ha]. unfold NP.map3. split; [ now rewrite length_map | ].
  rewrite Forall_map. eapply Forall_impl; [ | exact Ha ].
  intros p [Hm Hp]. cbv beta. split; [ now rewrite length_map | ].
  rewrite Forall_map. eapply Forall_impl; [ | exact Hp ].
  intros r Hr. cbv beta. now rewrite length_map.
Qed.

Lemma at3_map3 f a k m n c j i :
  shape3 a k m n -> (c < k)%nat -> (j < m)%nat -> (i < n)%nat ->
  at3 (NP.map3 f a) c j i = f (at3 a c j i).
Proof.
  intros Ha Hc Hj Hi. unfold at3, NP.map3.
  destruct (shape3_nth Ha Hc) as [Hm _].
  pose proof (shape3_nth_nth Ha Hc Hj) as Hn.
  destruct Ha as [Hk _].
  rewrite (nth_indep _ [] (map (map f) [])) by (rewrite length_map; same_length).
  rewrite map_nth.
  rewrite (nth_indep _ [] (map f [])) by (rewrite length_map; same_length).
  rewrite map_nth.
  rewrite (nth_indep _ pzero (f pzero)) by (rewrite length_map; same_length).
  apply map_nth.
Qed.

(** The four slices. *)
Lemma removelast_length {A} (l : list A) : length (removelast l) = pred (length l).
Proof.
  induction l as [ | x l IH ]; [ reflexivity | ].
  destruct l as [ | y l ]; [ reflexivity | ].
  change (removelast (x :: y :: l)) with (x :: removelast (y :: l)).
  change (S (length (removelast (y :: l))) = S (length l)).
  rewrite IH. reflexivity.
Qed.

Lemma removelast_nth {A} (l : list A) i d :
  (S i < length l)%nat -> nth i (removelast l) d = nth i l d.
Proof.
  revert i. induction l as [ | x [ | y l ] IH ]; intros i Hi; simpl in Hi; try lia.
  change (removelast (x :: y :: l)) with (x :: removelast (y :: l)).
  destruct i as [ | i ]; [ reflexivity | ].
  simpl nth. apply IH. simpl. lia.
Qed.

Lemma tl_nth {A} (l : list A) i d : nth i (tl l) d = nth (S i) l d.
Proof. destruct l; [ now destruct i | reflexivity ]. Qed.

Lemma tl_length {A} (l : list A) : length (tl l) = pred (length l).
Proof. now destruct l. Qed.

Lemma shape3_drop_x (g : NP.arr1 -> NP.arr1) a k m n :
  (forall r, length (g r) = pred (length r)) ->
  shape3 a k m (S n) -> shape3 (map (map g) a) k m n.
Proof.
  intros Hg [Hk Ha]. split; [ now rewrite length_map | ].
  rewrite Forall_map. eapply Forall_impl; [ | exact Ha ].
  intros p [Hm Hp]. cbv beta. split; [ now rewrite length_map | ].
  rewrite Forall_map. eapply Forall_impl; [ | exact Hp ].
  intros r Hr. cbv beta. rewrite Hg, Hr. reflexivity.
Qed.

Lemma shape3_drop_y (g : NP.arr2 -> NP.arr2) a k m n :
  (forall p, length (g p) = pred (length p)) ->
  (forall p (P : NP.arr1 -> Prop), Forall P p -> Forall P (g p)) ->
  shape3 a k (S m) n -> shape3 (map g a) k m n.
Proof.
  intros Hg HgP [Hk Ha]. split; [ now rewrite length_map | ].
  rewrite Forall_map. eapply Forall_impl; [ | exact Ha ].
  intros p [Hm Hp]. cbv beta. split; [ now rewrite Hg, Hm | now apply HgP ].
Qed.

Lemma Forall_removelast {A} (P : A -> Prop) l : Forall P l -> Forall P (removelast l).
Proof.
  induction l as [ | x [ | y l ] IH ]; intros H; try constructor.
  - now inversion H.
  - apply IH. now inversion H.
Qed.

Lemma Forall_tl {A} (P : A -> Prop) (l : list A) : Forall P l -> Forall P (tl l).
Proof. intros H. destruct l; [ constructor | now inversion H ]. Qed.

Lemma at3_map_x (g : NP.arr1 -> NP.arr1) a k m n c j :
  shape3 a k m n -> (c < k)%nat -> (j < m)%nat ->
  nth j (nth c (map (map g) a) []) [] = g (nth j (nth c a []) []).
Proof.
  intros Ha Hc Hj. destruct (shape3_nth Ha Hc) as [Hm _]. destruct Ha as [Hk _].
  rewrite (nth_indep _ [] (map g [])) by (rewrite length_map; same_length).
  rewrite map_nth.
  rewrite (nth_indep _ [] (g [])) by (rewrite length_map; same_length).
  apply map_nth.
Qed.

Lemma at3_map_y (g : NP.arr2 -> NP.arr2) a k c :
  length a = k -> (c < k)%nat ->
  nth c (map g a) [] = g (nth c a []).
Proof.
  intros Hk Hc.
  rewrite (nth_indep _ [] (g [])) by (rewrite length_map; same_length).
  apply map_nth.
Qed.

Section Divergence.

Variables (cfx cfy : NP.arr3) (dx dy : f64) (k m n : nat).
Hypothesis Hx : shape3 cfx k m (S n).
Hypothesis Hy : shape3 cfy k (S m) n.

Let ddx := zip_with (zip_with (zip_with sub)) (NP.drop_last_x cfx) (NP.drop_first_x cfx).
Let ddy := zip_with (zip_with (zip_with sub)) (NP.drop_last_y cfy) (NP.drop_first_y cfy).

Lemma shape_dlx : shape3 (NP.drop_last_x cfx) k m n.
Proof. apply shape3_drop_x; [ apply removelast_length | exact Hx ]. Qed.

Lemma shape_dfx : shape3 (NP.drop_first_x cfx) k m n.
Proof. apply shape3_drop_x; [ apply tl_length | exact Hx ]. Qed.

Lemma shape_dly : shape3 (NP.drop_last_y cfy) k m n.
Proof.
  apply shape3_drop_y; [ apply removelast_length | | exact Hy ].
  intros p P. apply Forall_removelast.
Qed.

Lemma shape_dfy : shape3 (NP.drop_first_y cfy) k m n.
Proof.
  apply shape3_drop_y; [ apply tl_length | | exact Hy ].
  intros p P. apply Forall_tl.
Qed.

Lemma divergence_value :
  Fvm.divergence cfx cfy dx dy
  = Ok (zip_with (zip_with (zip_with add))
          (NP.map3 (fun v => div v dx) ddx) (NP.map3 (fun v => div v dy) ddy)).
Proof.
  unfold Fvm.divergence.
  rewrite (ew3_same sub shape_dlx shape_dfx). cbn [rbind].
  rewrite (ew3_same sub shape_dly shape_dfy). cbn [rbind].
  apply (@ew3_same add _ _ k m n); apply shape3_map3, shape3_zip_with;
    auto using shape_dlx, shape_dfx, shape_dly, shape_dfy.
Qed.

Lemma at3_dlx c j i :
  (c < k)%nat -> (j < m)%nat -> (i < n)%nat ->
  at3 (NP.drop_last_x cfx) c j i = at3 cfx c j i.
Proof.
  intros Hc Hj Hi. unfold at3, NP.drop_last_x.
  rewrite (at3_map_x _ Hx Hc Hj). apply removelast_nth.
  rewrite (shape3_nth_nth Hx Hc Hj). lia.
Qed.

Lemma at3_dfx c j i :
  (c < k)%nat -> (j < m)%nat -> (i < n)%nat ->
  at3 (NP.drop_first_x cfx) c j i = at3 cfx c j (S i).
Proof.
  intros Hc Hj Hi. unfold at3, NP.drop_first_x.
  rewrite (at3_map_x _ Hx Hc Hj). apply tl_nth.
Qed.

Lemma at3_dly c j i :
  (c < k)%nat -> (j < m)%nat -> (i < n)%nat ->
  at3 (NP.drop_last_y cfy) c j i = at3 cfy c j i.
Proof.
  intros Hc Hj Hi. unfold at3, NP.drop_last_y.
  rewrite (@at3_map_y _ cfy k c) by (first [ apply Hy | same_length ]).
  rewrite removelast_nth; [ reflexivity | ].
  destruct (shape3_nth Hy Hc) as [-> _]. lia.
Qed.

Lemma at3_dfy c j i :
  (c < k)%nat -> (j < m)%nat -> (i < n)%nat ->
  at3 (NP.drop_first_y cfy) c j i = at3 cfy c (S j) i.
Proof.
  intros Hc Hj Hi. unfold at3, NP.drop_first_y.
  rewrite (@at3_map_y _ cfy k c) by (first [ apply Hy | same_length ]).
  now rewrite tl_nth.
Qed.

Lemma divergence_shape_and_cells :
  exists s,
    Fvm.divergence cfx cfy dx dy = Ok s /\
    shape3 s k m n /\
    forall c j i, (c < k)%nat -> (j < m)%nat -> (i < n)%nat ->
      at3 s c j i
      = add (div (sub (at3 cfx c j i) (at3 cfx c j (S i))) dx)
            (div (sub (at3 cfy c j i) (at3 cfy c (S j) i)) dy).
Proof.
  eexists. split; [ apply divergence_value | ].
  assert (Hdx : shape3 ddx k m n)
    by (apply shape3_zip_with; [ apply shape_dlx | apply shape_dfx ]).
  assert (Hdy : shape3 ddy k m n)
    by (apply shape3_zip_with; [ apply shape_dly | apply shape_dfy ]).
  split.
  - apply shape3_zip_with; now apply shape3_map3.
  - intros c j i Hc Hj Hi.
    rewrite (@at3_zip_with add _ _ k m n c j i) by (try assumption; now apply shape3_map3).
    rewrite (at3_map3 _ Hdx Hc Hj Hi), (at3_map3 _ Hdy Hc Hj Hi).
    unfold ddx, ddy.
    rewrite (at3_zip_with sub shape_dlx shape_dfx Hc Hj Hi).
    rewrite (at3_zip_with sub shape_dly shape_dfy Hc Hj Hi).
    now rewrite at3_dlx, at3_dfx, at3_dly, at3_dfy.
Qed.

End Divergence.

Lemma div_pzero_pos_finite d : is_pos_finite d = true -> div pzero d = pzero.
Proof. destruct d as [ | | | [] md ed ]; try discriminate; reflexivity. Qed.

(** X5.  The right-hand side both orchestrators assemble from the face fluxes:
    for [k] components on [m] by [n] cells, x-fluxes on [n + 1] faces a row
    and y-fluxes on [m + 1] faces a column, the result has one entry a cell,
    the flux in minus the flux out along x over [dx] plus the same along y
    over [dy]. *)
Theorem rhs_shape_and_cells :
  forall (cfx cfy : NP.arr3) (dx dy : f64) (k m n : nat),
    shape3 cfx k m (S n) ->
    shape3 cfy k (S m) n ->
    exists s,
      Fvm.divergence cfx cfy dx dy = Ok s /\
      CoreFvm.divergence cfx cfy dx dy = Ok s /\
      shape3 s k m n /\
      forall c j i, (c < k)%nat -> (j < m)%nat -> (i < n)%nat ->
        at3 s c j i
        = add (div (sub (at3 cfx c j i) (at3 cfx c j (S i))) dx)
              (div (sub (at3 cfy c j i) (at3 cfy c (S j) i)) dy).
Proof.
  intros cfx cfy dx dy k m n Hx Hy.
  destruct (divergence_shape_and_cells dx dy Hx Hy) as (s & Hs & Hshape & Hcells).
  exists s. split; [ exact Hs | ]. split; [ exact Hs | ].
  split; [ exact Hshape | exact Hcells ].
Qed.

(** X6.  A cell whose two x-faces carry the same finite flux and whose two
    y-faces carry the same finite flux gets a right-hand side of exactly
    [+0], for positive finite spacings. *)
Theorem rhs_zero_where_fluxes_balance :
  forall (cfx cfy : NP.arr3) (dx dy : f64) (k m n : nat) s c j i,
    shape3 cfx k m (S n) ->
    shape3 cfy k (S m) n ->
    is_pos_finite dx = true -> is_pos_finite dy = true ->
    Fvm.divergence cfx cfy dx dy = Ok s ->
    (c < k)%nat -> (j < m)%nat -> (i < n)%nat ->
    at3 cfx c j (S i) = at3 cfx c j i -> is_finite (at3 cfx c j i) = true ->
    at3 cfy c (S j) i = at3 cfy c j i -> is_finite (at3 cfy c j i) = true ->
    at3 s c j i = pzero.
Proof.
  intros cfx cfy dx dy k m n s c j i Hx Hy Hdx Hdy Hs Hc Hj Hi Hex Hfx Hey Hfy.
  destruct (divergence_shape_and_cells dx dy Hx Hy) as (s' & Hs' & _ & Hcells).
  rewrite Hs in Hs'. injection Hs' as <-.
  rewrite (Hcells c j i Hc Hj Hi), Hex, Hey.
  rewrite !F64Facts.sub_diag by assumption.
  now rewrite !div_pzero_pos_finite by assumption.
Qed.

Lemma rhs_shape_and_cells_witness :
  exists s,
    Fvm.divergence [[[two; one]]] [[[one]; [one]]] one one = Ok s /\
    CoreFvm.divergence [[[two; one]]] [[[one]; [one]]] one one = Ok s /\
    shape3 s 1 1 1 /\
    forall c j i, (c < 1)%nat -> (j < 1)%nat -> (i < 1)%nat ->
      at3 s c j i
      = add (div (sub (at3 [[[two; one]]] c j i) (at3 [[[two; one]]] c j (S i))) one)
            (div (sub (at3 [[[one]; [one]]] c j i) (at3 [[[one]; [one]]] c (S j) i)) one).
Proof.
  apply (@rhs_shape_and_cells [[[two; one]]] [[[one]; [one]]] one one 1 1 1);
    (split; [ reflexivity | repeat constructor ]).
Defined.

Lemma rhs_zero_where_fluxes_balance_witness :
  exists s,
    Fvm.divergence [[[one; one]]] [[[two]; [two]]] one half = Ok s /\
    at3 s 0 0 0 = pzero.
Proof.
  exists [[[pzero]]]. split; [ reflexivity | ].
  apply (@rhs_zero_where_fluxes_balance [[[one; one]]] [[[two]; [two]]] one half
           1 1 1 [[[pzero]]] 0 0 0);
    try reflexivity; try lia; (split; [ reflexivity | repeat constructor ]).
Defined.

End DivergenceFacts.

(* ===================================================================== *)
(** * Further properties of the set-up of the boundary conditions *)
(* ===================================================================== *)

Module SetupFacts.

Import BCs Edges.

(** ** The factories that are bound *)

Lemma dispatch_is_ok b o i t v :
  is_ok (dispatch b o i t v) = accepted b t.
Proof.
  unfold dispatch, accepted.
  destruct (String.eqb t "outflow") eqn:H1.
  { apply String.eqb_eq in H1. subst t. destruct b; reflexivity. }
  destruct (String.eqb t "extrap") eqn:H2.
  { apply String.eqb_eq in H2. subst t. destruct b; reflexivity. }
  destruct (String.eqb t "const") eqn:H3.
  { apply String.eqb_eq in H3. subst t. destruct b; reflexivity. }
  destruct (String.eqb t "inflow") eqn:H4.
  { apply String.eqb_eq in H4. subst t. destruct b; reflexivity. }
  reflexivity.
Qed.

Lemma component_loop_is_ok b o :
  forall tv i funcs,
    is_ok (component_loop b o i tv funcs)
    = forallb (fun p => accepted b (fst p)) tv.
Proof.
  induction tv as [ | [t v] tv IH ]; intros i funcs; simpl; [ reflexivity | ].
  rewrite <- (dispatch_is_ok b o i t v).
  destruct (dispatch b o i t v); simpl; [ apply IH | reflexivity ].
Qed.

Lemma edge_body_is_ok b o bc funcs :
  is_ok (edge_body b o bc funcs) = edge_accepts (accepted b) bc.
Proof.
  unfold edge_body, edge_accepts, pairs.
  destruct (types bc) as [ | t0 ts ]; [ reflexivity | ].
  destruct (String.eqb t0 "periodic"); [ reflexivity | ].
  apply component_loop_is_ok.
Qed.

Lemma edge_loop_is_ok b :
  forall es funcs,
    is_ok (edge_loop b es funcs)
    = forallb (fun e => edge_accepts (accepted b) (snd e)) es.
Proof.
  induction es as [ | [o bc] es IH ]; intros funcs; simpl; [ reflexivity | ].
  rewrite <- (edge_body_is_ok b o bc funcs).
  destruct (edge_body b o bc funcs); simpl; [ apply IH | reflexivity ].
Qed.

Lemma updaters_is_ok {States Topography : Type} bcs_check states_check b
    (st : States) (topo : Topography) bcs :
  is_ok (get_ghost_cell_updaters bcs_check states_check b st topo bcs)
  = is_ok (bcs_check bcs)
    && forallb (fun o => edge_accepts (accepted b) (itemgetter bcs o)) orientations
    && is_ok (states_check st).
Proof.
  unfold get_ghost_cell_updaters.
  destruct (bcs_check bcs); cbn [rbind is_ok andb]; [ | reflexivity ].
  pose proof (edge_loop_is_ok b (edges bcs) []) as Hl.
  change (forallb (fun e => edge_accepts (accepted b) (snd e)) (edges bcs))
    with (forallb (fun o => edge_accepts (accepted b) (itemgetter bcs o))
            orientations) in Hl.
  rewrite <- Hl.
  destruct (edge_loop b (edges bcs) []); cbn [rbind is_ok andb];
    [ | reflexivity ].
  destruct (states_check st); reflexivity.
Qed.

Lemma accepted_all b t :
  b <> cunumeric -> accepted b t = dispatched t.
Proof.
  intros Hb. unfold accepted, dispatched.
  destruct b; [ | now elim Hb | ]; cbn; now rewrite !andb_true_r.
Qed.

Lemma accepted_cunumeric t :
  accepted cunumeric t = String.eqb t "extrap" || String.eqb t "const".
Proof.
  unfold accepted. cbn. now rewrite !andb_false_r, !andb_true_r, orb_false_r.
Qed.

Lemma forallb_pointwise {A} (f g : A -> bool) l :
  (forall x, f x = g x) -> forallb f l = forallb g l.
Proof. intros H. induction l as [ | x l IH ]; simpl; [ | rewrite H, IH ]; reflexivity. Qed.

Lemma edge_accepts_ext known known' bc :
  (forall t, known t = known' t) -> edge_accepts known bc = edge_accepts known' bc.
Proof.
  intros H. unfold edge_accepts. destruct (types bc); [ reflexivity | ].
  f_equal. apply forallb_pointwise. intros p. apply H.
Qed.

Lemma edges_accept_ext known known' bcs :
  (forall t, known t = known' t) ->
  forallb (fun o => edge_accepts known (itemgetter bcs o)) orientations
  = forallb (fun o => edge_accepts known' (itemgetter bcs o)) orientations.
Proof. intros H. apply forallb_pointwise. intros o. now apply edge_accepts_ext. Qed.

(** ** The functions [get_ghost_cell_updaters] installs *)

Lemma component_loop_closed b o :
  forall tv i funcs fs,
    component_loop b o i tv funcs = Ok fs ->
    exists new,
      fs = funcs ++ new /\
      Forall2 (fun f p => dispatch b o (fst p) (fst (snd p)) (snd (snd p)) = Ok f)
        new (combine (seq i (length tv)) tv).
Proof.
  induction tv as [ | [t v] tv IH ]; intros i funcs fs; simpl.
  - intros H. injection H as <-. exists []. rewrite app_nil_r. split; constructor.
  - destruct (dispatch b o i t v) as [f | e] eqn:Hd; simpl; [ | discriminate ].
    intros H. apply IH in H. destruct H as (new & -> & Hall).
    exists (f :: new). rewrite <- app_assoc. split; [ reflexivity | ].
    constructor; [ exact Hd | exact Hall ].
Qed.

Lemma edge_body_closed b o bc funcs fs :
  edge_body b o bc funcs = Ok fs ->
  exists new, fs = funcs ++ new /\ edge_installs b o bc new.
Proof.
  unfold edge_body, edge_installs, skipped, enumerate, pairs.
  destruct (types bc) as [ | t0 ts ]; [ discriminate | ].
  destruct (String.eqb t0 "periodic").
  - intros H. injection H as <-. exists []. now rewrite app_nil_r.
  - apply component_loop_closed.
Qed.

Lemma edge_installs_length b o bc fs :
  edge_installs b o bc fs ->
  length fs = if skipped bc then 0%nat
              else Nat.min (length (types bc)) (length (values bc)).
Proof.
  unfold edge_installs. destruct (skipped bc); [ now intros -> | ].
  intros H. apply Forall2_length in H. rewrite H.
  unfold enumerate, pairs.
  rewrite length_combine, length_seq, Nat.min_id. apply length_combine.
Qed.

(** ** [init_bc] *)

Lemma bc_helper_spec o t v c fs pr :
  exists new k,
    bc_helper o t v c (fs, pr) = (fs ++ new, pr ++ repeat unsupported_message k) /\
    (length new + k = 1)%nat /\
    Forall (fun f => extrap_or_const f = true) new.
Proof.
  unfold bc_helper.
  destruct (String.eqb t "extrap"); [ | destruct (String.eqb t "const") ].
  - exists [linear_extrap_bc_factory o c], 0%nat. simpl. rewrite app_nil_r.
    repeat split. repeat constructor.
  - exists [const_val_bc_factory o c v], 0%nat. simpl. rewrite app_nil_r.
    repeat split. repeat constructor.
  - exists [], 1%nat. simpl. rewrite app_nil_r. repeat split. constructor.
Qed.

Lemma helper_loop_spec o :
  forall tv i fs pr,
    exists new k,
      helper_loop o i tv (fs, pr) = (fs ++ new, pr ++ repeat unsupported_message k) /\
      (length new + k = length tv)%nat /\
      Forall (fun f => extrap_or_const f = true) new.
Proof.
  induction tv as [ | [t v] tv IH ]; intros i fs pr.
  - exists [], 0%nat. simpl. rewrite !app_nil_r. repeat split. constructor.
  - cbn [helper_loop].
    destruct (bc_helper_spec o t v (Z.of_nat i) fs pr) as (n1 & k1 & -> & Hl1 & Ha1).
    destruct (IH (S i) (fs ++ n1) (pr ++ repeat unsupported_message k1))
      as (n2 & k2 & -> & Hl2 & Ha2).
    exists (n1 ++ n2), (k1 + k2)%nat.
    rewrite repeat_app, <- !app_assoc. split; [ reflexivity | ].
    split; [ rewrite length_app; simpl; lia | ].
    apply Forall_app. now split.
Qed.

Lemma init_edge_spec vec o bc fs pr r :
  init_edge vec o bc (fs, pr) = Ok r ->
  exists new k,
    r = (fs ++ new, pr ++ repeat unsupported_message k) /\
    (length new + k = helper_calls vec bc)%nat /\
    Forall (fun f => extrap_or_const f = true) new.
Proof.
  unfold init_edge, helper_calls.
  destruct (vec && (set_len String.eqb (types bc) =? 1)%nat
            && (set_len bcv_eqb (values bc) =? 1)%nat).
  - destruct (types bc) as [ | t0 ts ]; [ discriminate | ].
    destruct (values bc) as [ | v0 vs ]; [ discriminate | ].
    intros H. injection H as <-. apply bc_helper_spec.
  - intros H. injection H as <-. apply helper_loop_spec.
Qed.

Lemma init_loop_spec vec :
  forall es fs pr r,
    init_loop vec es (fs, pr) = Ok r ->
    exists new k,
      r = (fs ++ new, pr ++ repeat unsupported_message k) /\
      (length new + k = list_sum (map (fun e => helper_calls vec (snd e)) es))%nat /\
      Forall (fun f => extrap_or_const f = true) new.
Proof.
  induction es as [ | [o bc] es IH ]; intros fs pr r; simpl.
  - intros H. injection H as <-. exists [], 0%nat. simpl. rewrite !app_nil_r.
    repeat split. constructor.
  - destruct (init_edge vec o bc (fs, pr)) as [r1 | e] eqn:He; simpl; [ | discriminate ].
    apply init_edge_spec in He. destruct He as (n1 & k1 & -> & Hl1 & Ha1).
    intros H. apply IH in H. destruct H as (n2 & k2 & -> & Hl2 & Ha2).
    exists (n1 ++ n2), (k1 + k2)%nat.
    rewrite repeat_app, <- !app_assoc. split; [ reflexivity | ].
    split; [ rewrite length_app; lia | ].
    apply Forall_app. now split.
Qed.

(** The two loops over the components on policies both know. *)
Lemma loops_agree b o :
  forall tv i fs pr,
    Forall (fun p => fst p = "extrap"%string \/ fst p = "const"%string) tv ->
    component_loop b o i tv fs = Ok (fst (helper_loop o i tv (fs, pr))) /\
    snd (helper_loop o i tv (fs, pr)) = pr.
Proof.
  induction tv as [ | [t v] tv IH ]; intros i fs pr Hall.
  - split; reflexivity.
  - inversion Hall as [ | p l Ht Htl ]; subst. simpl in Ht.
    cbn [component_loop helper_loop]. unfold dispatch, bc_helper, factory.
    destruct Ht as [-> | ->]; destruct b; cbn; apply IH; exact Htl.
Qed.

Lemma Forall_combine_fst {A B} (P : A -> Prop) (l : list A) (l' : list B) :
  Forall P l -> Forall (fun p => P (fst p)) (combine l l').
Proof.
  intros H. revert l'. induction H as [ | x l Hx _ IH ]; intros l'; [ constructor | ].
  destruct l' as [ | y l' ]; [ constructor | ].
  simpl. constructor; [ exact Hx | apply IH ].
Qed.

Lemma String_eqb_neq_periodic t :
  t = "extrap"%string \/ t = "const"%string -> String.eqb t "periodic" = false.
Proof. intros [-> | ->]; reflexivity. Qed.

Section Setup.

Variables States Topography : Type.
Variable bcs_check : BCConfig -> result unit.
Variable states_check : States -> result unit.

(** X7.  In an environment that selects the CuPy or the Cython branch of
    the imports, which bind all four factories, [get_ghost_cell_updaters]
    returns exactly when [bcs.check()] and [states.check()] pass and every
    edge has a first policy that is [periodic] or has only policies among
    outflow, extrap, const and inflow in the pairs of
    [zip(bc.types, bc.values)]. *)
Theorem get_ghost_cell_updaters_returns_iff :
  forall (env : environ) (st : States) (topo : Topography) (bcs : BCConfig),
    select env <> cunumeric ->
    is_ok (get_ghost_cell_updaters bcs_check states_check (select env) st topo bcs)
    = is_ok (bcs_check bcs)
      && forallb (fun o => edge_accepts dispatched (itemgetter bcs o)) orientations
      && is_ok (states_check st).
Proof.
  intros env st topo bcs Hb.
  rewrite updaters_is_ok.
  rewrite (@edges_accept_ext (accepted (select env)) dispatched bcs);
    [ reflexivity | ].
  intros t. now apply accepted_all.
Qed.

(** X11.  In an environment that selects the Legate or Torch branch of the
    imports, which binds the linear-extrapolation and constant-value
    factories only, [get_ghost_cell_updaters] returns exactly when the two
    checks pass and every edge is skipped as periodic or uses no policy but
    extrap and const: outflow and inflow are no longer served. *)
Theorem legate_updaters_return_iff :
  forall (env : environ) (st : States) (topo : Topography) (bcs : BCConfig),
    select env = cunumeric ->
    is_ok (get_ghost_cell_updaters bcs_check states_check (select env)
             st topo bcs)
    = is_ok (bcs_check bcs)
      && forallb (fun o =>
                    edge_accepts (fun t => String.eqb t "extrap" || String.eqb t "const")
                      (itemgetter bcs o)) orientations
      && is_ok (states_check st).
Proof.
  intros env st topo bcs ->. rewrite updaters_is_ok.
  rewrite (@edges_accept_ext (accepted cunumeric)
             (fun t => String.eqb t "extrap" || String.eqb t "const") bcs);
    [ reflexivity | ].
  exact accepted_cunumeric.
Qed.

(** X8.  The functions of the updater [get_ghost_cell_updaters] returns, in
    order: those of the west edge, then east, south and north; for an edge
    that is not skipped, one function for every pair of
    [zip(bc.types, bc.values)], made by the factory of its policy for the
    component of its index. *)
Theorem updater_funcs_by_edge :
  forall (b : implementation) (st : States) (topo : Topography) (bcs : BCConfig)
         (u : updater),
    get_ghost_cell_updaters bcs_check states_check b st topo bcs = Ok u ->
    exists fw fe fs fn,
      funcs u = fw ++ fe ++ fs ++ fn /\
      edge_installs b west (bc_west bcs) fw /\
      edge_installs b east (bc_east bcs) fe /\
      edge_installs b south (bc_south bcs) fs /\
      edge_installs b north (bc_north bcs) fn /\
      length (funcs u)
      = list_sum (map (fun o => if skipped (itemgetter bcs o) then 0%nat
                                else Nat.min (length (types (itemgetter bcs o)))
                                             (length (values (itemgetter bcs o))))
                      orientations).
Proof.
  intros b st topo bcs u. unfold get_ghost_cell_updaters.
  destruct (bcs_check bcs); cbn [rbind]; [ | discriminate ].
  change (edge_loop b (edges bcs) [])
    with (rbind (edge_body b west (bc_west bcs) []) (fun f1 =>
          rbind (edge_body b east (bc_east bcs) f1) (fun f2 =>
          rbind (edge_body b south (bc_south bcs) f2) (fun f3 =>
          rbind (edge_body b north (bc_north bcs) f3) (fun f4 => Ok f4))))).
  destruct (edge_body b west (bc_west bcs) []) as [f1 | e] eqn:H1; cbn [rbind];
    [ | discriminate ].
  destruct (edge_body b east (bc_east bcs) f1) as [f2 | e] eqn:H2; cbn [rbind];
    [ | discriminate ].
  destruct (edge_body b south (bc_south bcs) f2) as [f3 | e] eqn:H3; cbn [rbind];
    [ | discriminate ].
  destruct (edge_body b north (bc_north bcs) f3) as [f4 | e] eqn:H4; cbn [rbind];
    [ | discriminate ].
  destruct (states_check st); cbn [rbind]; [ | discriminate ].
  intros H. injection H as <-. cbn [funcs].
  apply edge_body_closed in H1. destruct H1 as (fw & -> & Hw).
  apply edge_body_closed in H2. destruct H2 as (fe & -> & He).
  apply edge_body_closed in H3. destruct H3 as (fs & -> & Hs).
  apply edge_body_closed in H4. destruct H4 as (fn & -> & Hn).
  exists fw, fe, fs, fn. cbn [app].
  split; [ now rewrite <- !app_assoc | ].
  repeat (split; [ assumption | ]).
  rewrite !length_app.
  rewrite (@edge_installs_length _ _ _ _ Hw), (@edge_installs_length _ _ _ _ He),
    (@edge_installs_length _ _ _ _ Hs), (@edge_installs_length _ _ _ _ Hn).
  cbn [orientations map list_sum itemgetter fold_right].
  now rewrite Nat.add_0_r, !Nat.add_assoc.
Qed.

(** X9.  Every call of [bc_helper] in [init_bc] either installs one function or
    prints the one error line, so the functions returned and the lines
    printed add up to the number of calls; the functions are closures of
    the linear-extrapolation and constant-value factories only. *)
Theorem init_bc_installs_or_prints :
  forall (st : States) (topo : Topography) (config : Config) fs printed,
    init_bc st topo config = Ok (fs, printed) ->
    Forall (fun f => extrap_or_const f = true) fs /\
    printed = repeat unsupported_message (length printed) /\
    (length fs + length printed
     = list_sum (map (fun o => helper_calls (config_params_vectorize_bc config)
                                 (itemgetter (config_bc config) o)) orientations))%nat.
Proof.
  intros st topo config fs printed H. unfold init_bc in H.
  apply init_loop_spec in H. destruct H as (new & k & Heq & Hlen & Hall).
  injection Heq as -> ->. cbn [app].
  rewrite repeat_length.
  split; [ exact Hall | ]. split; [ reflexivity | exact Hlen ].
Qed.

(** X10.  On a configuration whose policies are all extrap or const, with at
    least one policy an edge and [vectorize_bc] off, [setup_bc] and
    [get_ghost_cell_updaters] build updaters with the same functions,
    whichever branch of the imports is in force, and [setup_bc] prints
    nothing. *)
Theorem setups_agree_on_extrap_const :
  forall (b : implementation) (st : States) (topo : Topography) (config : Config),
    config_params_vectorize_bc config = false ->
    bcs_check (config_bc config) = Ok tt ->
    states_check st = Ok tt ->
    (forall o,
       types (itemgetter (config_bc config) o) <> [] /\
       Forall (fun t => t = "extrap"%string \/ t = "const"%string)
         (types (itemgetter (config_bc config) o))) ->
    exists fs,
      get_ghost_cell_updaters bcs_check states_check b st topo (config_bc config)
      = Ok {| funcs := fs |} /\
      setup_bc st topo config = Ok ({| funcs := fs |}, []).
Proof.
  intros b st topo config Hvec Hbc Hst Hed.
  assert (Hedge : forall o fs pr,
            edge_body b o (itemgetter (config_bc config) o) fs
            = Ok (fst (helper_loop o 0 (pairs (itemgetter (config_bc config) o)) (fs, pr)))
            /\ snd (helper_loop o 0 (pairs (itemgetter (config_bc config) o)) (fs, pr))
               = pr).
  { intros o fs pr. destruct (Hed o) as [Hne Hall].
    assert (Hp := @Forall_combine_fst _ _ _ _
                    (values (itemgetter (config_bc config) o)) Hall).
    unfold edge_body.
    destruct (types (itemgetter (config_bc config) o)) as [ | t0 ts ] eqn:Ht;
      [ now elim Hne | ].
    inversion Hall as [ | t l Ht0 _ ]; subst.
    rewrite (String_eqb_neq_periodic Ht0). unfold pairs. rewrite Ht.
    now apply loops_agree. }
  unfold get_ghost_cell_updaters, setup_bc, init_bc.
  rewrite Hbc, Hvec. cbn [rbind].
  change (edge_loop b (edges (config_bc config)) [])
    with (rbind (edge_body b west (itemgetter (config_bc config) west) []) (fun f1 =>
          rbind (edge_body b east (itemgetter (config_bc config) east) f1) (fun f2 =>
          rbind (edge_body b south (itemgetter (config_bc config) south) f2) (fun f3 =>
          rbind (edge_body b north (itemgetter (config_bc config) north) f3)
            (fun f4 => Ok f4))))).
  change (init_loop false (edges (config_bc config)) ([], []))
    with (rbind (init_edge false west (itemgetter (config_bc config) west) ([], []))
            (fun a1 =>
          rbind (init_edge false east (itemgetter (config_bc config) east) a1) (fun a2 =>
          rbind (init_edge false south (itemgetter (config_bc config) south) a2)
            (fun a3 =>
          rbind (init_edge false north (itemgetter (config_bc config) north) a3)
            (fun a4 => Ok a4))))).
  unfold init_edge. cbn [andb rbind]. fold (pairs (itemgetter (config_bc config) west)).
  fold (pairs (itemgetter (config_bc config) east)).
  fold (pairs (itemgetter (config_bc config) south)).
  fold (pairs (itemgetter (config_bc config) north)).
  destruct (Hedge west [] []) as [Hw1 Hw2]. rewrite Hw1. cbn [rbind].
  destruct (helper_loop west 0 _ ([], [])) as [f1 p1]. cbn [fst snd] in *. subst p1.
  destruct (Hedge east f1 []) as [He1 He2]. rewrite He1. cbn [rbind].
  destruct (helper_loop east 0 _ (f1, [])) as [f2 p2]. cbn [fst snd] in *. subst p2.
  destruct (Hedge south f2 []) as [Hs1 Hs2]. rewrite Hs1. cbn [rbind].
  destruct (helper_loop south 0 _ (f2, [])) as [f3 p3]. cbn [fst snd] in *. subst p3.
  destruct (Hedge north f3 []) as [Hn1 Hn2]. rewrite Hn1. cbn [rbind].
  destruct (helper_loop north 0 _ (f3, [])) as [f4 p4]. cbn [fst snd] in *. subst p4.
  rewrite Hst. cbn [rbind fst snd].
  exists f4. split; reflexivity.
Qed.

End Setup.

Import Examples MoreExamples.

Lemma get_ghost_cell_updaters_returns_iff_witness :
  select plain_environ <> cunumeric /\
  is_ok (get_ghost_cell_updaters (@no_check BCConfig) (@no_check unit)
           (select plain_environ) tt tt sample_bcs) = true.
Proof.
  assert (H : select plain_environ <> cunumeric) by discriminate.
  split; [ exact H | ].
  rewrite (@get_ghost_cell_updaters_returns_iff unit unit (@no_check BCConfig)
             (@no_check unit) plain_environ tt tt sample_bcs H).
  reflexivity.
Defined.

Lemma legate_updaters_return_iff_witness :
  select legate_environ = cunumeric /\
  is_ok (get_ghost_cell_updaters (@no_check BCConfig) (@no_check unit)
           (select legate_environ) tt tt sample_bcs) = false.
Proof.
  split; [ reflexivity | ].
  rewrite (@legate_updaters_return_iff unit unit (@no_check BCConfig) (@no_check unit)
             legate_environ tt tt sample_bcs eq_refl).
  reflexivity.
Defined.

Lemma updater_funcs_by_edge_witness :
  exists fw fe fs fn,
    [outflow_bc_factory south 0; outflow_bc_factory south 1; outflow_bc_factory south 2;
     const_val_bc_factory north 0 (Some one); const_val_bc_factory north 1 (Some one);
     const_val_bc_factory north 2 (Some one)]
    = fw ++ fe ++ fs ++ fn /\
    edge_installs cython west (bc_west sample_bcs) fw /\
    edge_installs cython east (bc_east sample_bcs) fe /\
    edge_installs cython south (bc_south sample_bcs) fs /\
    edge_installs cython north (bc_north sample_bcs) fn /\
    6%nat
    = list_sum (map (fun o => if skipped (itemgetter sample_bcs o) then 0%nat
                              else Nat.min (length (types (itemgetter sample_bcs o)))
                                           (length (values (itemgetter sample_bcs o))))
                    orientations).
Proof.
  exact (@updater_funcs_by_edge unit unit (@no_check BCConfig) (@no_check unit)
           cython tt tt sample_bcs
           {| funcs :=
                [outflow_bc_factory south 0; outflow_bc_factory south 1;
                 outflow_bc_factory south 2;
                 const_val_bc_factory north 0 (Some one);
                 const_val_bc_factory north 1 (Some one);
                 const_val_bc_factory north 2 (Some one)] |}
           eq_refl).
Defined.

Lemma init_bc_installs_or_prints_witness :
  init_bc tt tt sample_config
  = Ok ([const_val_bc_factory north (-1) (Some one)],
        [unsupported_message; unsupported_message; unsupported_message]) /\
  Forall (fun f => extrap_or_const f = true)
    [const_val_bc_factory north (-1) (Some one)] /\
  [unsupported_message; unsupported_message; unsupported_message]
  = repeat unsupported_message 3 /\
  (1 + 3
   = list_sum (map (fun o => helper_calls true (itemgetter sample_bcs o)) orientations))%nat.
Proof.
  split; [ reflexivity | ].
  exact (@init_bc_installs_or_prints unit unit tt tt sample_config
           [const_val_bc_factory north (-1) (Some one)]
           [unsupported_message; unsupported_message; unsupported_message] eq_refl).
Defined.

Lemma setups_agree_on_extrap_const_witness :
  exists fs,
    get_ghost_cell_updaters (@no_check BCConfig) (@no_check unit) cunumeric tt tt
      extrap_const_bcs
    = Ok {| funcs := fs |} /\
    setup_bc tt tt extrap_const_config = Ok ({| funcs := fs |}, []).
Proof.
  apply (@setups_agree_on_extrap_const unit unit (@no_check BCConfig) (@no_check unit)
           cunumeric tt tt extrap_const_config);
    first [ reflexivity
          | intros o; destruct o;
            (split;
             [ discriminate
             | repeat (apply Forall_cons;
                       [ first [ left; reflexivity | right; reflexivity ] | ]);
               apply Forall_nil ]) ].
Defined.

End SetupFacts.

(* ===================================================================== *)
(** * Further properties of the case generators *)
(* ===================================================================== *)

Module GeneratorFacts.

Import Cases Arrays.

(** ** The grid *)

Lemma make_grid_spec c :
  (0 <= fst (discretization c))%Z ->
  (0 <= snd (discretization c))%Z ->
  exists x y,
    make_grid c = Ok {| g_x := x; g_y := y; g_xc := centers x; g_yc := centers y |} /\
    linspace (domain0 c) (domain1 c) (fst (discretization c) + 1) = Ok x /\
    linspace (domain2 c) (domain3 c) (snd (discretization c) + 1) = Ok y /\
    length x = S (Z.to_nat (fst (discretization c))) /\
    length y = S (Z.to_nat (snd (discretization c))).
Proof.
  intros Hnx Hny.
  destruct (CaseFacts.linspace_spec (domain0 c) (domain1 c) Hnx) as (x & Hx & Hlx & _).
  destruct (CaseFacts.linspace_spec (domain2 c) (domain3 c) Hny) as (y & Hy & Hly & _).
  exists x, y. unfold make_grid. rewrite Hx, Hy. cbn [rbind].
  repeat split; assumption.
Qed.

Lemma eqb_finite_refl s m e : eqb (S754_finite s m e) (S754_finite s m e) = true.
Proof.
  unfold eqb, SFeqb, SFcompare.
  destruct s; rewrite Z.compare_refl, Pos.compare_refl; reflexivity.
Qed.

(** The first sample: zero times the step, plus the start. *)
Lemma first_sample step lo :
  is_finite step = true -> eqb step pzero = false -> is_finite lo = true ->
  eqb (add (mul pzero step) lo) lo = true.
Proof.
  intros Hfin Hnz Hlo.
  destruct step as [ ss | | | ss ms es ]; try discriminate Hfin.
  - destruct ss; discriminate Hnz.
  - destruct lo as [ sl | | | sl ml el ]; try discriminate Hlo.
    + destruct ss, sl; reflexivity.
    + destruct ss; apply eqb_finite_refl.
Qed.

Lemma linspace_first lo hi (nx : Z) x :
  (0 < nx)%Z ->
  linspace lo hi (nx + 1) = Ok x ->
  is_finite (div (sub hi lo) (of_int nx)) = true ->
  eqb (div (sub hi lo) (of_int nx)) pzero = false ->
  hd pzero x = add (mul pzero (div (sub hi lo) (of_int nx))) lo.
Proof.
  intros Hnx Hx Hfin Hnz.
  rewrite CaseFacts.linspace_samples in Hx by lia.
  replace (1 <? nx + 1)%Z with true in Hx by (symmetry; apply Z.ltb_lt; lia).
  injection Hx as <-.
  unfold samples. cbv zeta.
  replace (nx + 1 - 1)%Z with nx by lia.
  replace (0 <? nx)%Z with true by (symmetry; apply Z.ltb_lt; lia).
  change (of_int 0) with pzero. rewrite Hnz.
  unfold arange.
  replace (Z.to_nat (nx + 1)) with (S (S (Z.to_nat (nx - 1)))) by lia.
  cbn [seq map]. reflexivity.
Qed.

(** X12.  With at least one cell along an axis, the last vertex is the
    upper bound of the domain itself; the first vertex is numerically equal
    to the lower bound when that bound is finite and the step between
    vertices is finite and not zero. *)
Theorem grid_vertices_span_domain :
  forall (c : SpatialConfig) (g : grid),
    (0 < fst (discretization c))%Z ->
    (0 < snd (discretization c))%Z ->
    make_grid c = Ok g ->
    last (g_x g) pzero = domain1 c /\
    last (g_y g) pzero = domain3 c /\
    (is_finite (domain0 c) = true ->
     is_finite (div (sub (domain1 c) (domain0 c)) (of_int (fst (discretization c))))
     = true ->
     eqb (div (sub (domain1 c) (domain0 c)) (of_int (fst (discretization c)))) pzero
     = false ->
     eqb (hd pzero (g_x g)) (domain0 c) = true) /\
    (is_finite (domain2 c) = true ->
     is_finite (div (sub (domain3 c) (domain2 c)) (of_int (snd (discretization c))))
     = true ->
     eqb (div (sub (domain3 c) (domain2 c)) (of_int (snd (discretization c)))) pzero
     = false ->
     eqb (hd pzero (g_y g)) (domain2 c) = true).
Proof.
  intros c g Hnx Hny Hg.
  destruct (@make_grid_spec c ltac:(lia) ltac:(lia)) as (x & y & Hg' & Hx & Hy & _ & _).
  rewrite Hg in Hg'. injection Hg' as ->. cbn [g_x g_y].
  destruct (@CaseFacts.linspace_spec (domain0 c) (domain1 c) (fst (discretization c))
              ltac:(lia)) as (x' & Hx' & _ & Hlastx).
  destruct (@CaseFacts.linspace_spec (domain2 c) (domain3 c) (snd (discretization c))
              ltac:(lia)) as (y' & Hy' & _ & Hlasty).
  rewrite Hx in Hx'. injection Hx' as <-.
  rewrite Hy in Hy'. injection Hy' as <-.
  split; [ exact (Hlastx Hnx) | ]. split; [ exact (Hlasty Hny) | ].
  split.
  - intros Hlo Hfin Hnz.
    rewrite (@linspace_first _ _ _ _ Hnx Hx Hfin Hnz). now apply first_sample.
  - intros Hlo Hfin Hnz.
    rewrite (@linspace_first _ _ _ _ Hny Hy Hfin Hnz). now apply first_sample.
Qed.

(** ** What the generators write *)

Lemma map2d_shape {A B} (f : A -> A -> B) X Y m n :
  shape2 X m n -> shape2 Y m n -> shape2 (map2d f X Y) m n.
Proof.
  intros [HmX HX] [HmY HY]. unfold map2d. split.
  - rewrite length_map, length_combine, HmX, HmY. apply Nat.min_id.
  - rewrite Forall_map. apply Forall_forall. intros [rx ry] Hin. cbn [fst snd].
    rewrite length_map, length_combine.
    rewrite Forall_forall in HX, HY.
    rewrite (HX rx (in_combine_l _ _ _ _ Hin)), (HY ry (in_combine_r _ _ _ _ Hin)).
    apply Nat.min_id.
Qed.

Lemma meshgrid_shape {A} (x y : list A) :
  shape2 (fst (meshgrid x y)) (length y) (length x) /\
  shape2 (snd (meshgrid x y)) (length y) (length x).
Proof.
  unfold meshgrid. cbn [fst snd]. split; (split; [ apply length_map | ]);
    rewrite Forall_map; apply Forall_forall; intros yj _;
    [ reflexivity | apply length_map ].
Qed.

Lemma repeat_shape {A} (row : list A) m : shape2 (repeat row m) m (length row).
Proof.
  split; [ apply repeat_length | ].
  apply Forall_forall. intros r Hr. now rewrite (repeat_spec _ _ _ Hr).
Qed.

Lemma Forall_repeat {A} (P : A -> Prop) x n : P x -> Forall P (repeat x n).
Proof. intros H. apply Forall_forall. intros y Hy. now rewrite (repeat_spec _ _ _ Hy). Qed.

Section Library.

Variables np_cos np_sin np_exp : f64 -> f64.
Variable np_power : f64 -> f64 -> f64.

Lemma xing_shu_main_spec c :
  (0 <= fst (discretization c))%Z ->
  (0 <= snd (discretization c))%Z ->
  exists g,
    make_grid c = Ok g /\
    length (g_x g) = S (Z.to_nat (fst (discretization c))) /\
    length (g_y g) = S (Z.to_nat (snd (discretization c))) /\
    g_xc g = centers (g_x g) /\
    g_yc g = centers (g_y g) /\
    XingShu.main np_exp np_power c
    = Ok {| XingShu.out_grid := g;
            XingShu.out_topo :=
              map2d (XingShu.B np_exp np_power) (fst (meshgrid (g_x g) (g_y g)))
                (snd (meshgrid (g_x g) (g_y g)));
            XingShu.out_w :=
              repeat (XingShu.w_row (g_xc g)) (Z.to_nat (snd (discretization c)));
            XingShu.out_hu :=
              repeat (XingShu.zeros_like (g_xc g)) (Z.to_nat (snd (discretization c)));
            XingShu.out_hv :=
              repeat (XingShu.zeros_like (g_xc g)) (Z.to_nat (snd (discretization c))) |}.
Proof.
  intros Hnx Hny.
  destruct (make_grid_spec c Hnx Hny) as (x & y & Hg & _ & _ & Hlx & Hly).
  eexists. split; [ exact Hg | ]. cbn [g_x g_y g_xc g_yc].
  repeat (split; [ first [ assumption | reflexivity ] | ]).
  unfold XingShu.main. rewrite Hg. cbn [rbind g_x g_y g_xc g_yc].
  unfold meshgrid at 1. rewrite !CaseFacts.tile_nonneg by exact Hny. reflexivity.
Qed.

Lemma delestre_main_spec c :
  (0 <= fst (discretization c))%Z ->
  (0 <= snd (discretization c))%Z ->
  exists g,
    make_grid c = Ok g /\
    length (g_x g) = S (Z.to_nat (fst (discretization c))) /\
    length (g_y g) = S (Z.to_nat (snd (discretization c))) /\
    g_xc g = centers (g_x g) /\
    g_yc g = centers (g_y g) /\
    Delestre.main np_cos np_sin c
    = Ok {| Delestre.out_grid := g;
            Delestre.out_topo :=
              map2d (fun x y => Delestre.topo x y Delestre.default_h0 Delestre.default_L
                                  Delestre.default_a)
                (fst (meshgrid (g_x g) (g_y g))) (snd (meshgrid (g_x g) (g_y g)));
            Delestre.out_ic :=
              Delestre.exact_soln np_cos np_sin (fst (meshgrid (g_xc g) (g_yc g)))
                (snd (meshgrid (g_xc g) (g_yc g))) pzero Delestre.default_g
                Delestre.default_h0 Delestre.default_L Delestre.default_a
                Delestre.default_eta |}.
Proof.
  intros Hnx Hny.
  destruct (make_grid_spec c Hnx Hny) as (x & y & Hg & _ & _ & Hlx & Hly).
  eexists. split; [ exact Hg | ]. cbn [g_x g_y g_xc g_yc].
  repeat (split; [ first [ assumption | reflexivity ] | ]).
  unfold Delestre.main. rewrite Hg. reflexivity.
Qed.

(** X19.  The initial condition the Xing and Shu generator writes: a water
    surface of 1 that is raised to the binary64 sum 1 + 0.01 exactly in the
    cells whose centre, as computed, satisfies [0.05 <= xc <= 0.15], the
    same in every row, and no discharge anywhere. *)
Theorem xing_shu_initial_state :
  forall c : SpatialConfig,
    (0 <= fst (discretization c))%Z ->
    (0 <= snd (discretization c))%Z ->
    exists o,
      XingShu.main np_exp np_power c = Ok o /\
      Forall (Forall (fun v => v = pzero)) (XingShu.out_hu o) /\
      Forall (Forall (fun v => v = pzero)) (XingShu.out_hv o) /\
      forall j i w,
        at2 (XingShu.out_w o) j i = Some w ->
        (w = one \/ w = add one XingShu.c0_01) /\
        leb one w = true /\
        (w = add one XingShu.c0_01 <->
         geb (nth i (g_xc (XingShu.out_grid o)) pzero) XingShu.c0_05
         && leb (nth i (g_xc (XingShu.out_grid o)) pzero) XingShu.c0_15 = true).
Proof.
  intros c Hnx Hny.
  destruct (xing_shu_main_spec c Hnx Hny) as (g & _ & _ & _ & _ & _ & Hmain).
  eexists. split; [ exact Hmain | ].
  cbn [XingShu.out_w XingShu.out_hu XingShu.out_hv XingShu.out_grid].
  assert (Hz : Forall (fun v => v = pzero) (XingShu.zeros_like (g_xc g))).
  { unfold XingShu.zeros_like. rewrite Forall_map. apply Forall_forall. now intros. }
  split; [ now apply Forall_repeat | ].
  split; [ now apply Forall_repeat | ].
  intros j i w Hat. unfold at2 in Hat.
  destruct (nth_error (repeat _ _) j) as [row | ] eqn:Hrow; [ | discriminate ].
  apply nth_error_In, repeat_spec in Hrow. subst row.
  unfold XingShu.w_row in Hat. rewrite nth_error_map in Hat.
  destruct (nth_error (g_xc g) i) as [x | ] eqn:Hx; [ | discriminate ].
  rewrite (nth_error_nth _ _ pzero Hx).
  simpl in Hat. injection Hat as <-.
  destruct (geb x XingShu.c0_05 && leb x XingShu.c0_15).
  - split; [ now right | ]. split; [ vm_compute; reflexivity | ]. now split.
  - split; [ now left | ]. split; [ reflexivity | ].
    split; [ intros H; vm_compute in H; discriminate H | discriminate ].
Qed.

(** X20.  Both generators sample the bed at the vertices and the initial
    condition at the cell centres: for [nx] by [ny] cells, the bed has
    [ny + 1] rows of [nx + 1] values and every field of the initial
    condition has [ny] rows of [nx] values. *)
Theorem generators_output_shapes :
  forall c : SpatialConfig,
    (0 <= fst (discretization c))%Z ->
    (0 <= snd (discretization c))%Z ->
    let nx := Z.to_nat (fst (discretization c)) in
    let ny := Z.to_nat (snd (discretization c)) in
    exists od ox,
      Delestre.main np_cos np_sin c = Ok od /\
      XingShu.main np_exp np_power c = Ok ox /\
      shape2 (Delestre.out_topo od) (S ny) (S nx) /\
      shape2 (Delestre.out_ic od) ny nx /\
      shape2 (XingShu.out_topo ox) (S ny) (S nx) /\
      shape2 (XingShu.out_w ox) ny nx /\
      shape2 (XingShu.out_hu ox) ny nx /\
      shape2 (XingShu.out_hv ox) ny nx.
Proof.
  intros c Hnx Hny nx ny.
  destruct (delestre_main_spec c Hnx Hny) as (g & Hg & Hlx & Hly & Hxc & Hyc & Hd).
  destruct (xing_shu_main_spec c Hnx Hny) as (g' & Hg' & _ & _ & _ & _ & Hx).
  rewrite Hg in Hg'. injection Hg' as <-.
  eexists. eexists. split; [ exact Hd | ]. split; [ exact Hx | ].
  cbn [Delestre.out_topo Delestre.out_ic XingShu.out_topo XingShu.out_w
       XingShu.out_hu XingShu.out_hv].
  assert (Hlxc : length (g_xc g) = nx)
    by (rewrite Hxc, CaseFacts.centers_length, Hlx; unfold nx; lia).
  assert (Hlyc : length (g_yc g) = ny)
    by (rewrite Hyc, CaseFacts.centers_length, Hly; unfold ny; lia).
  destruct (meshgrid_shape (g_x g) (g_y g)) as [HX HY].
  destruct (meshgrid_shape (g_xc g) (g_yc g)) as [HXc HYc].
  rewrite Hlx, Hly in HX, HY. rewrite Hlxc, Hlyc in HXc, HYc.
  assert (Hw : length (XingShu.w_row (g_xc g)) = nx)
    by (unfold XingShu.w_row; now rewrite length_map).
  assert (Hz : length (XingShu.zeros_like (g_xc g)) = nx)
    by (unfold XingShu.zeros_like; now rewrite length_map).
  split; [ now apply map2d_shape | ].
  split; [ unfold Delestre.exact_soln; now apply map2d_shape | ].
  split; [ now apply map2d_shape | ].
  split; [ rewrite <- Hw; apply repeat_shape | ].
  split; rewrite <- Hz; apply repeat_shape.
Qed.

Lemma linspace_is_ok lo hi num : is_ok (linspace lo hi num) = negb (num <? 0)%Z.
Proof. unfold linspace. now destruct (num <? 0)%Z. Qed.

Lemma make_grid_is_ok c :
  is_ok (make_grid c)
  = (-1 <=? fst (discretization c))%Z && (-1 <=? snd (discretization c))%Z.
Proof.
  unfold make_grid.
  pose proof (linspace_is_ok (domain0 c) (domain1 c) (fst (discretization c) + 1)) as Hx.
  pose proof (linspace_is_ok (domain2 c) (domain3 c) (snd (discretization c) + 1)) as Hy.
  replace (negb (fst (discretization c) + 1 <? 0)%Z)
    with (-1 <=? fst (discretization c))%Z in Hx
    by (destruct (Z.leb_spec (-1) (fst (discretization c)));
        destruct (Z.ltb_spec (fst (discretization c) + 1) 0); simpl; lia || reflexivity).
  replace (negb (snd (discretization c) + 1 <? 0)%Z)
    with (-1 <=? snd (discretization c))%Z in Hy
    by (destruct (Z.leb_spec (-1) (snd (discretization c)));
        destruct (Z.ltb_spec (snd (discretization c) + 1) 0); simpl; lia || reflexivity).
  rewrite <- Hx, <- Hy.
  destruct (linspace (domain0 c) _ _); cbn [rbind is_ok andb]; [ | reflexivity ].
  destruct (linspace (domain2 c) _ _); reflexivity.
Qed.

(** X21.  The generators go through for every number of cells from [-1] up
    along x; along y the Delestre generator takes [-1] as well, and the
    Xing and Shu generator, which tiles its rows that many times, nothing
    below zero. *)
Theorem generators_return_iff :
  forall c : SpatialConfig,
    is_ok (Delestre.main np_cos np_sin c)
    = (-1 <=? fst (discretization c))%Z && (-1 <=? snd (discretization c))%Z /\
    is_ok (XingShu.main np_exp np_power c)
    = (-1 <=? fst (discretization c))%Z && (0 <=? snd (discretization c))%Z.
Proof.
  intros c. pose proof (make_grid_is_ok c) as Hg. split.
  - unfold Delestre.main. rewrite <- Hg.
    destruct (make_grid c) as [g | e]; cbn [rbind is_ok]; [ | reflexivity ].
    destruct (meshgrid (g_x g) (g_y g)), (meshgrid (g_xc g) (g_yc g)). reflexivity.
  - unfold XingShu.main.
    destruct (make_grid c) as [g | e]; cbn [rbind is_ok] in *.
    + destruct (meshgrid (g_x g) (g_y g)). unfold tile.
      symmetry in Hg. apply andb_prop in Hg. destruct Hg as [-> Hy].
      cbn [andb].
      destruct (Z.ltb_spec (snd (discretization c)) 0);
        destruct (Z.leb_spec 0 (snd (discretization c))); try lia; reflexivity.
    + symmetry in Hg. apply andb_false_iff in Hg. destruct Hg as [-> | Hy];
        [ reflexivity | ].
      apply Z.leb_gt in Hy.
      destruct (Z.leb_spec 0 (snd (discretization c))); [ lia | ].
      now rewrite andb_false_r.
Qed.

End Library.

Import Examples.

Lemma unit_square_grid :
  exists g, make_grid unit_square = Ok g.
Proof.
  destruct (@make_grid_spec unit_square ltac:(simpl; lia) ltac:(simpl; lia))
    as (x & y & Hg & _).
  eexists. exact Hg.
Defined.

Lemma grid_vertices_span_domain_witness :
  exists g,
    make_grid unit_square = Ok g /\
    last (g_x g) pzero = one /\
    last (g_y g) pzero = two /\
    eqb (hd pzero (g_x g)) pzero = true /\
    eqb (hd pzero (g_y g)) pzero = true.
Proof.
  destruct unit_square_grid as [g Hg]. exists g. split; [ exact Hg | ].
  destruct (@grid_vertices_span_domain unit_square g ltac:(simpl; lia)
              ltac:(simpl; lia) Hg) as (H1 & H2 & H3 & H4).
  split; [ exact H1 | ]. split; [ exact H2 | ].
  split; [ apply H3 | apply H4 ]; vm_compute; reflexivity.
Defined.

Lemma xing_shu_initial_state_witness :
  exists o,
    XingShu.main exp_at_zero square_power unit_square = Ok o /\
    Forall (Forall (fun v => v = pzero)) (XingShu.out_hu o) /\
    Forall (Forall (fun v => v = pzero)) (XingShu.out_hv o) /\
    forall j i w,
      at2 (XingShu.out_w o) j i = Some w ->
      (w = one \/ w = add one XingShu.c0_01) /\
      leb one w = true /\
      (w = add one XingShu.c0_01 <->
       geb (nth i (g_xc (XingShu.out_grid o)) pzero) XingShu.c0_05
       && leb (nth i (g_xc (XingShu.out_grid o)) pzero) XingShu.c0_15 = true).
Proof.
  apply (@xing_shu_initial_state exp_at_zero square_power unit_square); simpl; lia.
Defined.

Lemma generators_output_shapes_witness :
  exists od ox,
    Delestre.main cos_at_zero sin_at_zero unit_square = Ok od /\
    XingShu.main exp_at_zero square_power unit_square = Ok ox /\
    shape2 (Delestre.out_topo od) 2 3 /\
    shape2 (Delestre.out_ic od) 1 2 /\
    shape2 (XingShu.out_topo ox) 2 3 /\
    shape2 (XingShu.out_w ox) 1 2 /\
    shape2 (XingShu.out_hu ox) 1 2 /\
    shape2 (XingShu.out_hv ox) 1 2.
Proof.
  apply (@generators_output_shapes cos_at_zero sin_at_zero exp_at_zero square_power
           unit_square); simpl; lia.
Defined.

End GeneratorFacts.

(* ===================================================================== *)
(** * Still water *)
(* ===================================================================== *)

Module StillWater.

Import Arrays.

Lemma zipM_repeat {A B C} (f : A -> B -> result C) x y z m :
  f x y = Ok z -> NP.zipM f (repeat x m) (repeat y m) = Ok (repeat z m).
Proof.
  intros Hf. induction m as [ | m IH ]; [ reflexivity | ].
  simpl. rewrite Hf. simpl. rewrite IH. reflexivity.
Qed.

Lemma broadcast_repeat {A B C} (f : A -> B -> result C) x y z m :
  f x y = Ok z -> NP.broadcast f (repeat x m) (repeat y m) = Ok (repeat z m).
Proof.
  intros Hf. rewrite DivergenceFacts.broadcast_same_length
    by (now rewrite !repeat_length).
  now apply zipM_repeat.
Qed.

(** [maximum(a+, -a-)] on two arrays filled with one value each. *)
Lemma maximum2_uniform a b m n :
  NP.maximum2 (repeat (repeat a n) m) (NP.negative (repeat (repeat b n) m))
  = Ok (repeat (repeat (NP.maximum a (neg b)) n) m).
Proof.
  unfold NP.maximum2, NP.ew2, NP.negative, NP.map2.
  rewrite map_repeat, map_repeat.
  apply broadcast_repeat. now apply broadcast_repeat.
Qed.

Lemma fold_maximum_uniform v l :
  NP.maximum v v = v -> Forall (fun x => x = v) l -> fold_left NP.maximum l v = v.
Proof.
  intros Hv Hl. induction Hl as [ | x l -> _ IH ]; [ reflexivity | ].
  simpl. now rewrite Hv.
Qed.

Lemma max_uniform v m n :
  NP.maximum v v = v -> (0 < m)%nat -> (0 < n)%nat ->
  NP.max (repeat (repeat v n) m) = Ok v.
Proof.
  intros Hv Hm Hn. unfold NP.max.
  assert (Hall : Forall (fun x => x = v) (concat (repeat (repeat v n) m))).
  { apply Forall_concat. apply Forall_forall. intros r Hr.
    apply repeat_spec in Hr. subst r.
    apply Forall_forall. intros x Hx. now apply repeat_spec in Hx. }
  destruct m as [ | m ]; [ lia | ]. destruct n as [ | n ]; [ lia | ].
  simpl in Hall |- *. inversion Hall; subst.
  f_equal. now apply fold_maximum_uniform.
Qed.

(** The largest speed over faces whose one-sided speeds are all [+0.0] is
    [-0.0]. *)
Lemma core_max_speed_still (f : CoreFvm.Face) m n :
  (0 < m)%nat -> (0 < n)%nat ->
  CoreFvm.plus_a f = repeat (repeat pzero n) m ->
  CoreFvm.minus_a f = repeat (repeat pzero n) m ->
  CoreFvm.max_speed f = Ok nzero.
Proof.
  intros Hm Hn Hp Hq. unfold CoreFvm.max_speed.
  rewrite Hp, Hq, maximum2_uniform. cbn [rbind].
  change (NP.maximum pzero (neg pzero)) with nzero.
  now apply max_uniform.
Qed.

Lemma fvm_max_speed_still (f : Fvm.Face) m n :
  (0 < m)%nat -> (0 < n)%nat ->
  Fvm.plus_a f = repeat (repeat pzero n) m ->
  Fvm.minus_a f = repeat (repeat pzero n) m ->
  Fvm.max_speed f = Ok nzero.
Proof.
  intros Hm Hn Hp Hq. unfold Fvm.max_speed.
  rewrite Hp, Hq, maximum2_uniform. cbn [rbind].
  change (NP.maximum pzero (neg pzero)) with nzero.
  now apply max_uniform.
Qed.

Lemma div_pos_finite_nzero x : is_pos_finite x = true -> div x nzero = ninf.
Proof. destruct x as [ | | | [] m e ]; simpl; try discriminate; reflexivity. Qed.

Section Both.

Variable OtherC : Type.
Variables RuntimeC ConfigC : Type.
Variable c_sources : RuntimeC -> list (CoreFvm.source OtherC RuntimeC ConfigC).
Variable c_tol : RuntimeC -> f64.
Variable c_dt : RuntimeC -> f64.
Variable c_gravity : ConfigC -> f64.
Variable c_reconstruct :
  CoreFvm.States OtherC -> RuntimeC -> ConfigC -> result (CoreFvm.States OtherC).
Variable c_get_local_speed :
  CoreFvm.States OtherC -> f64 -> result (CoreFvm.States OtherC).
Variable c_get_discontinuous_flux :
  CoreFvm.States OtherC -> f64 -> result (CoreFvm.States OtherC).
Variable c_central_scheme :
  CoreFvm.States OtherC -> f64 -> result (CoreFvm.States OtherC).
Variable nplike : NP.backend.

Variable Other : Type.
Variables Runtime Config : Type.
Variable sources : Runtime -> list (Fvm.source Other Runtime Config).
Variable stiff_sources : Runtime -> list (Fvm.source Other Runtime Config).
Variable allow_async : Config -> bool.
Variable temporal_dt : Config -> f64.
Variable reconstruct : Fvm.States Other -> Runtime -> Config -> result (Fvm.States Other).
Variable get_local_speed : Fvm.States Other -> result (Fvm.States Other).
Variable get_discontinuous_flux : Fvm.States Other -> result (Fvm.States Other).
Variable central_scheme : Fvm.States Other -> result (Fvm.States Other).

Let core_prepare_rhs := CoreFvm.prepare_rhs c_sources c_tol c_dt c_gravity
  c_reconstruct c_get_local_speed c_get_discontinuous_flux c_central_scheme nplike.

Let core_kernels := CoreFvm.after_kernels c_tol c_gravity c_reconstruct
  c_get_local_speed c_get_discontinuous_flux c_central_scheme.

Let fvm_prepare_rhs := Fvm.prepare_rhs sources stiff_sources allow_async
  temporal_dt reconstruct get_local_speed get_discontinuous_flux central_scheme.

Let fvm_kernels := Fvm.after_kernels reconstruct get_local_speed
  get_discontinuous_flux central_scheme.

(** X22.  On still water, where every one-sided speed on every face is
    [+0.0], [maximum(a+, -a-)] is [-0.0] everywhere, both quotients are
    [-inf], and no configured time step comes back: [torchswe/core/fvm.py]
    returns the most negative finite number (its [nan_to_num] is given a
    replacement for [+inf] only; with the fallback for the old CuPy it
    returns [-inf]), and [torchswe/fvm.py] with [allow_async] off returns
    [-inf]. *)
Theorem still_water_time_step :
  forall (cst : CoreFvm.States OtherC) crt ccfg cst' cdt clog
         (st : Fvm.States Other) rt cfg st' max_dt log,
    (run (core_prepare_rhs cst crt ccfg) = (Ok (cst', cdt), clog) ->
     forall st4 mx nx my ny,
       core_kernels cst crt ccfg = Ok st4 ->
       (0 < mx)%nat -> (0 < nx)%nat -> (0 < my)%nat -> (0 < ny)%nat ->
       CoreFvm.plus_a (CoreFvm.face_x cst') = repeat (repeat pzero nx) mx ->
       CoreFvm.minus_a (CoreFvm.face_x cst') = repeat (repeat pzero nx) mx ->
       CoreFvm.plus_a (CoreFvm.face_y cst') = repeat (repeat pzero ny) my ->
       CoreFvm.minus_a (CoreFvm.face_y cst') = repeat (repeat pzero ny) my ->
       is_pos_finite (mul quarter (CoreFvm.domain_x_delta st4)) = true ->
       is_pos_finite (mul quarter (CoreFvm.domain_y_delta st4)) = true ->
       cdt = match nplike with NP.NumPy => neg max_float | NP.CuPy9 => ninf end)
    /\
    (run (fvm_prepare_rhs st rt cfg) = (Ok (st', max_dt), log) ->
     allow_async cfg = false ->
     forall st4 mx nx my ny,
       fvm_kernels st rt cfg = Ok st4 ->
       (0 < mx)%nat -> (0 < nx)%nat -> (0 < my)%nat -> (0 < ny)%nat ->
       Fvm.plus_a (Fvm.face_x st') = repeat (repeat pzero nx) mx ->
       Fvm.minus_a (Fvm.face_x st') = repeat (repeat pzero nx) mx ->
       Fvm.plus_a (Fvm.face_y st') = repeat (repeat pzero ny) my ->
       Fvm.minus_a (Fvm.face_y st') = repeat (repeat pzero ny) my ->
       is_pos_finite (snd (Fvm.domain_delta st4)) = true ->
       is_pos_finite (fst (Fvm.domain_delta st4)) = true ->
       max_dt = ninf).
Proof.
  intros cst crt ccfg cst' cdt clog st rt cfg st' max_dt log. split.
  - intros Hrun st4 mx nx my ny Hk Hmx Hnx Hmy Hny Hxp Hxm Hyp Hym Hdx Hdy.
    apply CoreFvmFacts.core_prepare_rhs_run in Hrun.
    destruct Hrun as (st4' & S' & amax & bmax & Hk' & _ & _ & Ha & Hb & Hcap & _).
    fold core_kernels in Hk'. rewrite Hk in Hk'. injection Hk' as <-.
    rewrite (core_max_speed_still _ Hmx Hnx Hxp Hxm) in Ha. injection Ha as <-.
    rewrite (core_max_speed_still _ Hmy Hny Hyp Hym) in Hb. injection Hb as <-.
    rewrite (div_pos_finite_nzero _ Hdx), (div_pos_finite_nzero _ Hdy) in Hcap.
    unfold CoreFvm.cap_dt in Hcap. destruct nplike; simpl in Hcap;
      now injection Hcap.
  - intros Hrun Hoff st4 mx nx my ny Hk Hmx Hnx Hmy Hny Hxp Hxm Hyp Hym Hdx Hdy.
    apply FvmFacts.prepare_rhs_run in Hrun.
    destruct Hrun as (st4' & st5 & s' & (Hk' & _) & Hdt).
    fold fvm_kernels in Hk'. rewrite Hk in Hk'. injection Hk' as <-.
    unfold Fvm.spacing in Hdt. rewrite Hoff in Hdt. simpl negb in Hdt. cbv iota in Hdt.
    destruct Hdt as (amax & bmax & Ha & Hb & -> & _).
    rewrite (fvm_max_speed_still _ Hmx Hnx Hxp Hxm) in Ha. injection Ha as <-.
    rewrite (fvm_max_speed_still _ Hmy Hny Hyp Hym) in Hb. injection Hb as <-.
    now rewrite (div_pos_finite_nzero _ Hdx), (div_pos_finite_nzero _ Hdy).
Qed.

End Both.

Import Examples.

Lemma still_water_time_step_witness :
  run (core_prepare_rhs NP.NumPy [] still_core a_runtime a_config)
  = (Ok (still_core_out, neg max_float), kernel_stages ++ [StCflDt]) /\
  run (fvm_prepare_rhs [] [] still a_runtime a_config)
  = (Ok (still_out, ninf), kernel_stages ++ [StCflDt]) /\
  neg max_float = neg max_float /\
  ninf = ninf.
Proof.
  assert (Hc : run (core_prepare_rhs NP.NumPy [] still_core a_runtime a_config)
               = (Ok (still_core_out, neg max_float), kernel_stages ++ [StCflDt]))
    by (vm_compute; reflexivity).
  assert (Hn : run (fvm_prepare_rhs [] [] still a_runtime a_config)
               = (Ok (still_out, ninf), kernel_stages ++ [StCflDt]))
    by (vm_compute; reflexivity).
  destruct (@still_water_time_step unit runtime config
              (fun _ => []) tol dt gravity core_kernel3 core_kernel2
              core_kernel2 core_kernel2 NP.NumPy
              unit runtime config
              (fun _ => []) (fun _ => []) allow_async temporal_dt
              kernel3 kernel1 kernel1 kernel1
              still_core a_runtime a_config still_core_out (neg max_float)
              (kernel_stages ++ [StCflDt])
              still a_runtime a_config still_out ninf
              (kernel_stages ++ [StCflDt]))
    as [H1 H2].
  split; [ exact Hc | ]. split; [ exact Hn | ]. split.
  - apply (H1 Hc still_core 1%nat 2%nat 2%nat 1%nat); try reflexivity; lia.
  - apply (H2 Hn eq_refl still 1%nat 2%nat 2%nat 1%nat); try reflexivity; lia.
Defined.

End StillWater.
